(** * cipa.io.tedutils: export and import of TED datasets

    A shallow embedding of the tabular projection builder
    ([cells_cursors_liquids_results_dataframes]), of the exporter
    ([to_xlsx]) and of the parts of the importer ([from_xlsx]) that decide
    the properties stated about them, together with the data model of the
    [cipa] package they operate on, the waveform tables of
    [cipa.waveforms] and [cipa.edfiles], and the helper functions of
    [cipa.io].

    Conventions of the embedding.
    - Python exceptions are values of [exn]; a computation that may raise
      has type [outcome A] and is sequenced with [x <- c ;; k].
    - Python [str] is [string]; [lower], [upper] and [int] are modelled on
      ASCII text.
    - Python [float] is modelled by the rational it denotes ([Q]); the
      not-a-number value, which the constructors of the data model use as a
      default, is the extra constructor [NaN] of [float].  Elapsed times are
      finite floats, hence [Q].  Rounding is not modelled.
    - A pandas DataFrame is a list of column labels and a list of typed
      rows; the operations used by the source ([sort_values],
      [drop_duplicates], [drop], boolean masks, [iloc]) are modelled in
      module [Pandas] with the errors they raise.
    - These attributes, which the constructors of the data model leave
      [None], are of an [option] type, and reading through a [None] raises
      as in Python: the study and the liquid junction potential of a
      trial, the device of an experiment, the identifier of a cell, the
      liquid junction potential and the cursors of a results set, the
      waveform and the cursors of a result, the type and the result of a
      cursor.  The lists of an experiment ([protocols], [resultsSet]) and
      of a results set ([results]) and the identifier of a device are
      taken to be set: an object that leaves one of them [None] is not a
      value of the model.  (The builder raises on such a list, and does
      not read the identifier of a device.)
    - Two assumptions on a trial are hypotheses of the statements that
      need them: [cursor_names_apart], under which the typed row of the
      wide results is the dictionary that the builder fills, and
      [at_different_times], under which the order that an unstable sort
      leaves does not matter. *)

From Stdlib Require Import String Ascii List ZArith QArith Lia Lqa Bool.
From Stdlib Require Import DecimalString DecimalPos Sorted Permutation Qround.
Import ListNotations.
Local Open Scope string_scope.
Local Open Scope list_scope.
Local Open Scope Z_scope.

(* ================================================================== *)
(** * Python primitives *)
(* ================================================================== *)

Module Py.

Inductive exn : Type :=
| KeyError (key : string)
| IndexError
| AttributeError (attr : string)
| ValueError (literal : string)
| TypeError
| FileNotFoundError (filename : string)
| EncapsulatedDataFileError (filename message : string)
| ParseFileError (filename message : string).

Inductive outcome (A : Type) : Type :=
| Ok (a : A)
| Raise (e : exn).

Arguments Ok {A} a.
Arguments Raise {A} e.

Definition bind {A B} (c : outcome A) (k : A -> outcome B) : outcome B :=
  match c with
  | Ok a => k a
  | Raise e => Raise e
  end.

(** [for x in xs: st = body st x], stopping at the first exception. *)
Fixpoint for_each {A S} (body : S -> A -> outcome S) (xs : list A) (st : S)
  : outcome S :=
  match xs with
  | [] => Ok st
  | x :: xs' => bind (body st x) (for_each body xs')
  end.

Definition is_ok {A} (c : outcome A) : bool :=
  match c with Ok _ => true | Raise _ => false end.

(** ** Strings *)

(** [s.split(sep)] for a one-character separator: never the empty list. *)
Fixpoint split (sep : ascii) (s : string) : list string :=
  match s with
  | EmptyString => [EmptyString]
  | String c s' =>
      if Ascii.eqb c sep then EmptyString :: split sep s'
      else match split sep s' with
           | [] => [String c EmptyString]
           | w :: ws => String c w :: ws
           end
  end.

(** [sep.join(xs)] *)
Fixpoint join (sep : string) (xs : list string) : string :=
  match xs with
  | [] => EmptyString
  | [x] => x
  | x :: xs' => (x ++ sep ++ join sep xs')%string
  end.

(** [s.replace(c, "")] for a one-character [c]. *)
Fixpoint remove_char (c : ascii) (s : string) : string :=
  match s with
  | EmptyString => EmptyString
  | String d s' =>
      if Ascii.eqb d c then remove_char c s' else String d (remove_char c s')
  end.

Definition lower_ascii (c : ascii) : ascii :=
  let n := nat_of_ascii c in
  if (Nat.leb 65 n && Nat.leb n 90)%bool then ascii_of_nat (n + 32) else c.

Definition upper_ascii (c : ascii) : ascii :=
  let n := nat_of_ascii c in
  if (Nat.leb 97 n && Nat.leb n 122)%bool then ascii_of_nat (n - 32) else c.

Fixpoint map_string (f : ascii -> ascii) (s : string) : string :=
  match s with
  | EmptyString => EmptyString
  | String c s' => String (f c) (map_string f s')
  end.

Definition lower : string -> string := map_string lower_ascii.
Definition upper : string -> string := map_string upper_ascii.

(** [s[-n:]]: the last [n] characters, the whole string when it is shorter. *)
Definition suffix (n : nat) (s : string) : string :=
  substring (String.length s - n) n s.

(** [s[:-n]]: all but the last [n] characters. *)
Definition drop_suffix (n : nat) (s : string) : string :=
  substring 0 (String.length s - n) s.

(** Whitespace stripped by [int]: tab to carriage return, the four
    separators FS..US, and the space. *)
Definition is_space (c : ascii) : bool :=
  let n := nat_of_ascii c in
  ((Nat.leb 9 n && Nat.leb n 13) || (Nat.leb 28 n && Nat.leb n 32))%bool.

Fixpoint lstrip (s : string) : string :=
  match s with
  | EmptyString => EmptyString
  | String c s' => if is_space c then lstrip s' else s
  end.

Fixpoint rstrip (s : string) : string :=
  match s with
  | EmptyString => EmptyString
  | String c s' =>
      match rstrip s' with
      | EmptyString => if is_space c then EmptyString else String c EmptyString
      | r => String c r
      end
  end.

Definition strip (s : string) : string := rstrip (lstrip s).

Definition digit_of (c : ascii) : option Z :=
  let n := nat_of_ascii c in
  if (Nat.leb 48 n && Nat.leb n 57)%bool then Some (Z.of_nat (n - 48)) else None.

(** Decimal digits with single underscores between digits, as [int]
    accepts them; [prev] tells whether the previous character was a digit. *)
Fixpoint digits_value (acc : Z) (prev : bool) (s : string) : option Z :=
  match s with
  | EmptyString => if prev then Some acc else None
  | String c s' =>
      match digit_of c with
      | Some d => digits_value (10 * acc + d) true s'
      | None =>
          if (Ascii.eqb c "_" && prev)%bool then digits_value acc false s'
          else None
      end
  end.

Definition parse_int (s : string) : option Z :=
  match strip s with
  | String "+" r => digits_value 0 false r
  | String "-" r => option_map Z.opp (digits_value 0 false r)
  | r => digits_value 0 false r
  end.

(** [int(s)] on a string: [ValueError] on an invalid literal. *)
Definition int (s : string) : outcome Z :=
  match parse_int s with
  | Some n => Ok n
  | None => Raise (ValueError s)
  end.

(** [str(n)] on an integer. *)
Definition str (n : Z) : string := NilZero.string_of_int (Z.to_int n).

(** [range(a, b)] *)
Definition range (a b : Z) : list Z :=
  map (fun i => a + Z.of_nat i) (seq 0 (Z.to_nat (b - a))).

(** [xs[0]] and [xs[-1]] *)
Definition first {A} (xs : list A) : outcome A :=
  match xs with
  | [] => Raise IndexError
  | x :: _ => Ok x
  end.

Definition last {A} (xs : list A) : outcome A :=
  match rev xs with
  | [] => Raise IndexError
  | x :: _ => Ok x
  end.

End Py.

Import Py.

Notation "x <- c ;; k" := (Py.bind c (fun x => k))
  (at level 61, c at next level, right associativity).

(* ================================================================== *)
(** * tedutils.expand_numbers_list *)
(* ================================================================== *)

Definition out_of_range_message (a b : string) : string :=
  ("expand_numbers_list: " ++ a ++ " to " ++ b ++ " are out of range")%string.

(** One turn of the loop [for item in row]; the state is [new_row] and the
    messages sent to the logger so far. *)
Definition expand_item (st : list string * list string) (item : list string)
  : outcome (list string * list string) :=
  let '(new_row, log) := st in
  match item with
  | [a; b] =>
      x <- int a ;;
      y <- int b ;;
      if x <=? y
      then Ok (new_row ++ map str (range x (y + 1)), log)
      else Ok (new_row, log ++ [out_of_range_message a b])
  | [a] => Ok (new_row ++ [a], log)
  | a :: b :: _ => Ok (new_row, log ++ [out_of_range_message a b])
  | [] => Raise IndexError
  end.

(** The result is the returned list, paired with the logged messages. *)
Definition expand_numbers_list (numbers_string : option string)
  : outcome (list string * list string) :=
  match numbers_string with
  | None => Ok ([], [])
  | Some s =>
      if String.eqb (remove_char " " s) "" then Ok ([], [])
      else
        let row := split ";" s in
        let row := map (split "-") row in
        for_each expand_item row ([], [])
  end.

(* ================================================================== *)
(** * Floats and cell values *)
(* ================================================================== *)

(** A Python float: a finite value or not-a-number. *)
Inductive float : Type :=
| Fin (q : Q)
| NaN.

(** What a cell of a DataFrame or an attribute of a row object holds. *)
Inductive value : Type :=
| VStr (s : string)
| VInt (n : Z)
| VFloat (x : float).

Definition float_eqb (x y : float) : bool :=
  match x, y with
  | Fin p, Fin q => Qeq_bool p q
  | NaN, NaN => true
  | _, _ => false
  end.

(** Equality of cells as [drop_duplicates] sees it: missing values are
    equal to each other, numbers are compared by value. *)
Definition value_eqb (a b : value) : bool :=
  match a, b with
  | VStr s, VStr t => String.eqb s t
  | VInt m, VInt n => Z.eqb m n
  | VInt m, VFloat (Fin q) => Qeq_bool (inject_Z m) q
  | VFloat (Fin q), VInt n => Qeq_bool q (inject_Z n)
  | VFloat x, VFloat y => float_eqb x y
  | _, _ => false
  end.

(** Order of cells as [sort_values] sees it: numbers by value with the
    missing value last ([na_position='last']), strings in code-point
    order.  A column of the tables below never mixes strings and numbers;
    the order between the two kinds is immaterial. *)
Definition value_compare (a b : value) : comparison :=
  match a, b with
  | VStr s, VStr t => String.compare s t
  | VInt m, VInt n => Z.compare m n
  | VInt m, VFloat (Fin q) => Qcompare (inject_Z m) q
  | VFloat (Fin q), VInt n => Qcompare q (inject_Z n)
  | VFloat (Fin p), VFloat (Fin q) => Qcompare p q
  | VFloat NaN, VFloat NaN => Eq
  | VFloat NaN, _ => Gt
  | _, VFloat NaN => Lt
  | VStr _, _ => Gt
  | _, VStr _ => Lt
  end.

(** [a >= b] and [a < b] on finite floats. *)
Definition Qgeb (a b : Q) : bool := Qle_bool b a.
Definition Qltb (a b : Q) : bool := negb (Qle_bool b a).

(* ================================================================== *)
(** * The pandas operations used by tedutils *)
(* ================================================================== *)

(** A row type of a table: the labels a row object carries (the keys of its
    [__dict__], in insertion order) and the cell under a label, missing
    cells being not-a-number. *)
Class Row (A : Type) : Type := {
  keys : A -> list string;
  get : A -> string -> value
}.

Module Pandas.

Record DataFrame (A : Type) : Type := {
  columns : list string;
  rows : list A
}.

Arguments columns {A} d.
Arguments rows {A} d.

Definition mem (k : string) (ks : list string) : bool :=
  existsb (String.eqb k) ks.

(** Labels in order of first appearance. *)
Fixpoint add_labels (seen ks : list string) : list string :=
  match ks with
  | [] => seen
  | k :: ks' => add_labels (if mem k seen then seen else seen ++ [k]) ks'
  end.

(** [pd.DataFrame(data=records)]: the columns are the keys of the records
    in order of first appearance; no record, no column. *)
Definition from_records {A} `{Row A} (data : list A) : DataFrame A :=
  {| columns := fold_left (fun seen r => add_labels seen (keys r)) data [];
     rows := data |}.

(** [pd.DataFrame(columns=labels)] *)
Definition empty_frame {A} (labels : list string) : DataFrame A :=
  {| columns := labels; rows := [] |}.

(** Lexicographic order of two rows on the labels [by]. *)
Fixpoint lex_leb {A} `{Row A} (by_ : list string) (a b : A) : bool :=
  match by_ with
  | [] => true
  | k :: ks =>
      match value_compare (get a k) (get b k) with
      | Lt => true
      | Gt => false
      | Eq => lex_leb ks a b
      end
  end.

Fixpoint insert {A} (leb : A -> A -> bool) (x : A) (l : list A) : list A :=
  match l with
  | [] => [x]
  | y :: l' => if leb x y then x :: l else y :: insert leb x l'
  end.

(** A stable sort: rows with equal keys keep their order. *)
Fixpoint stable_sort {A} (leb : A -> A -> bool) (l : list A) : list A :=
  match l with
  | [] => []
  | x :: l' => insert leb x (stable_sort leb l')
  end.

(** [df.sort_values(by, ignore_index=True)]: [KeyError] on the first label
    of [by] that is not a column.  With several labels pandas sorts
    stably; with one label it uses an unstable sort by default, so the
    order among rows with equal keys is one of the possible ones.  The
    one sort by a single label is that of the liquid additions by
    [TIME]; the statements that depend on their order have the
    hypothesis [at_different_times], under which rows of equal [TIME]
    are equal rows. *)
Definition sort_values {A} `{Row A} (by_ : list string) (df : DataFrame A)
  : outcome (DataFrame A) :=
  match find (fun k => negb (mem k (columns df))) by_ with
  | Some k => Raise (KeyError k)
  | None =>
      Ok {| columns := columns df;
            rows := stable_sort (lex_leb by_) (rows df) |}
  end.

(** Two rows agree on the columns [cols]. *)
Definition same_on {A} `{Row A} (cols : list string) (a b : A) : bool :=
  forallb (fun k => value_eqb (get a k) (get b k)) cols.

Fixpoint keep_first {A} (eqb : A -> A -> bool) (seen l : list A) : list A :=
  match l with
  | [] => []
  | x :: l' =>
      if existsb (eqb x) seen then keep_first eqb seen l'
      else x :: keep_first eqb (x :: seen) l'
  end.

(** [df.drop_duplicates()]: the first of the rows equal on all columns.
    [keep_first] also serves for [series.drop_duplicates()]. *)
Definition drop_duplicates {A} `{Row A} (df : DataFrame A) : DataFrame A :=
  {| columns := columns df;
     rows := keep_first (same_on (columns df)) [] (rows df) |}.

(** [df.drop(columns=[label])]: [KeyError] when there is no such column.
    The rows keep their attribute; the frame no longer shows it. *)
Definition drop {A} (label : string) (df : DataFrame A)
  : outcome (DataFrame A) :=
  if mem label (columns df)
  then Ok {| columns := filter (fun k => negb (String.eqb k label)) (columns df);
             rows := rows df |}
  else Raise (KeyError label).

(** [df[mask]] *)
Definition where_ {A} (mask : A -> bool) (df : DataFrame A) : DataFrame A :=
  {| columns := columns df; rows := filter mask (rows df) |}.

(** [df.iloc[0]] and [df.iloc[-1]]: [IndexError] on a frame without rows. *)
Definition iloc_first {A} (df : DataFrame A) : outcome A := first (rows df).
Definition iloc_last {A} (df : DataFrame A) : outcome A := last (rows df).

End Pandas.

(* ================================================================== *)
(** * The data model of the cipa package *)
(* ================================================================== *)

(** Each class is a record in a module of its name.  Attributes that the
    constructors default to [None] and that the exporter tests or reads
    are options; the list attributes the exporter iterates are lists. *)

Module Id.
Record t : Type := { root : string; extension : string }.
End Id.

Module StudyReport.
Record t : Type := {
  title : string; version : string; date : string; text : string
}.
End StudyReport.

Module Study.
Record t : Type := { studyId : string; report : StudyReport.t }.
End Study.

Module Device.
Record t : Type := {
  id : Id.t;
  code : string;
  manufacturerModelName : string;
  deviceSoftwareName : string;
  analysisSoftwareName : string;
  codSoftwareName : string;
  additionalAnalysisInformation : string
}.
End Device.

Inductive LJP_ReportedVoltage_Type : Type := Vcell | Vclamp.

Module LiquidJunctionPotential.
Record t : Type := {
  value : float;
  unit : string;
  reportedVoltage : LJP_ReportedVoltage_Type
}.
End LiquidJunctionPotential.

Module Liquid.
Record t : Type := {
  id : Id.t; name : string; batch : string; description : string
}.
End Liquid.

(** [head], [increment], [origin] and [scale] are dictionaries with a
    value and a unit. *)
Module Waveform.
Record t : Type := {
  head : Q * string;
  increment : Q * string;
  origin : Q * string;
  scale : Q * string;
  digits : list Q;
  cipaType : string;
  sequenceType : string;
  displayName : string;
  tracenum : Z;
  signalnam : string;
  edfilename : string;
  numrows : Z;
  itemcol : Z;
  headersize : Z
}.
End Waveform.

Inductive Protocol_Type : Type :=
| CIPA_PROTOCOL_VOLTAGE
| CIPA_PROTOCOL_CURRENT
| CIPA_PROTOCOL_LIQUID
| CIPA_PROTOCOL_TEMPERATURE
| CIPA_PROTOCOL_UNKNOWN.

Inductive Concentration_Type : Type :=
| CIPA_PROTOCOL_LIQUID_CONCENTRATION_NOMINAL
| CIPA_PROTOCOL_LIQUID_CONCENTRATION_CALCULATED
| CIPA_PROTOCOL_LIQUID_CONCENTRATION_MEASURED
| CIPA_PROTOCOL_LIQUID_CONCENTRATION_SATELLITE
| CIPA_PROTOCOL_LIQUID_CONCENTRATION_UNKNOWN.

(** [conc_type.name] *)
Definition Concentration_Type_name (c : Concentration_Type) : string :=
  match c with
  | CIPA_PROTOCOL_LIQUID_CONCENTRATION_NOMINAL =>
      "CIPA_PROTOCOL_LIQUID_CONCENTRATION_NOMINAL"
  | CIPA_PROTOCOL_LIQUID_CONCENTRATION_CALCULATED =>
      "CIPA_PROTOCOL_LIQUID_CONCENTRATION_CALCULATED"
  | CIPA_PROTOCOL_LIQUID_CONCENTRATION_MEASURED =>
      "CIPA_PROTOCOL_LIQUID_CONCENTRATION_MEASURED"
  | CIPA_PROTOCOL_LIQUID_CONCENTRATION_SATELLITE =>
      "CIPA_PROTOCOL_LIQUID_CONCENTRATION_SATELLITE"
  | CIPA_PROTOCOL_LIQUID_CONCENTRATION_UNKNOWN =>
      "CIPA_PROTOCOL_LIQUID_CONCENTRATION_UNKNOWN"
  end.

Module VoltageProtocol.
Record t : Type := {
  id : Id.t;
  waveform : Waveform.t;
  name : string;
  duration : Q;
  duration_u : string
}.
End VoltageProtocol.

Module LiquidProtocol.
Record t : Type := {
  id : Id.t;
  liquid : Liquid.t;
  name : string;
  duration : Q;
  duration_u : string;
  conc : float;
  conc_u : string;
  conc_type : Concentration_Type;
  isControl : bool;
  isSelectiveBlocker : bool
}.
End LiquidProtocol.

(** The two protocol classes the package defines, each with the
    [Protocol_Type] its constructor sets. *)
Inductive Protocol : Type :=
| Voltage (p : VoltageProtocol.t)
| Liquid_ (p : LiquidProtocol.t).

Definition Protocol_type (p : Protocol) : Protocol_Type :=
  match p with
  | Voltage _ => CIPA_PROTOCOL_VOLTAGE
  | Liquid_ _ => CIPA_PROTOCOL_LIQUID
  end.

Module ProtocolExecution.
Record t : Type := { protocol : Protocol; time : Q; time_u : string }.
End ProtocolExecution.

Inductive Cursor_Type : Type := AVERAGE | MAXIMUM | MINIMUM | CUSTOM.

Definition Cursor_Type_name (c : Cursor_Type) : string :=
  match c with
  | AVERAGE => "AVERAGE"
  | MAXIMUM => "MAXIMUM"
  | MINIMUM => "MINIMUM"
  | CUSTOM => "CUSTOM"
  end.

Module CursorResult.
Record t : Type := { value : float; unit : string }.
End CursorResult.

Module Cursor.
Record t : Type := {
  name : string;
  start : float;
  end_ : float;
  time_u : string;
  type : option Cursor_Type;
  result : option CursorResult.t
}.
End Cursor.

Module Property.
Record t : Type := {
  code : string;
  displayName : string;
  value : string;
  unit : string;
  description : string
}.
End Property.

Inductive Patch_Type : Type :=
| CIPA_CELL_SINGLE | CIPA_CELL_POPULATION | CIPA_CELL_UNKNOWN.

Module Cell.
Record t : Type := { id : option Id.t; properties : list Property.t }.
End Cell.

Inductive LeakMethod_Type : Type :=
| CIPA_LEAK_METHOD_NONE
| CIPA_LEAK_METHOD_SMALL_PULSE
| CIPA_LEAK_METHOD_FAST_LEAK
| CIPA_LEAK_METHOD_SWEEP
| CIPA_LEAK_METHOD_ZERO_CURSOR
| CIPA_LEAK_METHOD_UNKNOWN.

Definition LeakMethod_Type_name (m : LeakMethod_Type) : string :=
  match m with
  | CIPA_LEAK_METHOD_NONE => "CIPA_LEAK_METHOD_NONE"
  | CIPA_LEAK_METHOD_SMALL_PULSE => "CIPA_LEAK_METHOD_SMALL_PULSE"
  | CIPA_LEAK_METHOD_FAST_LEAK => "CIPA_LEAK_METHOD_FAST_LEAK"
  | CIPA_LEAK_METHOD_SWEEP => "CIPA_LEAK_METHOD_SWEEP"
  | CIPA_LEAK_METHOD_ZERO_CURSOR => "CIPA_LEAK_METHOD_ZERO_CURSOR"
  | CIPA_LEAK_METHOD_UNKNOWN => "CIPA_LEAK_METHOD_UNKNOWN"
  end.

Inductive Result_Type : Type :=
| CIPA_RESULT_TYPE_VOLTAGE
| CIPA_RESULT_TYPE_CURRENT
| CIPA_RESULT_TYPE_TEMPERATURE
| CIPA_RESULT_TYPE_SERIES_RESISTANCE
| CIPA_RESULT_TYPE_SERIES_RESISTANCE_COMPENSATION
| CIPA_RESULT_TYPE_SEAL_RESISTANCE
| CIPA_RESULT_TYPE_MEMBRANE_CAPACITANCE
| CIPA_RESULT_TYPE_INPUT_RESISTANCE
| CIPA_RESULT_TYPE_UNKNOWN.

Definition Result_Type_name (r : Result_Type) : string :=
  match r with
  | CIPA_RESULT_TYPE_VOLTAGE => "CIPA_RESULT_TYPE_VOLTAGE"
  | CIPA_RESULT_TYPE_CURRENT => "CIPA_RESULT_TYPE_CURRENT"
  | CIPA_RESULT_TYPE_TEMPERATURE => "CIPA_RESULT_TYPE_TEMPERATURE"
  | CIPA_RESULT_TYPE_SERIES_RESISTANCE => "CIPA_RESULT_TYPE_SERIES_RESISTANCE"
  | CIPA_RESULT_TYPE_SERIES_RESISTANCE_COMPENSATION =>
      "CIPA_RESULT_TYPE_SERIES_RESISTANCE_COMPENSATION"
  | CIPA_RESULT_TYPE_SEAL_RESISTANCE => "CIPA_RESULT_TYPE_SEAL_RESISTANCE"
  | CIPA_RESULT_TYPE_MEMBRANE_CAPACITANCE =>
      "CIPA_RESULT_TYPE_MEMBRANE_CAPACITANCE"
  | CIPA_RESULT_TYPE_INPUT_RESISTANCE => "CIPA_RESULT_TYPE_INPUT_RESISTANCE"
  | CIPA_RESULT_TYPE_UNKNOWN => "CIPA_RESULT_TYPE_UNKNOWN"
  end.

Definition is_current (r : Result_Type) : bool :=
  match r with CIPA_RESULT_TYPE_CURRENT => true | _ => false end.

Module Result.
Record t : Type := {
  traceNumber : Z;
  valid : bool;
  type : Result_Type;
  elapsedTime : Q;
  elapsedTime_u : string;
  waveform : option Waveform.t;
  cursors : option (list Cursor.t)
}.
End Result.

(** The cursors evaluated on a result, none when the attribute is
    [None]; the file name of its waveform, empty without a waveform. *)
Definition evaluated_cursors (res : Result.t) : list Cursor.t :=
  match Result.cursors res with
  | Some cs => cs
  | None => []
  end.

Definition waveform_file (res : Result.t) : string :=
  match Result.waveform res with
  | Some w => Waveform.edfilename w
  | None => ""
  end.

Module Results.
Record t : Type := {
  cell : Cell.t;
  patchType : Patch_Type;
  plateId : string;
  wellId : string;
  leakMethod : LeakMethod_Type;
  ljp : option LiquidJunctionPotential.t;
  cursors : option (list Cursor.t);
  results : list Result.t
}.
End Results.

Module Experiment.
Record t : Type := {
  id : Id.t;
  name : string;
  device : option Id.t;
  startTime : string;
  protocols : list ProtocolExecution.t;
  resultsSet : list Results.t
}.
End Experiment.

Module Trial.
Record t : Type := {
  version : string;
  description : string;
  study : option Study.t;
  devices : list Device.t;
  ljp : option LiquidJunctionPotential.t;
  liquids : list Liquid.t;
  protocols : list Protocol;
  experiments : list Experiment.t
}.
End Trial.

(* ================================================================== *)
(** * The rows of the TED tables *)
(* ================================================================== *)

(** The cell under a label in the attributes of a row object. *)
Fixpoint lookup (k : string) (d : list (string * value)) : value :=
  match d with
  | [] => VFloat NaN
  | (k', v) :: d' => if String.eqb k k' then v else lookup k d'
  end.

(** [d[k] = v] on a dictionary kept in insertion order. *)
Fixpoint dict_set {V} (k : string) (v : V) (d : list (string * V))
  : list (string * V) :=
  match d with
  | [] => [(k, v)]
  | (k', v') :: d' =>
      if String.eqb k k' then (k, v) :: d' else (k', v') :: dict_set k v d'
  end.

Module TED_GeneralInformation.
Record t : Type := {
  STUDYID : string;
  REPORT_TITLE : string;
  REPORT_VERSION : string;
  REPORT_DATE : string;
  REPORT_DESCRIPTION : string;
  DEVICE_ID : string;
  DEVICE_CODE : string;
  DEVICE_MODEL : string;
  DEVICE_SOFTWARE : string
}.

(** [pd.DataFrame(data=[gi.__dict__]).transpose()]: one row per
    attribute, the label and the value. *)
Definition transpose (g : t) : list (string * string) :=
  [("STUDYID", STUDYID g); ("REPORT_TITLE", REPORT_TITLE g);
   ("REPORT_VERSION", REPORT_VERSION g); ("REPORT_DATE", REPORT_DATE g);
   ("REPORT_DESCRIPTION", REPORT_DESCRIPTION g);
   ("DEVICE_ID", DEVICE_ID g); ("DEVICE_CODE", DEVICE_CODE g);
   ("DEVICE_MODEL", DEVICE_MODEL g); ("DEVICE_SOFTWARE", DEVICE_SOFTWARE g)].
End TED_GeneralInformation.

Module TED_CellProperty.
Record t : Type := {
  EXPID : string; CELLID : string; PARAMCD : string;
  PARAM : string; VALUE : string; UNIT : string
}.

Definition fields (r : t) : list (string * value) :=
  [("EXPID", VStr (EXPID r)); ("CELLID", VStr (CELLID r));
   ("PARAMCD", VStr (PARAMCD r)); ("PARAM", VStr (PARAM r));
   ("VALUE", VStr (VALUE r)); ("UNIT", VStr (UNIT r))].

(** [TED_CellProperty().__dict__.keys()] *)
Definition labels : list string :=
  ["EXPID"; "CELLID"; "PARAMCD"; "PARAM"; "VALUE"; "UNIT"].
End TED_CellProperty.

#[export] Instance Row_CellProperty : Row TED_CellProperty.t := {
  keys r := map fst (TED_CellProperty.fields r);
  get r k := lookup k (TED_CellProperty.fields r)
}.

Module TED_LiquidAddition.
Record t : Type := {
  EXPID : string; CELLID : string; STIME : string;
  LJP : float; LJPU : string;
  LIQUID : string; CONC : float; CONCU : string; CONCT : string;
  FIRST : Z; LAST : Z;
  CTLFL : string; SBFL : string;
  ANL : string; SRCXFN : string; NOTES : string
}.

(** [TED_LiquidAddition()] *)
Definition init : t :=
  {| EXPID := ""; CELLID := ""; STIME := ""; LJP := NaN; LJPU := "";
     LIQUID := ""; CONC := NaN; CONCU := ""; CONCT := "";
     FIRST := 0; LAST := 0; CTLFL := ""; SBFL := "";
     ANL := ""; SRCXFN := ""; NOTES := "" |}.

Definition fields (r : t) : list (string * value) :=
  [("EXPID", VStr (EXPID r)); ("CELLID", VStr (CELLID r));
   ("STIME", VStr (STIME r)); ("LJP", VFloat (LJP r));
   ("LJPU", VStr (LJPU r)); ("LIQUID", VStr (LIQUID r));
   ("CONC", VFloat (CONC r)); ("CONCU", VStr (CONCU r));
   ("CONCT", VStr (CONCT r)); ("FIRST", VInt (FIRST r));
   ("LAST", VInt (LAST r)); ("CTLFL", VStr (CTLFL r));
   ("SBFL", VStr (SBFL r)); ("ANL", VStr (ANL r));
   ("SRCXFN", VStr (SRCXFN r)); ("NOTES", VStr (NOTES r))].

Definition with_header (expid cellid stime : string) (ljp : float)
  (ljpu : string) (r : t) : t :=
  {| EXPID := expid; CELLID := cellid; STIME := stime;
     LJP := ljp; LJPU := ljpu;
     LIQUID := LIQUID r; CONC := CONC r; CONCU := CONCU r;
     CONCT := CONCT r; FIRST := FIRST r; LAST := LAST r;
     CTLFL := CTLFL r; SBFL := SBFL r;
     ANL := ANL r; SRCXFN := SRCXFN r; NOTES := NOTES r |}.

Definition with_liquid (liquid : string) (conc : float)
  (concu conct ctlfl sbfl : string) (first : Z) (r : t) : t :=
  {| EXPID := EXPID r; CELLID := CELLID r; STIME := STIME r;
     LJP := LJP r; LJPU := LJPU r;
     LIQUID := liquid; CONC := conc; CONCU := concu; CONCT := conct;
     FIRST := first; LAST := LAST r;
     CTLFL := ctlfl; SBFL := sbfl;
     ANL := ANL r; SRCXFN := SRCXFN r; NOTES := NOTES r |}.

Definition with_LAST (last : Z) (r : t) : t :=
  {| EXPID := EXPID r; CELLID := CELLID r; STIME := STIME r;
     LJP := LJP r; LJPU := LJPU r;
     LIQUID := LIQUID r; CONC := CONC r; CONCU := CONCU r;
     CONCT := CONCT r; FIRST := FIRST r; LAST := last;
     CTLFL := CTLFL r; SBFL := SBFL r;
     ANL := ANL r; SRCXFN := SRCXFN r; NOTES := NOTES r |}.

Definition with_ANL_SRCXFN (anl srcxfn : string) (r : t) : t :=
  {| EXPID := EXPID r; CELLID := CELLID r; STIME := STIME r;
     LJP := LJP r; LJPU := LJPU r;
     LIQUID := LIQUID r; CONC := CONC r; CONCU := CONCU r;
     CONCT := CONCT r; FIRST := FIRST r; LAST := LAST r;
     CTLFL := CTLFL r; SBFL := SBFL r;
     ANL := anl; SRCXFN := srcxfn; NOTES := NOTES r |}.

Definition with_SRCXFN (srcxfn : string) (r : t) : t :=
  with_ANL_SRCXFN (ANL r) srcxfn r.
End TED_LiquidAddition.

#[export] Instance Row_LiquidAddition : Row TED_LiquidAddition.t := {
  keys r := map fst (TED_LiquidAddition.fields r);
  get r k := lookup k (TED_LiquidAddition.fields r)
}.

Module TED_CursorDefinition.
Record t : Type := {
  CURSOR : string;
  STIME : float; STIMEU : string;
  ETIME : float; ETIMEU : string;
  CURSORT : string
}.

Definition fields (r : t) : list (string * value) :=
  [("CURSOR", VStr (CURSOR r)); ("STIME", VFloat (STIME r));
   ("STIMEU", VStr (STIMEU r)); ("ETIME", VFloat (ETIME r));
   ("ETIMEU", VStr (ETIMEU r)); ("CURSORT", VStr (CURSORT r))].
End TED_CursorDefinition.

#[export] Instance Row_CursorDefinition : Row TED_CursorDefinition.t := {
  keys r := map fst (TED_CursorDefinition.fields r);
  get r k := lookup k (TED_CursorDefinition.fields r)
}.

(** A row of the wide results: the thirteen attributes of the class, then
    the attributes injected afterwards: one per evaluated cursor
    ([rww[rc.name] = rc.result.value]) and, once the row falls in the
    range of a liquid addition, [CTLFL] and [SBFL].  The record keeps
    the values of the cursors apart from the attributes: it is the
    dictionary of the source when no cursor is named like one of the
    thirteen attributes or like [CTLFL] or [SBFL], so that injecting a
    cursor replaces no other cell.  The statements that read the cells of
    such a row have this as their hypothesis [cursor_names_apart]. *)
Module TED_ResultWide.
Record t : Type := {
  EXPID : string; CELLID : string; RESTYPE : string; LEAKMTH : string;
  ELTIME : Q; ELTIMEU : string; TRACENUM : Z;
  ANLFL : string; SRCXFN : string;
  LIQUID : string; CONC : float; CONCU : string; CONCT : string;
  cursor_values : list (string * float);
  liquid_flags : option (string * string)
}.

Definition fields (r : t) : list (string * value) :=
  [("EXPID", VStr (EXPID r)); ("CELLID", VStr (CELLID r));
   ("RESTYPE", VStr (RESTYPE r)); ("LEAKMTH", VStr (LEAKMTH r));
   ("ELTIME", VFloat (Fin (ELTIME r))); ("ELTIMEU", VStr (ELTIMEU r));
   ("TRACENUM", VInt (TRACENUM r)); ("ANLFL", VStr (ANLFL r));
   ("SRCXFN", VStr (SRCXFN r)); ("LIQUID", VStr (LIQUID r));
   ("CONC", VFloat (CONC r)); ("CONCU", VStr (CONCU r));
   ("CONCT", VStr (CONCT r))]
  ++ map (fun kv => (fst kv, VFloat (snd kv))) (cursor_values r)
  ++ match liquid_flags r with
     | None => []
     | Some (ctlfl, sbfl) => [("CTLFL", VStr ctlfl); ("SBFL", VStr sbfl)]
     end.

(** [er["LIQUID"] = ...; ...; er["SBFL"] = ...] *)
Definition with_liquid (liquid : string) (conc : float)
  (concu conct ctlfl sbfl : string) (r : t) : t :=
  {| EXPID := EXPID r; CELLID := CELLID r; RESTYPE := RESTYPE r;
     LEAKMTH := LEAKMTH r; ELTIME := ELTIME r; ELTIMEU := ELTIMEU r;
     TRACENUM := TRACENUM r; ANLFL := ANLFL r; SRCXFN := SRCXFN r;
     LIQUID := liquid; CONC := conc; CONCU := concu; CONCT := conct;
     cursor_values := cursor_values r;
     liquid_flags := Some (ctlfl, sbfl) |}.
End TED_ResultWide.

#[export] Instance Row_ResultWide : Row TED_ResultWide.t := {
  keys r := map fst (TED_ResultWide.fields r);
  get r k := lookup k (TED_ResultWide.fields r)
}.

(* ================================================================== *)
(** * tedutils.cells_cursors_liquids_results_dataframes *)
(* ================================================================== *)

Import Pandas.

(** The dictionaries collected in [exec_ps]: one per executed liquid
    protocol. *)
Module LiquidExecution.
Record t : Type := {
  LIQUID : string; CONC : float; CONCU : string; CONCT : string;
  TIME : Q; TIMEU : string; CTLFL : string; SBFL : string
}.

Definition fields (r : t) : list (string * value) :=
  [("LIQUID", VStr (LIQUID r)); ("CONC", VFloat (CONC r));
   ("CONCU", VStr (CONCU r)); ("CONCT", VStr (CONCT r));
   ("TIME", VFloat (Fin (TIME r))); ("TIMEU", VStr (TIMEU r));
   ("CTLFL", VStr (CTLFL r)); ("SBFL", VStr (SBFL r))].
End LiquidExecution.

#[export] Instance Row_LiquidExecution : Row LiquidExecution.t := {
  keys r := map fst (LiquidExecution.fields r);
  get r k := lookup k (LiquidExecution.fields r)
}.

(** [root] alone, or [root_extension] when there is an extension. *)
Definition composite_id (i : Id.t) : string :=
  if String.eqb (Id.extension i) "" then Id.root i
  else join "_" [Id.root i; Id.extension i].

(** The identifier of the cell of a results set as the tables show it,
    empty for a cell without identifier (no table is made from one). *)
Definition cell_label (rs : Results.t) : string :=
  match Cell.id (Results.cell rs) with
  | Some i => composite_id i
  | None => ""
  end.

Definition flag (b : bool) : string := if b then "Y" else "".

(** [cdef] for a cursor of the results set; [c.type.name] needs a type. *)
Definition cursor_definition (c : Cursor.t) : outcome TED_CursorDefinition.t :=
  match Cursor.type c with
  | None => Raise (AttributeError "name")
  | Some ty =>
      Ok {| TED_CursorDefinition.CURSOR := Cursor.name c;
            TED_CursorDefinition.STIME := Cursor.start c;
            TED_CursorDefinition.STIMEU := Cursor.time_u c;
            TED_CursorDefinition.ETIME := Cursor.end_ c;
            TED_CursorDefinition.ETIMEU := Cursor.time_u c;
            TED_CursorDefinition.CURSORT := Cursor_Type_name ty |}
  end.

Fixpoint map_outcome {A B} (f : A -> outcome B) (l : list A)
  : outcome (list B) :=
  match l with
  | [] => Ok []
  | x :: l' => y <- f x ;; ys <- map_outcome f l' ;; Ok (y :: ys)
  end.

(** The liquid additions among the executed protocols, in the order of
    [exp.protocols]. *)
Definition liquid_execution (p : ProtocolExecution.t)
  : option LiquidExecution.t :=
  match ProtocolExecution.protocol p with
  | Liquid_ lp =>
      Some {| LiquidExecution.LIQUID := Liquid.name (LiquidProtocol.liquid lp);
              LiquidExecution.CONC := LiquidProtocol.conc lp;
              LiquidExecution.CONCU := LiquidProtocol.conc_u lp;
              LiquidExecution.CONCT :=
                List.last
                  (split "_" (Concentration_Type_name
                                (LiquidProtocol.conc_type lp))) "";
              LiquidExecution.TIME := ProtocolExecution.time p;
              LiquidExecution.TIMEU := ProtocolExecution.time_u p;
              LiquidExecution.CTLFL := flag (LiquidProtocol.isControl lp);
              LiquidExecution.SBFL :=
                flag (LiquidProtocol.isSelectiveBlocker lp) |}
  | Voltage _ => None
  end.

Fixpoint exec_ps (ps : list ProtocolExecution.t) : list LiquidExecution.t :=
  match ps with
  | [] => []
  | p :: ps' =>
      match liquid_execution p with
      | Some e => e :: exec_ps ps'
      | None => exec_ps ps'
      end
  end.

(** The values of the cursors evaluated on a trace, under their names;
    [rc.result.value] needs a result. *)
Definition inject_cursor (d : list (string * float)) (rc : Cursor.t)
  : outcome (list (string * float)) :=
  match Cursor.result rc with
  | None => Raise (AttributeError "value")
  | Some cr => Ok (dict_set (Cursor.name rc) (CursorResult.value cr) d)
  end.

(** [rww] for a result of type current; [res.waveform.edfilename] needs a
    waveform and [for rc in res.cursors] a list. *)
Definition result_wide (expid cellid : string) (rs : Results.t)
  (res : Result.t) : outcome TED_ResultWide.t :=
  wf <- match Result.waveform res with
        | Some w => Ok w
        | None => Raise (AttributeError "edfilename")
        end ;;
  cs <- match Result.cursors res with
        | Some cs => Ok cs
        | None => Raise TypeError
        end ;;
  cvs <- for_each inject_cursor cs [] ;;
  Ok {| TED_ResultWide.EXPID := expid;
        TED_ResultWide.CELLID := cellid;
        TED_ResultWide.RESTYPE := Result_Type_name (Result.type res);
        TED_ResultWide.LEAKMTH := LeakMethod_Type_name (Results.leakMethod rs);
        TED_ResultWide.ELTIME := Result.elapsedTime res;
        TED_ResultWide.ELTIMEU := Result.elapsedTime_u res;
        TED_ResultWide.TRACENUM := Result.traceNumber res;
        TED_ResultWide.ANLFL := flag (Result.valid res);
        TED_ResultWide.SRCXFN := Waveform.edfilename wf;
        TED_ResultWide.LIQUID := "";
        TED_ResultWide.CONC := NaN;
        TED_ResultWide.CONCU := "";
        TED_ResultWide.CONCT := "";
        TED_ResultWide.cursor_values := cvs;
        TED_ResultWide.liquid_flags := None |}.

Definition current_results (rs : Results.t) : list Result.t :=
  filter (fun res => is_current (Result.type res)) (Results.results rs).

Definition cell_property (expid cellid : string) (p : Property.t)
  : TED_CellProperty.t :=
  {| TED_CellProperty.EXPID := expid;
     TED_CellProperty.CELLID := cellid;
     TED_CellProperty.PARAMCD := Property.code p;
     TED_CellProperty.PARAM := Property.displayName p;
     TED_CellProperty.VALUE := Property.value p;
     TED_CellProperty.UNIT := Property.unit p |}.

(** [xs[-1] = f(xs[-1])] on a list that has a last element. *)
Fixpoint set_last {A} (f : A -> A) (l : list A) : list A :=
  match l with
  | [] => []
  | [x] => [f x]
  | x :: l' => x :: set_last f l'
  end.

(** One turn of [for exp_la in exp_las.itertuples()].  The state is the
    object [la], which every turn updates, and the list [exp_liq_adds] of
    the copies taken of it. *)
Definition liquid_addition_step (tmp : DataFrame TED_ResultWide.t)
  (st : TED_LiquidAddition.t * list TED_LiquidAddition.t)
  (exp_la : LiquidExecution.t)
  : outcome (TED_LiquidAddition.t * list TED_LiquidAddition.t) :=
  let '(la, exp_liq_adds) := st in
  let tmp_c :=
    where_ (fun r => Qgeb (TED_ResultWide.ELTIME r) (LiquidExecution.TIME exp_la))
           tmp in
  r0 <- iloc_first tmp_c ;;
  let la :=
    TED_LiquidAddition.with_liquid
      (LiquidExecution.LIQUID exp_la) (LiquidExecution.CONC exp_la)
      (LiquidExecution.CONCU exp_la) (LiquidExecution.CONCT exp_la)
      (LiquidExecution.CTLFL exp_la) (LiquidExecution.SBFL exp_la)
      (TED_ResultWide.TRACENUM r0) la in
  exp_liq_adds <-
    (if (0 <? length exp_liq_adds)%nat
     then
       let tmp_c :=
         where_ (fun r => Qltb (TED_ResultWide.ELTIME r)
                               (LiquidExecution.TIME exp_la)) tmp in
       r1 <- iloc_last tmp_c ;;
       Ok (set_last (TED_LiquidAddition.with_LAST (TED_ResultWide.TRACENUM r1))
                    exp_liq_adds)
     else Ok exp_liq_adds) ;;
  Ok (la, exp_liq_adds ++ [la]).

Definition in_range (x : TED_LiquidAddition.t) (n : Z) : bool :=
  ((TED_LiquidAddition.FIRST x <=? n) && (n <=? TED_LiquidAddition.LAST x))%bool.

(** [ANL] and [SRCXFN] of a liquid addition. *)
Definition populate (tmp : DataFrame TED_ResultWide.t)
  (x : TED_LiquidAddition.t) : TED_LiquidAddition.t :=
  let validtraces :=
    map str
      (keep_first Z.eqb []
         (map TED_ResultWide.TRACENUM
            (rows (where_
               (fun r => (String.eqb (TED_ResultWide.ANLFL r) "Y"
                          && in_range x (TED_ResultWide.TRACENUM r))%bool)
               tmp)))) in
  let singalfiles :=
    keep_first String.eqb []
      (map TED_ResultWide.SRCXFN
         (rows (where_ (fun r => in_range x (TED_ResultWide.TRACENUM r)) tmp))) in
  TED_LiquidAddition.with_ANL_SRCXFN
    (join ";" validtraces) (join ";" singalfiles) x.

(** The liquid of an addition, written into the wide rows of its range. *)
Definition add_liquid_information (x : TED_LiquidAddition.t)
  (er : TED_ResultWide.t) : TED_ResultWide.t :=
  if (String.eqb (TED_ResultWide.EXPID er) (TED_LiquidAddition.EXPID x)
      && String.eqb (TED_ResultWide.CELLID er) (TED_LiquidAddition.CELLID x)
      && in_range x (TED_ResultWide.TRACENUM er))%bool
  then TED_ResultWide.with_liquid
         (TED_LiquidAddition.LIQUID x) (TED_LiquidAddition.CONC x)
         (TED_LiquidAddition.CONCU x) (TED_LiquidAddition.CONCT x)
         (TED_LiquidAddition.CTLFL x) (TED_LiquidAddition.SBFL x) er
  else er.

(** What one turn of [for exp in trial.experiments] adds to the four
    lists [cell_props], [cursors_defs], [liquid_adds] and [res_wide]. *)
Record Tables : Type := {
  cell_props : list TED_CellProperty.t;
  cursors_defs : list TED_CursorDefinition.t;
  liquid_adds : list TED_LiquidAddition.t;
  res_wide : list TED_ResultWide.t
}.

Definition no_tables : Tables :=
  {| cell_props := []; cursors_defs := []; liquid_adds := []; res_wide := [] |}.

Definition add_tables (a b : Tables) : Tables :=
  {| cell_props := cell_props a ++ cell_props b;
     cursors_defs := cursors_defs a ++ cursors_defs b;
     liquid_adds := liquid_adds a ++ liquid_adds b;
     res_wide := res_wide a ++ res_wide b |}.

(** [rs.cell.id.root], or [root_extension]: the identifier of the cell of a
    results set.  A cell built without an identifier has [None] there, and
    reading [extension] of it raises. *)
Definition cell_id (rs : Results.t) : outcome string :=
  match Cell.id (Results.cell rs) with
  | Some i => Ok (composite_id i)
  | None => Raise (AttributeError "extension")
  end.

(** The liquid junction potential of the results set, else of the trial. *)
Definition ljp_of (trial : Trial.t) (rs : Results.t)
  : outcome LiquidJunctionPotential.t :=
  match Results.ljp rs with
  | Some l => Ok l
  | None =>
      match Trial.ljp trial with
      | Some l => Ok l
      | None => Raise (AttributeError "value")
      end
  end.

(** The liquid additions of the experiment in time order, without
    duplicates: [exp_las]. *)
Definition exp_las_of (exp : Experiment.t)
  : outcome (DataFrame LiquidExecution.t) :=
  sorted <- sort_values ["TIME"] (from_records (exec_ps (Experiment.protocols exp))) ;;
  Ok (drop_duplicates sorted).

(** The body of [for exp in trial.experiments]. *)
Definition experiment_tables (trial : Trial.t) (exp : Experiment.t)
  : outcome Tables :=
  let expid := composite_id (Experiment.id exp) in
  rs <- first (Experiment.resultsSet exp) ;;
  cdefs <- match Results.cursors rs with
           | Some cs => map_outcome cursor_definition cs
           | None => Ok []
           end ;;
  cellid <- cell_id rs ;;
  ljp <- ljp_of trial rs ;;
  let la :=
    TED_LiquidAddition.with_header expid cellid (Experiment.startTime exp)
      (LiquidJunctionPotential.value ljp) (LiquidJunctionPotential.unit ljp)
      TED_LiquidAddition.init in
  exp_las <- exp_las_of exp ;;
  exp_res_wide <- map_outcome (result_wide expid cellid rs) (current_results rs) ;;
  let cps := map (cell_property expid cellid) (Cell.properties (Results.cell rs)) in
  tmp <- sort_values ["EXPID"; "CELLID"; "ELTIME"; "TRACENUM"]
           (from_records exp_res_wide) ;;
  st <- for_each (liquid_addition_step tmp) (rows exp_las) (la, []) ;;
  let exp_liq_adds := snd st in
  rl <- iloc_last tmp ;;
  exp_liq_adds <-
    match exp_liq_adds with
    | [] => Raise IndexError
    | _ => Ok (set_last
                 (TED_LiquidAddition.with_LAST (TED_ResultWide.TRACENUM rl))
                 exp_liq_adds)
    end ;;
  let exp_liq_adds := map (populate tmp) exp_liq_adds in
  let exp_res_wide :=
    fold_left (fun ers x => map (add_liquid_information x) ers)
              exp_liq_adds exp_res_wide in
  Ok {| cell_props := cps; cursors_defs := cdefs;
        liquid_adds := exp_liq_adds; res_wide := exp_res_wide |}.

Record Dataframes : Type := {
  CellProperties : DataFrame TED_CellProperty.t;
  CursorsDefinitions : DataFrame TED_CursorDefinition.t;
  LiquidAdditions : DataFrame TED_LiquidAddition.t;
  ResultsWide : DataFrame TED_ResultWide.t
}.

Definition cells_cursors_liquids_results_dataframes (trial : Trial.t)
  : outcome Dataframes :=
  acc <- for_each
           (fun acc exp => t <- experiment_tables trial exp ;; Ok (add_tables acc t))
           (Trial.experiments trial) no_tables ;;
  let cell_props_df :=
    match cell_props acc with
    | [] => empty_frame TED_CellProperty.labels
    | _ => from_records (cell_props acc)
    end in
  let cursors_defs_df := drop_duplicates (from_records (cursors_defs acc)) in
  la_df <- sort_values ["STIME"; "EXPID"; "CELLID"; "FIRST"; "LAST"]
             (from_records (liquid_adds acc)) ;;
  rw_df <- drop "SRCXFN" (from_records (res_wide acc)) ;;
  rw_df <- sort_values ["EXPID"; "CELLID"; "ELTIME"; "TRACENUM"]
             (drop_duplicates rw_df) ;;
  Ok {| CellProperties := cell_props_df;
        CursorsDefinitions := cursors_defs_df;
        LiquidAdditions := la_df;
        ResultsWide := rw_df |}.

(* ================================================================== *)
(** * waveforms.Waveform and edfiles: the waveform store *)
(* ================================================================== *)

(** A table of samples: its columns, each a label and the values under
    it.  Columns set side by side by [pd.concat(axis=1)] keep their own
    lengths; the cells below a shorter column are missing. *)
Definition WaveformTable : Type := list (string * list Q).

(** [os.path.splitext(path)[1]] *)
Fixpoint skip_dots (s : string) : string :=
  match s with
  | String "." s' => skip_dots s'
  | _ => s
  end.

Definition splitext_extension (path : string) : string :=
  let base := List.last (split "/" path) "" in
  match rev (split "." (skip_dots base)) with
  | e :: _ :: _ => String "." e
  | _ => ""
  end.

Section WaveformStore.

(** The column [itemcol] of the delimited-text file [edfilename], read
    with [headersize] header rows, if the file can be read: what
    [pd.read_csv] returns depends on the file system, which is not
    modelled. *)
Variable read_csv_column : string -> Z -> Z -> option (list Q).

(** [Waveform.digits_from_file]: the samples of a waveform that has none
    in memory. *)
Definition digits_from_file (w : Waveform.t) : outcome (list Q) :=
  if String.eqb (lower (splitext_extension (Waveform.edfilename w))) ".csv"
  then
    if 0 <? Waveform.headersize w
    then
      match read_csv_column (Waveform.edfilename w) (Waveform.headersize w)
              (Waveform.itemcol w) with
      | None => Raise (FileNotFoundError (Waveform.edfilename w))
      | Some col =>
          if 0 <? Waveform.numrows w
          then Ok (firstn (Z.to_nat (Waveform.numrows w)) col)
          else Ok col
      end
    else Raise (AttributeError "iloc")
  else Ok (Waveform.digits w).

(** [np.linspace(0.0, (n - 1) * step, n)] *)
Definition linspace (step : Q) (n : nat) : list Q :=
  map (fun i => (inject_Z (Z.of_nat i) * step)%Q) (seq 0 n).

(** [Waveform.timeseries_to_df] *)
Definition timeseries_to_df (w : Waveform.t) (includetime : bool)
  : outcome WaveformTable :=
  let scale := fst (Waveform.scale w) in
  let origin := fst (Waveform.origin w) in
  let signam :=
    if String.eqb (Waveform.signalnam w) ""
    then lower (List.last (split "_" (Waveform.cipaType w)) "")
    else Waveform.signalnam w in
  let signal_colname :=
    ("trace_#" ++ str (Waveform.tracenum w) ++ "_" ++ signam ++ "_"
       ++ snd (Waveform.scale w))%string in
  digits <- match Waveform.digits w with
            | [] => digits_from_file w
            | ds => Ok ds
            end ;;
  let physical := map (fun d => (d * scale + origin)%Q) digits in
  if includetime
  then
    let time_colname := ("t_" ++ snd (Waveform.increment w))%string in
    if String.eqb time_colname signal_colname
    then Raise (ValueError time_colname)
    else Ok [(time_colname,
              linspace (fst (Waveform.increment w)) (length digits));
             (signal_colname, physical)]
  else Ok [(signal_colname, physical)].

(** [waveforms_to_df]: the first waveform gives the time column. *)
Definition waveforms_to_df (wf_list : list Waveform.t) : outcome WaveformTable :=
  match wf_list with
  | [] => Raise IndexError
  | w :: ws =>
      wf_df <- timeseries_to_df w true ;;
      others <- map_outcome (fun w' => timeseries_to_df w' false) ws ;;
      Ok (wf_df ++ concat others)
  end.

(** The rows of a table with two columns of the same length, without
    repetition. *)
Definition pair_eqb (a b : Q * Q) : bool :=
  (Qeq_bool (fst a) (fst b) && Qeq_bool (snd a) (snd b))%bool.

Definition drop_duplicate_rows (t : WaveformTable) : WaveformTable :=
  match t with
  | [(a, xs); (b, ys)] =>
      let rs := keep_first pair_eqb [] (combine xs ys) in
      [(a, map fst rs); (b, map snd rs)]
  | _ => t
  end.

(** [voltage_command_dataframe]: the samples of the first voltage
    protocol of the trial, an empty table without one. *)
Fixpoint first_voltage_protocol (ps : list Protocol) : option VoltageProtocol.t :=
  match ps with
  | [] => None
  | Voltage p :: _ => Some p
  | Liquid_ _ :: ps' => first_voltage_protocol ps'
  end.

Definition voltage_command_dataframe (trial : Trial.t) : outcome WaveformTable :=
  match first_voltage_protocol (Trial.protocols trial) with
  | None => Ok []
  | Some p =>
      ivp <- timeseries_to_df (VoltageProtocol.waveform p) true ;;
      Ok (drop_duplicate_rows ivp)
  end.

End WaveformStore.

(* ================================================================== *)
(** * tedutils.to_xlsx *)
(* ================================================================== *)

(** A TED dataset: the sheets of the index workbook and the waveform
    tables, one under each reference that [SRCXFN] gives: a file name,
    [archive:member] for a compressed file, [workbook:sheet] for a sheet.
    The exporter makes a dataset and the importer reads one; the cells
    are those that [read_excel] returns for the cells written, but in
    the two cases named at the importer. *)
Record TED_dataset : Type := {
  GeneralInformation : list (string * string);
  CellProperties_sheet : DataFrame TED_CellProperty.t;
  LiquidAdditions_sheet : DataFrame TED_LiquidAddition.t;
  CursorsDefinitions_sheet : DataFrame TED_CursorDefinition.t;
  IntendedVoltageProtocol : WaveformTable;
  ResultsWide_sheet : DataFrame TED_ResultWide.t;
  waveform_files : list (string * WaveformTable)
}.

Section Exporter.

Variable read_csv_column : string -> Z -> Z -> option (list Q).

(** [la_df.loc[(EXPID == expid) & (CELLID == sheetname), "SRCXFN"] = ref] *)
Definition set_SRCXFN (expid sheetname ref : string)
  (la_df : DataFrame TED_LiquidAddition.t) : DataFrame TED_LiquidAddition.t :=
  {| columns := columns la_df;
     rows := map (fun r =>
                    if (String.eqb (TED_LiquidAddition.EXPID r) expid
                        && String.eqb (TED_LiquidAddition.CELLID r) sheetname)%bool
                    then TED_LiquidAddition.with_SRCXFN ref r
                    else r) (rows la_df) |}.

(** [[r.waveform for r in rs.results]] as [waveforms_to_df] goes through
    it: the waveforms before the first result without one, and whether
    there is such a result. *)
Fixpoint waveforms_until_none (results : list Result.t)
  : list Waveform.t * bool :=
  match results with
  | [] => ([], false)
  | r :: results' =>
      match Result.waveform r with
      | None => ([], true)
      | Some w =>
          let '(ws, missing) := waveforms_until_none results' in
          (w :: ws, missing)
      end
  end.

(** [waveforms_to_df([r.waveform for r in rs.results])]: on a result
    without waveform the call of [timeseries_to_df] on [None] raises,
    after the waveforms before it have made their tables. *)
Definition results_to_df (results : list Result.t) : outcome WaveformTable :=
  let '(ws, missing) := waveforms_until_none results in
  if missing
  then
    match ws with
    | [] => Raise (AttributeError "timeseries_to_df")
    | _ => _ <- waveforms_to_df read_csv_column ws ;;
           Raise (AttributeError "timeseries_to_df")
    end
  else waveforms_to_df read_csv_column ws.

(** One turn of the loop over the experiments in any of the three
    formats; [reference] gives the [SRCXFN] of a sheet name.  The state is
    [la_df] and the waveform tables written so far, one under each
    reference: a file written again replaces the file of that name.  (For
    the sheets of the workbook of the format xlsx, what a second table
    under one sheet name leaves of the first depends on the version of
    pandas; nothing is stated about that table.) *)
Definition export_waveforms (reference : string -> string)
  (st : DataFrame TED_LiquidAddition.t * list (string * WaveformTable))
  (exp : Experiment.t)
  : outcome (DataFrame TED_LiquidAddition.t * list (string * WaveformTable)) :=
  let '(la_df, files) := st in
  let expid := composite_id (Experiment.id exp) in
  rs <- first (Experiment.resultsSet exp) ;;
  sheetname <- cell_id rs ;;
  let la_df := set_SRCXFN expid sheetname (reference sheetname) la_df in
  wf_df <- results_to_df (Results.results rs) ;;
  Ok (la_df, dict_set (reference sheetname) wf_df files).

Definition csv_reference (sheetname : string) : string :=
  join "." [sheetname; "csv"].

Definition zip_reference (sheetname : string) : string :=
  let csvfn := join "." [sheetname; "csv"; "zip"] in
  (csvfn ++ ":" ++ drop_suffix 4 csvfn)%string.

Definition xlsx_reference (sheetname : string) : string :=
  ("waveforms.xlsx" ++ ":" ++ sheetname)%string.

Definition general_information (trial : Trial.t)
  : outcome TED_GeneralInformation.t :=
  study <- match Trial.study trial with
           | Some s => Ok s
           | None => Raise (AttributeError "studyId")
           end ;;
  dev <- first (Trial.devices trial) ;;
  Ok {| TED_GeneralInformation.STUDYID := Study.studyId study;
        TED_GeneralInformation.REPORT_TITLE :=
          StudyReport.title (Study.report study);
        TED_GeneralInformation.REPORT_VERSION :=
          StudyReport.version (Study.report study);
        TED_GeneralInformation.REPORT_DATE :=
          StudyReport.date (Study.report study);
        TED_GeneralInformation.REPORT_DESCRIPTION :=
          StudyReport.text (Study.report study);
        TED_GeneralInformation.DEVICE_ID :=
          (Id.root (Device.id dev) ++ Id.extension (Device.id dev))%string;
        TED_GeneralInformation.DEVICE_CODE := Device.code dev;
        TED_GeneralInformation.DEVICE_MODEL := Device.manufacturerModelName dev;
        TED_GeneralInformation.DEVICE_SOFTWARE := Device.deviceSoftwareName dev |}.

(** The waveform files in the requested format: the choice on [edformat]
    comes after the tables are built. *)
Definition encapsulated_data (trial : Trial.t) (edformat : string)
  (la_df : DataFrame TED_LiquidAddition.t)
  : outcome (DataFrame TED_LiquidAddition.t * list (string * WaveformTable)) :=
  if String.eqb edformat "csv"
  then for_each (export_waveforms csv_reference) (Trial.experiments trial) (la_df, [])
  else if String.eqb edformat "zip"
  then for_each (export_waveforms zip_reference) (Trial.experiments trial) (la_df, [])
  else if String.eqb edformat "xlsx"
  then for_each (export_waveforms xlsx_reference) (Trial.experiments trial) (la_df, [])
  else Raise (EncapsulatedDataFileError edformat
                "Unsopported file format for encapsulated data").

Definition to_xlsx (trial : Trial.t) (ted_xlsx_filename edformat : string)
  : outcome TED_dataset :=
  gi <- general_information trial ;;
  ivp_df <- voltage_command_dataframe read_csv_column trial ;;
  dfs <- cells_cursors_liquids_results_dataframes trial ;;
  written <- encapsulated_data trial edformat (LiquidAdditions dfs) ;;
  Ok {| GeneralInformation := TED_GeneralInformation.transpose gi;
        CellProperties_sheet := CellProperties dfs;
        LiquidAdditions_sheet := fst written;
        CursorsDefinitions_sheet := CursorsDefinitions dfs;
        IntendedVoltageProtocol := ivp_df;
        ResultsWide_sheet := ResultsWide dfs;
        waveform_files := snd written |}.

End Exporter.

(* ================================================================== *)
(** * tedutils.from_xlsx *)
(* ================================================================== *)

(** The importer is modelled in the two parts that decide what is stated
    about it: everything it does before it turns to the experiments
    (study, device, liquid junction potential, intended voltage protocol,
    liquids and liquid protocols), and, within the loop over the traces
    of an experiment, the loading of the waveform file that [SRCXFN]
    names together with the normalisation of its time axis.  A dataset
    here holds the sheets as [read_excel] returns them, with the cell
    types the exporter gives them; a numeric cell without a number, which
    is read as the empty string, is the value [NaN].  What is read is
    what [to_xlsx] wrote but for two cases, which the statements about a
    dataset written and read back leave out: a sheet of general
    information whose nine values are all empty, and a concentration
    that is not a number. *)

(** The two dictionaries of helper variables. *)
Definition conctypes (key : string) : option Concentration_Type :=
  if String.eqb key "NOMINAL"
  then Some CIPA_PROTOCOL_LIQUID_CONCENTRATION_NOMINAL
  else if String.eqb key "MEASURED"
  then Some CIPA_PROTOCOL_LIQUID_CONCENTRATION_MEASURED
  else None.

Definition cursortypes (key : string) : option Cursor_Type :=
  if String.eqb key "AVERAGE" then Some AVERAGE
  else if String.eqb key "MAXIMUM" then Some MAXIMUM
  else if String.eqb key "MINIMUM" then Some MINIMUM
  else if String.eqb key "CUSTOM" then Some CUSTOM
  else None.

(** [d[key]] on such a dictionary. *)
Definition subscript {V} (d : string -> option V) (key : string) : outcome V :=
  match d key with
  | Some v => Ok v
  | None => Raise (KeyError key)
  end.

(** [gi[gi["PARAMCD"] == key]["VALUE"].map(str).iloc[0]] *)
Definition general_information_value (gi : list (string * string))
  (key : string) : outcome string :=
  first (map snd (filter (fun kv => String.eqb (fst kv) key) gi)).

(** The study, its report and the device read from the sheet of general
    information. *)
Definition study_and_device (gi : list (string * string))
  : outcome (Study.t * Device.t) :=
  studyId <- general_information_value gi "STUDYID" ;;
  title <- general_information_value gi "REPORT_TITLE" ;;
  version <- general_information_value gi "REPORT_VERSION" ;;
  date <- general_information_value gi "REPORT_DATE" ;;
  text <- general_information_value gi "REPORT_DESCRIPTION" ;;
  device_id <- general_information_value gi "DEVICE_ID" ;;
  device_code <- general_information_value gi "DEVICE_CODE" ;;
  device_model <- general_information_value gi "DEVICE_MODEL" ;;
  device_software <- general_information_value gi "DEVICE_SOFTWARE" ;;
  Ok ({| Study.studyId := studyId;
         Study.report :=
           {| StudyReport.title := title;
              StudyReport.version := version;
              StudyReport.date := date;
              StudyReport.text := text |} |},
      {| Device.id := {| Id.root := device_id; Id.extension := "" |};
         Device.code := device_code;
         Device.manufacturerModelName := device_model;
         Device.deviceSoftwareName := device_software;
         Device.analysisSoftwareName := "";
         Device.codSoftwareName := "";
         Device.additionalAnalysisInformation := "" |}).

(** [la["CTLFL"] = la["CTLFL"].map(str).replace('nan', '').str.upper()],
    and the same for [SBFL]. *)
Definition upper_flag (f : string) : string :=
  upper (if String.eqb f "nan" then "" else f).

Definition upper_flags (r : TED_LiquidAddition.t) : TED_LiquidAddition.t :=
  TED_LiquidAddition.with_liquid
    (TED_LiquidAddition.LIQUID r) (TED_LiquidAddition.CONC r)
    (TED_LiquidAddition.CONCU r) (TED_LiquidAddition.CONCT r)
    (upper_flag (TED_LiquidAddition.CTLFL r))
    (upper_flag (TED_LiquidAddition.SBFL r))
    (TED_LiquidAddition.FIRST r) r.

(** [values[i]] by position. *)
Definition item {A} (i : nat) (l : list A) : outcome A :=
  match nth_error l i with
  | Some x => Ok x
  | None => Raise IndexError
  end.

(** The intended voltage command read from its sheet. *)
Definition voltage_command_protocol (vc : WaveformTable)
  : outcome VoltageProtocol.t :=
  c0 <- item 0 vc ;;
  c1 <- item 1 vc ;;
  let t_units := List.last (split "_" (fst c0)) "" in
  let v_units := List.last (split "_" (fst c1)) "" in
  x1 <- item 1 (snd c0) ;;
  x0 <- item 0 (snd c0) ;;
  Ok {| VoltageProtocol.id := {| Id.root := "PV-10001"; Id.extension := "" |};
        VoltageProtocol.waveform :=
          {| Waveform.head := (0%Q, t_units);
             Waveform.increment := ((x1 - x0)%Q, t_units);
             Waveform.origin := (0%Q, v_units);
             Waveform.scale := (1%Q, v_units);
             Waveform.digits := snd c1;
             Waveform.cipaType := "CIPA_PROTOCOL_VOLTAGE";
             Waveform.sequenceType := "CIPA_TRACE_RECONSTRUTED";
             Waveform.displayName := "Step ramp voltage protocol for hERG";
             Waveform.tracenum := -1;
             Waveform.signalnam := "voltage";
             Waveform.edfilename := "";
             Waveform.numrows := -1; Waveform.itemcol := 0;
             Waveform.headersize := 0 |};
        VoltageProtocol.name := "Intended voltage command";
        VoltageProtocol.duration := 5%Q;
        VoltageProtocol.duration_u := "s" |}.

(** [enumerate(xs)] *)
Definition enumerate {A} (l : list A) : list (Z * A) :=
  combine (map Z.of_nat (seq 0 (length l))) l.

(** [liquids_df]: one liquid per distinct name, numbered in order. *)
Definition liquids_of (la : list TED_LiquidAddition.t) : list Liquid.t :=
  map (fun ix =>
         {| Liquid.id := {| Id.root := ("L-" ++ str (fst ix))%string;
                            Id.extension := "" |};
            Liquid.name := snd ix; Liquid.batch := "";
            Liquid.description := "" |})
      (enumerate (keep_first String.eqb [] (map TED_LiquidAddition.LIQUID la))).

Section Importer.

(** How an f-string prints a number; not modelled. *)
Variable format_float : float -> string.

(** The liquid protocol of a row of [liquid_ps]; [x.cipa_liquid] is the
    liquid that the left merge on [LIQUID] put in the row. *)
Definition liquid_protocol_of (liquids : list Liquid.t)
  (ix : Z * TED_LiquidAddition.t) : outcome LiquidProtocol.t :=
  let '(idx, x) := ix in
  cipa_liquid <-
    first (filter (fun l => String.eqb (Liquid.name l) (TED_LiquidAddition.LIQUID x))
                  liquids) ;;
  ct <- subscript conctypes (upper (TED_LiquidAddition.CONCT x)) ;;
  Ok {| LiquidProtocol.id :=
          {| Id.root := ("P-" ++ str idx ++ "_"
                           ++ Id.root (Liquid.id cipa_liquid))%string;
             Id.extension := "" |};
        LiquidProtocol.liquid := cipa_liquid;
        LiquidProtocol.name :=
          (TED_LiquidAddition.LIQUID x ++ " "
             ++ format_float (TED_LiquidAddition.CONC x) ++ " "
             ++ TED_LiquidAddition.CONCU x)%string;
        LiquidProtocol.duration := 0%Q;
        LiquidProtocol.duration_u := "";
        LiquidProtocol.conc := TED_LiquidAddition.CONC x;
        LiquidProtocol.conc_u := TED_LiquidAddition.CONCU x;
        LiquidProtocol.conc_type := ct;
        LiquidProtocol.isControl :=
          String.eqb (upper (TED_LiquidAddition.CTLFL x)) "Y";
        LiquidProtocol.isSelectiveBlocker :=
          String.eqb (upper (TED_LiquidAddition.SBFL x)) "Y" |}.

(** [liquid_ps]: the distinct liquid additions of the sheet. *)
Definition liquid_ps_of (la : list TED_LiquidAddition.t)
  : list TED_LiquidAddition.t :=
  keep_first (same_on ["LIQUID"; "CONC"; "CONCU"; "CONCT"; "CTLFL"; "SBFL"])
             [] la.

(** [from_xlsx] until it turns to the experiments: the trial with its
    study, device, liquid junction potential, liquids and protocols. *)
Definition from_xlsx_protocols (ted : TED_dataset) : outcome Trial.t :=
  sd <- study_and_device (GeneralInformation ted) ;;
  let la := map upper_flags (rows (LiquidAdditions_sheet ted)) in
  la0 <- match la with
         | [] => Raise (KeyError "0")
         | r :: _ => Ok r
         end ;;
  vcp <- voltage_command_protocol (IntendedVoltageProtocol ted) ;;
  let liquids := liquids_of la in
  lps <- map_outcome (liquid_protocol_of liquids) (enumerate (liquid_ps_of la)) ;;
  Ok {| Trial.version := "2022.07";
        Trial.description := "COD dataset imported from TED files";
        Trial.study := Some (fst sd);
        Trial.devices := [snd sd];
        Trial.ljp :=
          Some {| LiquidJunctionPotential.value := TED_LiquidAddition.LJP la0;
                  LiquidJunctionPotential.unit := TED_LiquidAddition.LJPU la0;
                  LiquidJunctionPotential.reportedVoltage := Vclamp |};
        Trial.liquids := liquids;
        Trial.protocols := Voltage vcp :: map Liquid_ lps;
        Trial.experiments := [] |}.

End Importer.

(** ** The waveform file of a trace *)

(** The dictionary [waveformdata_from_file]. *)
Record waveformdata : Type := {
  filename : string;
  data : option WaveformTable;
  t_increase_ms : Q
}.

Definition no_waveformdata : waveformdata :=
  {| filename := ""; data := None; t_increase_ms := 0%Q |}.

(** The table stored under a reference; a missing file is an error of
    the file system. *)
Definition read_table (files : list (string * WaveformTable)) (ref : string)
  : outcome WaveformTable :=
  match find (fun f => String.eqb (fst f) ref) files with
  | Some f => Ok (snd f)
  | None => Raise (FileNotFoundError ref)
  end.

(** "Check SRCXFN extension and load the waveforms": what
    [waveformdata_from_file["data"]] is afterwards.  A reference of
    neither kind leaves it as it was. *)
Definition load_waveforms (files : list (string * WaveformTable))
  (previous : option WaveformTable) (srcxfn : string)
  : outcome (option WaveformTable) :=
  if String.eqb (lower (suffix 4 srcxfn)) ".csv"
  then
    match split ":" srcxfn with
    | [_] => t <- read_table files srcxfn ;; Ok (Some t)
    | archive :: member :: _ =>
        if String.eqb (lower (suffix 4 archive)) ".zip"
        then t <- read_table files (archive ++ ":" ++ member)%string ;; Ok (Some t)
        else Ok previous
    | [] => Ok previous
    end
  else if String.eqb (lower (suffix 5 srcxfn)) ".xlsx"
  then t <- read_table files srcxfn ;; Ok (Some t)
  else Ok previous.

(** The start and the step of the time axis in milliseconds. *)
Definition normalize_time (time_units : string) (time_head time_step : Q)
  : string * Q * Q :=
  if String.eqb time_units "s"
  then (time_units, time_head * 1000, time_step * 1000)%Q
  else if String.eqb time_units "ms"
  then (time_units, time_head, time_step)
  else if String.eqb time_units "us"
  then (time_units, time_head * (1 # 1000), time_step * (1 # 1000))%Q
  else if Qltb time_step (1 # 1000)
  then ("ms", time_head * (1 # 1000), time_step * 1000)%Q
  else ("ms", time_head, time_step).

(** "Waveform read from file": the dictionary, [time_units] and
    [time_head] after the block, for the reference [srcxfn] of the row of
    the liquid additions that the trace falls in. *)
Definition waveform_read_from_file (files : list (string * WaveformTable))
  (w : waveformdata) (srcxfn : string) : outcome (waveformdata * string * Q) :=
  if (String.eqb (filename w) "" || negb (String.eqb (filename w) srcxfn))%bool
  then
    loaded <- load_waveforms files (data w) srcxfn ;;
    table <- match loaded with
             | Some t => Ok t
             | None => Raise (AttributeError "columns")
             end ;;
    c0 <- item 0 table ;;
    let time_units := lower (List.last (split "_" (fst c0)) "") in
    time_head <- item 0 (snd c0) ;;
    x1 <- item 1 (snd c0) ;;
    x0 <- item 0 (snd c0) ;;
    let '(time_units, time_head, time_step) :=
      normalize_time time_units time_head (x1 - x0)%Q in
    Ok ({| filename := srcxfn; data := Some table;
           t_increase_ms := time_step |}, time_units, time_head)
  else Ok (w, "ms", 0%Q).

(* ================================================================== *)
(** * edfiles.EDCsvFile *)
(* ================================================================== *)

(** [os.path.join(a, b)] on POSIX paths. *)
Definition path_join (a b : string) : string :=
  match b with
  | String "/" _ => b
  | _ =>
      if String.eqb a "" then b
      else if String.eqb (suffix 1 a) "/" then (a ++ b)%string
      else (a ++ "/" ++ b)%string
  end.

Module EDCsvFile.
Record t : Type := {
  ted_dataset_path : string;
  edfilename : string;
  recordcount : Z;
  header_size : Z;
  recordsize : Z;
  compression : string
}.

(** [EDCsvFile(edfilename, ted_dataset_path)] *)
Definition init (edfilename ted_dataset_path : string) : t :=
  {| ted_dataset_path := ted_dataset_path; edfilename := edfilename;
     recordcount := 0; header_size := 0; recordsize := 0;
     compression := "infer" |}.
End EDCsvFile.

Section EncapsulatedDataFile.

Variable read_csv_column : string -> Z -> Z -> option (list Q).

(** [EDCsvFile.save_waveforms]: the object with its three counters set,
    and the file written: its path and its table. *)
Definition save_waveforms (self : EDCsvFile.t) (waveforms : list Waveform.t)
  : outcome (EDCsvFile.t * (string * WaveformTable)) :=
  wf_df <- waveforms_to_df read_csv_column waveforms ;;
  let self :=
    {| EDCsvFile.ted_dataset_path := EDCsvFile.ted_dataset_path self;
       EDCsvFile.edfilename := EDCsvFile.edfilename self;
       EDCsvFile.recordcount := Z.of_nat (length wf_df);
       EDCsvFile.header_size := 1;
       EDCsvFile.recordsize := Z.of_nat (length waveforms) + 1;
       EDCsvFile.compression := EDCsvFile.compression self |} in
  Ok (self,
      (path_join (EDCsvFile.ted_dataset_path self) (EDCsvFile.edfilename self),
       wf_df)).

End EncapsulatedDataFile.

(* ================================================================== *)
(** * cipa.io: sampled values *)
(* ================================================================== *)

(** The helper functions of [cipa/io/__init__.py].  Their floats are the
    rationals they denote; the two errors of the built-ins they use are
    the constructors of [raised]. *)
Module io.

(** [ValueError], of [max] and [min] on an empty sequence, and
    [ZeroDivisionError], of the division of floats. *)
Inductive raised : Type :=
| ValueError
| ZeroDivisionError.

(** [round(x)]: the nearest integer, the even one of two at the same
    distance. *)
Definition round (x : Q) : Z :=
  let f := Qfloor x in
  match (x - inject_Z f ?= 1 # 2)%Q with
  | Lt => f
  | Gt => f + 1
  | Eq => if Z.even f then f else f + 1
  end.

(** [a / b] on floats. *)
Definition divide (a b : Q) : raised + Q :=
  if Qeq_bool b 0 then inl ZeroDivisionError else inr (a / b)%Q.

(** [max(v :: vs)] and [min(v :: vs)]: the first of the largest, of the
    smallest. *)
Definition max_ (v : Q) (vs : list Q) : Q :=
  fold_left (fun m x => if Qle_bool x m then m else x) vs v.

Definition min_ (v : Q) (vs : list Q) : Q :=
  fold_left (fun m x => if Qle_bool m x then m else x) vs v.

(** [value_to_int] *)
Definition value_to_int (val scale origin : Q) : Z :=
  round (val * scale + origin).

(** The dictionary that [physical_to_int16] returns. *)
Record Sampled : Type := {
  sampled_values : list Z;
  origin : Q;
  scale : Q
}.

(** [physical_to_int16].  In [2 ^ 16 - 1] the operator [^] is the
    exclusive or of Python, and [-] binds tighter. *)
Definition physical_to_int16 (physical_values : list Q) : raised + Sampled :=
  match physical_values with
  | [] => inl ValueError
  | v :: vs =>
      let amplitude := (max_ v vs - min_ v vs)%Q in
      let origin := min_ v vs in
      match (if negb (Qle_bool amplitude 1)
             then divide amplitude (inject_Z (Z.lxor 2 (16 - 1)))
             else divide (inject_Z (Z.lxor 2 (16 - 1))) amplitude) with
      | inl e => inl e
      | inr scale =>
          inr {| sampled_values :=
                   map (fun n => value_to_int n scale origin) physical_values;
                 origin := origin;
                 scale := scale |}
      end
  end.

(** [sampled_to_physical] *)
Fixpoint sampled_to_physical (sampled_values : list Z) (origin scale : Q)
  : raised + list Q :=
  match sampled_values with
  | [] => inr []
  | n :: rest =>
      match divide (inject_Z n - origin) scale with
      | inl e => inl e
      | inr p =>
          match sampled_to_physical rest origin scale with
          | inl e => inl e
          | inr ps => inr (p :: ps)
          end
      end
  end.

End io.

(* ================================================================== *)
(** * Sample trials *)
(* ================================================================== *)

Module Samples.

Local Open Scope Q_scope.

Definition waveform (n : Z) : Waveform.t :=
  {| Waveform.head := (0, "ms"); Waveform.increment := (1 # 2, "ms");
     Waveform.origin := (0, "pA"); Waveform.scale := (1, "pA");
     Waveform.digits := [inject_Z n; 2 * inject_Z n; 3];
     Waveform.cipaType := "CIPA_RESULT_TYPE_CURRENT";
     Waveform.sequenceType := "CIPA_TRACE_RECORDED";
     Waveform.displayName := "current";
     Waveform.tracenum := n; Waveform.signalnam := "current";
     Waveform.edfilename := "";
     Waveform.numrows := (-1)%Z; Waveform.itemcol := 0%Z;
     Waveform.headersize := 0%Z |}.

Definition peak (v : Q) : Cursor.t :=
  {| Cursor.name := "Peak"; Cursor.start := Fin 2; Cursor.end_ := Fin 3;
     Cursor.time_u := "ms"; Cursor.type := Some MINIMUM;
     Cursor.result := Some {| CursorResult.value := Fin v;
                              CursorResult.unit := "pA" |} |}.

(** A valid current trace number [n] recorded [t] seconds into the
    experiment. *)
Definition trace (n : Z) (t : Q) : Result.t :=
  {| Result.traceNumber := n; Result.valid := true;
     Result.type := CIPA_RESULT_TYPE_CURRENT;
     Result.elapsedTime := t; Result.elapsedTime_u := "s";
     Result.waveform := Some (waveform n);
     Result.cursors := Some [peak (- (inject_Z n))] |}.

(** Ten current traces, numbers 1 to 10, at 0, 1, ..., 9 seconds. *)
Definition ten_traces : list Result.t :=
  map (fun i => trace (Z.of_nat i + 1)%Z (inject_Z (Z.of_nat i))) (seq 0 10).

Definition liquid (name : string) : Liquid.t :=
  {| Liquid.id := {| Id.root := name; Id.extension := "" |};
     Liquid.name := name; Liquid.batch := ""; Liquid.description := "" |}.

Definition liquid_protocol (name : string) (conc : Q)
  (ct : Concentration_Type) : LiquidProtocol.t :=
  {| LiquidProtocol.id := {| Id.root := "P"; Id.extension := name |};
     LiquidProtocol.liquid := liquid name;
     LiquidProtocol.name := name;
     LiquidProtocol.duration := 0; LiquidProtocol.duration_u := "";
     LiquidProtocol.conc := Fin conc; LiquidProtocol.conc_u := "uM";
     LiquidProtocol.conc_type := ct;
     LiquidProtocol.isControl := false;
     LiquidProtocol.isSelectiveBlocker := false |}.

(** The liquid [name] added [t] seconds into the experiment. *)
Definition addition (name : string) (conc : Q) (ct : Concentration_Type)
  (t : Q) : ProtocolExecution.t :=
  {| ProtocolExecution.protocol := Liquid_ (liquid_protocol name conc ct);
     ProtocolExecution.time := t; ProtocolExecution.time_u := "s" |}.

Definition results_of (rs : list Result.t) : Results.t :=
  {| Results.cell := {| Cell.id := Some {| Id.root := "A01"; Id.extension := "" |};
                        Cell.properties := [] |};
     Results.patchType := CIPA_CELL_SINGLE;
     Results.plateId := ""; Results.wellId := "";
     Results.leakMethod := CIPA_LEAK_METHOD_NONE;
     Results.ljp := None;
     Results.cursors := Some [peak 0];
     Results.results := rs |}.

Definition experiment (ps : list ProtocolExecution.t) (rs : list Result.t)
  : Experiment.t :=
  {| Experiment.id := {| Id.root := "E1"; Id.extension := "" |};
     Experiment.name := ""; Experiment.device := None;
     Experiment.startTime := "2022-06-27T10:00:00";
     Experiment.protocols := ps;
     Experiment.resultsSet := [results_of rs] |}.

Definition study : Study.t :=
  {| Study.studyId := "S-1";
     Study.report := {| StudyReport.title := ""; StudyReport.version := "";
                        StudyReport.date := ""; StudyReport.text := "" |} |}.

Definition device : Device.t :=
  {| Device.id := {| Id.root := "D"; Id.extension := "1" |};
     Device.code := ""; Device.manufacturerModelName := "";
     Device.deviceSoftwareName := ""; Device.analysisSoftwareName := "";
     Device.codSoftwareName := "";
     Device.additionalAnalysisInformation := "" |}.

Definition voltage_command : VoltageProtocol.t :=
  {| VoltageProtocol.id := {| Id.root := "PV"; Id.extension := "" |};
     VoltageProtocol.waveform :=
       {| Waveform.head := (0, "ms"); Waveform.increment := (1, "ms");
          Waveform.origin := (0, "mV"); Waveform.scale := (1, "mV");
          Waveform.digits := [-80; 40; -80];
          Waveform.cipaType := "CIPA_PROTOCOL_VOLTAGE";
          Waveform.sequenceType := "CIPA_TRACE_RECONSTRUTED";
          Waveform.displayName := "voltage";
          Waveform.tracenum := (-1)%Z; Waveform.signalnam := "voltage";
          Waveform.edfilename := "";
          Waveform.numrows := (-1)%Z; Waveform.itemcol := 0%Z;
          Waveform.headersize := 0%Z |};
     VoltageProtocol.name := "step"; VoltageProtocol.duration := 5;
     VoltageProtocol.duration_u := "s" |}.

Definition trial (exps : list Experiment.t) : Trial.t :=
  {| Trial.version := "2022.07"; Trial.description := "";
     Trial.study := Some study; Trial.devices := [device];
     Trial.ljp := Some {| LiquidJunctionPotential.value := Fin 0;
                          LiquidJunctionPotential.unit := "mV";
                          LiquidJunctionPotential.reportedVoltage := Vclamp |};
     Trial.liquids := []; Trial.protocols := [Voltage voltage_command];
     Trial.experiments := exps |}.

(** A trial whose voltage protocol has a single sample. *)
Definition single_sample_command : VoltageProtocol.t :=
  {| VoltageProtocol.id := {| Id.root := "PV"; Id.extension := "" |};
     VoltageProtocol.waveform :=
       {| Waveform.head := (0, "ms"); Waveform.increment := (1, "ms");
          Waveform.origin := (0, "mV"); Waveform.scale := (1, "mV");
          Waveform.digits := [-80];
          Waveform.cipaType := "CIPA_PROTOCOL_VOLTAGE";
          Waveform.sequenceType := "CIPA_TRACE_RECONSTRUTED";
          Waveform.displayName := "voltage";
          Waveform.tracenum := (-1)%Z; Waveform.signalnam := "voltage";
          Waveform.edfilename := "";
          Waveform.numrows := (-1)%Z; Waveform.itemcol := 0%Z;
          Waveform.headersize := 0%Z |};
     VoltageProtocol.name := "hold"; VoltageProtocol.duration := 5;
     VoltageProtocol.duration_u := "s" |}.

Definition single_sample_trial : Trial.t :=
  {| Trial.version := "2022.07"; Trial.description := "";
     Trial.study := Some study; Trial.devices := [device];
     Trial.ljp := None;
     Trial.liquids := []; Trial.protocols := [Voltage single_sample_command];
     Trial.experiments := [] |}.

(** A trial as the constructor leaves it: no study, no device. *)
Definition bare_trial : Trial.t :=
  {| Trial.version := "2022.07"; Trial.description := "";
     Trial.study := None; Trial.devices := [];
     Trial.ljp := None;
     Trial.liquids := []; Trial.protocols := [];
     Trial.experiments := [] |}.

(** No file of samples outside the trial. *)
Definition no_file : string -> Z -> Z -> option (list Q) :=
  fun _ _ _ => None.

(** Scenario 1: one addition at 0 s. *)
Definition one_addition : Experiment.t :=
  experiment [addition "drug" 1 CIPA_PROTOCOL_LIQUID_CONCENTRATION_NOMINAL 0]
             ten_traces.

(** Scenario 2: additions at 0 s and at 5 s. *)
Definition two_additions : Experiment.t :=
  experiment [addition "control" 0 CIPA_PROTOCOL_LIQUID_CONCENTRATION_NOMINAL 0;
              addition "drug" 1 CIPA_PROTOCOL_LIQUID_CONCENTRATION_NOMINAL 5]
             ten_traces.

(** A single addition five seconds after the first trace. *)
Definition late_addition : Experiment.t :=
  experiment [addition "drug" 1 CIPA_PROTOCOL_LIQUID_CONCENTRATION_NOMINAL 5]
             ten_traces.

(** A voltage trace, number [n], recorded [t] seconds into the
    experiment. *)
Definition voltage_trace (n : Z) (t : Q) : Result.t :=
  {| Result.traceNumber := n; Result.valid := true;
     Result.type := CIPA_RESULT_TYPE_VOLTAGE;
     Result.elapsedTime := t; Result.elapsedTime_u := "s";
     Result.waveform := Some (waveform n);
     Result.cursors := Some [] |}.

(** Scenario 2 with a voltage trace recorded after the ten current
    traces. *)
Definition voltage_recorded_last : Experiment.t :=
  experiment [addition "control" 0 CIPA_PROTOCOL_LIQUID_CONCENTRATION_NOMINAL 0;
              addition "drug" 1 CIPA_PROTOCOL_LIQUID_CONCENTRATION_NOMINAL 5]
             (ten_traces ++ [voltage_trace 11 10]).

(** A protocol whose concentration is of the constructor's default type. *)
Definition unknown_concentration : Experiment.t :=
  experiment [addition "drug" 1 CIPA_PROTOCOL_LIQUID_CONCENTRATION_UNKNOWN 0]
             ten_traces.



End Samples.

(* ================================================================== *)
(** * The stated properties, in the words of the specification *)
(* ================================================================== *)

(** ** Trace-range expressions *)

Fixpoint has_char (c : ascii) (s : string) : bool :=
  match s with
  | EmptyString => false
  | String d s' => (Ascii.eqb d c || has_char c s')%bool
  end.

Definition no_dash (s : string) : Prop := has_char "-" s = false.

Definition is_integer (s : string) : Prop := parse_int s <> None.

Definition blank (s : string) : bool := String.eqb (remove_char " " s) "".

(** The numbers [a], [a + 1], ..., [b]. *)
Definition numbers_from_to (a b : Z) (l : list Z) : Prop :=
  StronglySorted Z.lt l /\ forall n, In n l <-> a <= n <= b.

(** What a token contributes to the returned list and to the log: a
    range [a-b] with [a <= b] its numbers, a token without dash itself,
    a range with [a > b] and a token with several dashes a message. *)
Inductive token_expansion : string -> list string -> list string -> Prop :=
| expansion_range (a b : string) (x y : Z) (l : list Z) :
    no_dash a -> no_dash b ->
    parse_int a = Some x -> parse_int b = Some y -> x <= y ->
    numbers_from_to x y l ->
    token_expansion (a ++ "-" ++ b)%string (map str l) []
| expansion_single (tok : string) :
    no_dash tok ->
    token_expansion tok [tok] []
| expansion_reversed (a b : string) (x y : Z) :
    no_dash a -> no_dash b ->
    parse_int a = Some x -> parse_int b = Some y -> y < x ->
    token_expansion (a ++ "-" ++ b)%string [] [out_of_range_message a b]
| expansion_dashes (a b rest : string) :
    no_dash a -> no_dash b ->
    token_expansion (a ++ "-" ++ b ++ "-" ++ rest)%string []
      [out_of_range_message a b].

(** The contribution of a token already split at its dashes. *)
Definition item_chunk (item : list string) : list string * list string :=
  match item with
  | [a; b] =>
      match parse_int a, parse_int b with
      | Some x, Some y =>
          if x <=? y then (map str (range x (y + 1)), [])
          else ([], [out_of_range_message a b])
      | _, _ => ([], [])
      end
  | [a] => ([a], [])
  | a :: b :: _ => ([], [out_of_range_message a b])
  | [] => ([], [])
  end.

(** A token whose two parts are integers, when it has two parts. *)
Definition integer_parts (item : list string) : Prop :=
  match item with
  | [a; b] => is_integer a /\ is_integer b
  | _ => True
  end.

(** ** Waveform references *)

(** A reference to delimited text: it ends in [.csv] and either names the
    file itself or a member of an archive ending in [.zip]. *)
Definition delimited_text_reference (srcxfn : string) : bool :=
  (String.eqb (lower (suffix 4 srcxfn)) ".csv"
   && match split ":" srcxfn with
      | [_] => true
      | archive :: _ => String.eqb (lower (suffix 4 archive)) ".zip"
      | [] => false
      end)%bool.

(** A reference to a spreadsheet: it ends in [.xlsx]. *)
Definition spreadsheet_reference (srcxfn : string) : bool :=
  String.eqb (lower (suffix 5 srcxfn)) ".xlsx".

Definition is_ParseFileError (e : exn) : bool :=
  match e with ParseFileError _ _ => true | _ => false end.

Definition is_EncapsulatedDataFileError (e : exn) : bool :=
  match e with EncapsulatedDataFileError _ _ => true | _ => false end.

(** The exception of a computation is not of the kind [p]. *)
Definition never {A} (p : exn -> bool) (c : outcome A) : Prop :=
  forall e, c = Raise e -> p e = false.

(** ** Liquid additions and traces *)

(** What the export of an experiment needs besides liquid additions and
    traces: an identifier of the cell; a liquid junction potential, of the
    results set or of the trial; a type for every cursor of the results
    set; for every current trace a waveform, a list of cursors and a
    result for every cursor of the list. *)
Definition exportable (trial : Trial.t) (rs : Results.t) : Prop :=
  Cell.id (Results.cell rs) <> None /\
  (Results.ljp rs <> None \/ Trial.ljp trial <> None) /\
  (forall cs, Results.cursors rs = Some cs ->
              Forall (fun c => Cursor.type c <> None) cs) /\
  Forall (fun res =>
            Result.waveform res <> None /\
            Result.cursors res <> None /\
            Forall (fun rc => Cursor.result rc <> None)
                   (evaluated_cursors res))
         (current_results rs).

Definition LiquidExecution_labels : list string :=
  ["LIQUID"; "CONC"; "CONCU"; "CONCT"; "TIME"; "TIMEU"; "CTLFL"; "SBFL"].

(** The liquid additions of an experiment without repetition, in the
    order of their execution and in time order. *)
Definition distinct_additions (exp : Experiment.t) : list LiquidExecution.t :=
  keep_first (same_on LiquidExecution_labels) []
             (exec_ps (Experiment.protocols exp)).

Definition additions_in_time_order (exp : Experiment.t)
  : list LiquidExecution.t :=
  keep_first (same_on LiquidExecution_labels) []
             (stable_sort (lex_leb ["TIME"]) (exec_ps (Experiment.protocols exp))).

Definition sorted_by_time (es : list LiquidExecution.t) : Prop :=
  Sorted (fun a b => (LiquidExecution.TIME a <= LiquidExecution.TIME b)%Q) es.

(** Liquid additions executed at the same time are the same addition:
    the order in which [sort_values(['TIME'])], which need not be stable,
    leaves rows of equal time then does not matter to the rows that
    [drop_duplicates] keeps. *)
Definition at_different_times (es : list LiquidExecution.t) : Prop :=
  forall a b, In a es -> In b es ->
    (LiquidExecution.TIME a == LiquidExecution.TIME b)%Q ->
    same_on LiquidExecution_labels a b = true.

(** Trace numbers strictly increasing with elapsed time. *)
Definition traces_increasing (rs : list Result.t) : Prop :=
  forall r1 r2, In r1 rs -> In r2 rs ->
    ((Result.elapsedTime r1 < Result.elapsedTime r2)%Q
     <-> Result.traceNumber r1 < Result.traceNumber r2).

(** The earliest result at or after [t], the latest before [t], the
    latest of all. *)
Definition earliest_from (t : Q) (rs : list Result.t) (r : Result.t) : Prop :=
  In r rs /\ (t <= Result.elapsedTime r)%Q /\
  forall r', In r' rs -> (t <= Result.elapsedTime r')%Q ->
             (Result.elapsedTime r <= Result.elapsedTime r')%Q.

Definition latest_before (t : Q) (rs : list Result.t) (r : Result.t) : Prop :=
  In r rs /\ (Result.elapsedTime r < t)%Q /\
  forall r', In r' rs -> (Result.elapsedTime r' < t)%Q ->
             (Result.elapsedTime r' <= Result.elapsedTime r)%Q.

Definition latest (rs : list Result.t) (r : Result.t) : Prop :=
  In r rs /\
  forall r', In r' rs -> (Result.elapsedTime r' <= Result.elapsedTime r)%Q.

(** The row of the liquid additions carries the liquid of the addition. *)
Definition addition_of (e : LiquidExecution.t) (x : TED_LiquidAddition.t) : Prop :=
  TED_LiquidAddition.LIQUID x = LiquidExecution.LIQUID e /\
  TED_LiquidAddition.CONC x = LiquidExecution.CONC e /\
  TED_LiquidAddition.CONCU x = LiquidExecution.CONCU e /\
  TED_LiquidAddition.CONCT x = LiquidExecution.CONCT e /\
  TED_LiquidAddition.CTLFL x = LiquidExecution.CTLFL e /\
  TED_LiquidAddition.SBFL x = LiquidExecution.SBFL e.

(** The range of trace numbers of a row. *)
Definition range_of (x : TED_LiquidAddition.t) : Z * Z :=
  (TED_LiquidAddition.FIRST x, TED_LiquidAddition.LAST x).

(** ** The partition of the traces *)

Definition in_range_of (x : TED_LiquidAddition.t) (n : Z) : Prop :=
  TED_LiquidAddition.FIRST x <= n <= TED_LiquidAddition.LAST x.

(** No number lies in the ranges of two rows. *)
Definition non_overlapping (xs : list TED_LiquidAddition.t) : Prop :=
  forall i j x y n,
    i <> j -> nth_error xs i = Some x -> nth_error xs j = Some y ->
    in_range_of x n -> ~ in_range_of y n.

(** The trace number of every result of [rs] lies in the range of a row. *)
Definition covering (xs : list TED_LiquidAddition.t) (rs : list Result.t) : Prop :=
  forall r, In r rs -> exists x, In x xs /\ in_range_of x (Result.traceNumber r).

Definition partition_of (xs : list TED_LiquidAddition.t) (rs : list Result.t)
  : Prop :=
  non_overlapping xs /\ covering xs rs.

(** The ranges follow each other. *)
Definition consecutive (xs : list TED_LiquidAddition.t) : Prop :=
  StronglySorted
    (fun x y => TED_LiquidAddition.LAST x < TED_LiquidAddition.FIRST y) xs.

(** ** The columns of the wide results *)

(** The attributes of [TED_ResultWide]. *)
Definition TED_ResultWide_labels : list string :=
  ["EXPID"; "CELLID"; "RESTYPE"; "LEAKMTH"; "ELTIME"; "ELTIMEU"; "TRACENUM";
   "ANLFL"; "SRCXFN"; "LIQUID"; "CONC"; "CONCU"; "CONCT"].

(** The current traces that are exported: those of the first results set
    of an experiment of the trial. *)
Definition exported_trace (trial : Trial.t) (exp : Experiment.t)
  (rs : Results.t) (res : Result.t) : Prop :=
  In exp (Trial.experiments trial) /\
  hd_error (Experiment.resultsSet exp) = Some rs /\
  In res (current_results rs).

(** The name of a cursor evaluated on an exported trace. *)
Definition cursor_name (trial : Trial.t) (c : string) : Prop :=
  exists exp rs res rc,
    exported_trace trial exp rs res /\
    In rc (evaluated_cursors res) /\ Cursor.name rc = c.

(** The labels of a row of the wide results that are not names of
    cursors: the attributes of [TED_ResultWide] and the two flags written
    to the row with its liquid. *)
Definition row_attribute_labels : list string :=
  TED_ResultWide_labels ++ ["CTLFL"; "SBFL"].

(** No cursor evaluated on an exported trace bears the name of an
    attribute of the row: [rww[rc.name] = rc.result.value] then adds a
    cell to the row and replaces none, which is how [TED_ResultWide]
    keeps the values of the cursors. *)
Definition cursor_names_apart (trial : Trial.t) : Prop :=
  forall c, cursor_name trial c -> ~ In c row_attribute_labels.

(** The row of the wide results that shows a trace. *)
Definition row_of_trace (exp : Experiment.t) (rs : Results.t) (res : Result.t)
  (row : TED_ResultWide.t) : Prop :=
  TED_ResultWide.EXPID row = composite_id (Experiment.id exp) /\
  TED_ResultWide.CELLID row = cell_label rs /\
  TED_ResultWide.RESTYPE row = Result_Type_name (Result.type res) /\
  TED_ResultWide.LEAKMTH row = LeakMethod_Type_name (Results.leakMethod rs) /\
  TED_ResultWide.ELTIME row = Result.elapsedTime res /\
  TED_ResultWide.ELTIMEU row = Result.elapsedTime_u res /\
  TED_ResultWide.TRACENUM row = Result.traceNumber res /\
  TED_ResultWide.ANLFL row = flag (Result.valid res) /\
  for_each inject_cursor (evaluated_cursors res) []
    = Ok (TED_ResultWide.cursor_values row).

(** Two wide rows that differ at most in the liquid written to them. *)
Definition same_trace (er er' : TED_ResultWide.t) : Prop :=
  TED_ResultWide.EXPID er' = TED_ResultWide.EXPID er /\
  TED_ResultWide.CELLID er' = TED_ResultWide.CELLID er /\
  TED_ResultWide.RESTYPE er' = TED_ResultWide.RESTYPE er /\
  TED_ResultWide.LEAKMTH er' = TED_ResultWide.LEAKMTH er /\
  TED_ResultWide.ELTIME er' = TED_ResultWide.ELTIME er /\
  TED_ResultWide.ELTIMEU er' = TED_ResultWide.ELTIMEU er /\
  TED_ResultWide.TRACENUM er' = TED_ResultWide.TRACENUM er /\
  TED_ResultWide.ANLFL er' = TED_ResultWide.ANLFL er /\
  TED_ResultWide.cursor_values er' = TED_ResultWide.cursor_values er.

(** The columns and the rows of the wide results of a trial. *)
Definition wide_results_of (trial : Trial.t) (df : DataFrame TED_ResultWide.t)
  : Prop :=
  let cols := columns df in
  let table := rows df in
  ~ In "SRCXFN" cols /\
  (forall c, In c TED_ResultWide_labels -> c <> "SRCXFN" -> In c cols) /\
  (forall c, cursor_name trial c -> In c cols) /\
  (forall c, In c cols ->
     In c TED_ResultWide_labels \/ cursor_name trial c
     \/ c = "CTLFL" \/ c = "SBFL") /\
  Sorted (fun a b => lex_leb ["EXPID"; "CELLID"; "ELTIME"; "TRACENUM"] a b = true)
         table /\
  (forall row, In row table ->
     length (filter (same_on cols row) table) = 1%nat) /\
  (forall row, In row table ->
     exists exp rs res,
       exported_trace trial exp rs res /\ row_of_trace exp rs res row) /\
  (forall exp rs res,
     exported_trace trial exp rs res ->
     exists shown row,
       row_of_trace exp rs res shown /\ In row table /\
       same_on cols shown row = true).

(** An experiment recorded so that the builder returns its tables: a
    first results set that can be exported, a liquid addition, a current
    trace at or after every addition and one before every addition but
    the earliest. *)
Definition recorded (trial : Trial.t) (exp : Experiment.t) : Prop :=
  exists rs others,
    Experiment.resultsSet exp = rs :: others /\
    exportable trial rs /\
    additions_in_time_order exp <> [] /\
    (forall e, In e (additions_in_time_order exp) ->
       exists r, In r (current_results rs) /\
                 (LiquidExecution.TIME e <= Result.elapsedTime r)%Q) /\
    (forall e, In e (tl (additions_in_time_order exp)) ->
       exists r, In r (current_results rs) /\
                 (Result.elapsedTime r < LiquidExecution.TIME e)%Q).

(** ** The table of current traces *)

(** The values of the evaluated cursors of a trace, under their names. *)
Definition cursor_values_of (cs : list Cursor.t) : list (string * float) :=
  fold_left
    (fun d rc =>
       dict_set (Cursor.name rc)
                (match Cursor.result rc with
                 | Some cr => CursorResult.value cr
                 | None => NaN
                 end) d)
    cs [].

(** The wide row of a current trace before liquids are written to it. *)
Definition wide_row (expid cellid : string) (rs : Results.t) (res : Result.t)
  : TED_ResultWide.t :=
  {| TED_ResultWide.EXPID := expid;
     TED_ResultWide.CELLID := cellid;
     TED_ResultWide.RESTYPE := Result_Type_name (Result.type res);
     TED_ResultWide.LEAKMTH := LeakMethod_Type_name (Results.leakMethod rs);
     TED_ResultWide.ELTIME := Result.elapsedTime res;
     TED_ResultWide.ELTIMEU := Result.elapsedTime_u res;
     TED_ResultWide.TRACENUM := Result.traceNumber res;
     TED_ResultWide.ANLFL := flag (Result.valid res);
     TED_ResultWide.SRCXFN := waveform_file res;
     TED_ResultWide.LIQUID := "";
     TED_ResultWide.CONC := NaN;
     TED_ResultWide.CONCU := "";
     TED_ResultWide.CONCT := "";
     TED_ResultWide.cursor_values := cursor_values_of (evaluated_cursors res);
     TED_ResultWide.liquid_flags := None |}.

Definition wide_rows (exp : Experiment.t) (rs : Results.t)
  : list TED_ResultWide.t :=
  map (wide_row (composite_id (Experiment.id exp))
                (cell_label rs) rs)
      (current_results rs).

(** The table [tmp]: the current traces by elapsed time and trace
    number. *)
Definition sorted_traces (exp : Experiment.t) (rs : Results.t)
  : list TED_ResultWide.t :=
  stable_sort (lex_leb ["EXPID"; "CELLID"; "ELTIME"; "TRACENUM"])
              (wide_rows exp rs).

(** ** The ranges, computed on the sorted table of current traces *)

Definition first_from (tmp : list TED_ResultWide.t) (t : Q) : Z :=
  match filter (fun r => Qgeb (TED_ResultWide.ELTIME r) t) tmp with
  | r :: _ => TED_ResultWide.TRACENUM r
  | [] => 0
  end.

Definition last_before (tmp : list TED_ResultWide.t) (t : Q) : Z :=
  match rev (filter (fun r => Qltb (TED_ResultWide.ELTIME r) t) tmp) with
  | r :: _ => TED_ResultWide.TRACENUM r
  | [] => 0
  end.

Definition last_trace (tmp : list TED_ResultWide.t) : Z :=
  match rev tmp with
  | r :: _ => TED_ResultWide.TRACENUM r
  | [] => 0
  end.

Definition with_execution (e : LiquidExecution.t) (first : Z)
  (la : TED_LiquidAddition.t) : TED_LiquidAddition.t :=
  TED_LiquidAddition.with_liquid
    (LiquidExecution.LIQUID e) (LiquidExecution.CONC e)
    (LiquidExecution.CONCU e) (LiquidExecution.CONCT e)
    (LiquidExecution.CTLFL e) (LiquidExecution.SBFL e) first la.

(** The copies of [la] when the loop over the additions ends. *)
Fixpoint ranged (la : TED_LiquidAddition.t) (tmp : list TED_ResultWide.t)
  (es : list LiquidExecution.t) : list TED_LiquidAddition.t :=
  match es with
  | [] => []
  | e :: es' =>
      TED_LiquidAddition.with_LAST
        (match es' with
         | e' :: _ => last_before tmp (LiquidExecution.TIME e')
         | [] => TED_LiquidAddition.LAST la
         end)
        (with_execution e (first_from tmp (LiquidExecution.TIME e)) la)
      :: ranged la tmp es'
  end.

Fixpoint ranges (tmp : list TED_ResultWide.t) (es : list LiquidExecution.t)
  : list (Z * Z) :=
  match es with
  | [] => []
  | e :: es' =>
      (first_from tmp (LiquidExecution.TIME e),
       match es' with
       | e' :: _ => last_before tmp (LiquidExecution.TIME e')
       | [] => last_trace tmp
       end) :: ranges tmp es'
  end.

(** ** The tables of an experiment, computed on the sorted traces *)

(** The object [la] before the loop over the additions. *)
Definition liquid_addition_header (exp : Experiment.t) (rs : Results.t)
  (ljp : LiquidJunctionPotential.t) : TED_LiquidAddition.t :=
  TED_LiquidAddition.with_header
    (composite_id (Experiment.id exp)) (cell_label rs)
    (Experiment.startTime exp)
    (LiquidJunctionPotential.value ljp) (LiquidJunctionPotential.unit ljp)
    TED_LiquidAddition.init.

(** The frame [tmp]. *)
Definition traces_frame (exp : Experiment.t) (rs : Results.t)
  : DataFrame TED_ResultWide.t :=
  {| columns := columns (from_records (wide_rows exp rs));
     rows := sorted_traces exp rs |}.

(** The rows of the liquid additions of an experiment. *)
Definition liquid_addition_rows (exp : Experiment.t) (rs : Results.t)
  (ljp : LiquidJunctionPotential.t) : list TED_LiquidAddition.t :=
  map (populate (traces_frame exp rs))
      (set_last
         (TED_LiquidAddition.with_LAST (last_trace (sorted_traces exp rs)))
         (ranged (liquid_addition_header exp rs ljp) (sorted_traces exp rs)
                 (additions_in_time_order exp))).

(** The wide rows of an experiment with the liquids written to them. *)
Definition liquid_wide_rows (exp : Experiment.t) (rs : Results.t)
  (ljp : LiquidJunctionPotential.t) : list TED_ResultWide.t :=
  fold_left (fun ers x => map (add_liquid_information x) ers)
            (liquid_addition_rows exp rs ljp) (wide_rows exp rs).

(** The rows of the cell properties of an experiment. *)
Definition cell_property_rows (exp : Experiment.t) (rs : Results.t)
  : list TED_CellProperty.t :=
  map (cell_property (composite_id (Experiment.id exp))
                     (cell_label rs))
      (Cell.properties (Results.cell rs)).

(** The cursors of a results set, none when the attribute is [None]. *)
Definition cursors_of (rs : Results.t) : list Cursor.t :=
  match Results.cursors rs with
  | Some cs => cs
  | None => []
  end.

(** ** Decimal numerals *)

(** A string of decimal digits. *)
Fixpoint digits_only (s : string) : bool :=
  match s with
  | EmptyString => true
  | String c s' =>
      match digit_of c with
      | Some _ => digits_only s'
      | None => false
      end
  end.

(** The number that the digits of [d] continue from [acc]. *)
Fixpoint uint_value (acc : Z) (d : Decimal.uint) : Z :=
  match d with
  | Decimal.Nil => acc
  | Decimal.D0 d' => uint_value (10 * acc + 0) d'
  | Decimal.D1 d' => uint_value (10 * acc + 1) d'
  | Decimal.D2 d' => uint_value (10 * acc + 2) d'
  | Decimal.D3 d' => uint_value (10 * acc + 3) d'
  | Decimal.D4 d' => uint_value (10 * acc + 4) d'
  | Decimal.D5 d' => uint_value (10 * acc + 5) d'
  | Decimal.D6 d' => uint_value (10 * acc + 6) d'
  | Decimal.D7 d' => uint_value (10 * acc + 7) d'
  | Decimal.D8 d' => uint_value (10 * acc + 8) d'
  | Decimal.D9 d' => uint_value (10 * acc + 9) d'
  end.



(** ** The four tables of a trial *)

Definition TED_CursorDefinition_labels : list string :=
  ["CURSOR"; "STIME"; "STIMEU"; "ETIME"; "ETIMEU"; "CURSORT"].

Definition TED_LiquidAddition_labels : list string :=
  ["EXPID"; "CELLID"; "STIME"; "LJP"; "LJPU"; "LIQUID"; "CONC"; "CONCU";
   "CONCT"; "FIRST"; "LAST"; "CTLFL"; "SBFL"; "ANL"; "SRCXFN"; "NOTES"].

(** The first results set of an experiment, the only one exported. *)
Definition exported_results (exp : Experiment.t) : option Results.t :=
  hd_error (Experiment.resultsSet exp).

(** The cell properties and the cursors of the exported results sets, in
    the order of the experiments. *)
Definition exported_cell_properties (trial : Trial.t) : list TED_CellProperty.t :=
  flat_map (fun exp =>
              match exported_results exp with
              | Some rs => cell_property_rows exp rs
              | None => []
              end) (Trial.experiments trial).

Definition exported_cursors (trial : Trial.t) : list Cursor.t :=
  flat_map (fun exp =>
              match exported_results exp with
              | Some rs => cursors_of rs
              | None => []
              end) (Trial.experiments trial).

(** The row of the liquid additions [x] belongs to the experiment [exp]
    and shows its liquid addition [e]. *)
Definition liquid_addition_of (trial : Trial.t) (exp : Experiment.t)
  (e : LiquidExecution.t) (x : TED_LiquidAddition.t) : Prop :=
  exists rs ljp,
    exported_results exp = Some rs /\
    ljp_of trial rs = Ok ljp /\
    TED_LiquidAddition.EXPID x = composite_id (Experiment.id exp) /\
    TED_LiquidAddition.CELLID x = cell_label rs /\
    TED_LiquidAddition.STIME x = Experiment.startTime exp /\
    TED_LiquidAddition.LJP x = LiquidJunctionPotential.value ljp /\
    TED_LiquidAddition.LJPU x = LiquidJunctionPotential.unit ljp /\
    TED_LiquidAddition.NOTES x = "" /\
    addition_of e x.

(** ** The references to the waveform files *)

(** The reference that [to_xlsx] writes to [SRCXFN] for a sheet name. *)
Definition reference_of (edformat sheetname : string) : string :=
  if String.eqb edformat "csv" then csv_reference sheetname
  else if String.eqb edformat "zip" then zip_reference sheetname
  else xlsx_reference sheetname.

(** The row [r] of the liquid additions is of the experiment [exp]. *)
Definition row_of_experiment (exp : Experiment.t) (r : TED_LiquidAddition.t)
  : Prop :=
  exists rs,
    exported_results exp = Some rs /\
    TED_LiquidAddition.EXPID r = composite_id (Experiment.id exp) /\
    TED_LiquidAddition.CELLID r = cell_label rs.

(** [r'] is the row [r] with, at most, another [SRCXFN]. *)
Definition same_but_SRCXFN (r r' : TED_LiquidAddition.t) : Prop :=
  r' = TED_LiquidAddition.with_SRCXFN (TED_LiquidAddition.SRCXFN r') r.

(** ** The intended voltage protocol *)

(** The samples of a waveform in physical units. *)
Definition physical_values (w : Waveform.t) : list Q :=
  map (fun d => (d * fst (Waveform.scale w) + fst (Waveform.origin w))%Q)
      (Waveform.digits w).

(** ** The sheet of general information *)

(** The labels that [from_xlsx] looks up in the sheet. *)
Definition general_information_labels : list string :=
  ["STUDYID"; "REPORT_TITLE"; "REPORT_VERSION"; "REPORT_DATE";
   "REPORT_DESCRIPTION"; "DEVICE_ID"; "DEVICE_CODE"; "DEVICE_MODEL";
   "DEVICE_SOFTWARE"].


(** ** Liquid protocols written and read back *)

(** The liquid protocol [lp'] read from a row has the liquid, the
    concentration and the flags of the liquid protocol [lp]. *)
Definition same_liquid_protocol (lp lp' : LiquidProtocol.t) : Prop :=
  Liquid.name (LiquidProtocol.liquid lp') = Liquid.name (LiquidProtocol.liquid lp) /\
  LiquidProtocol.conc lp' = LiquidProtocol.conc lp /\
  LiquidProtocol.conc_u lp' = LiquidProtocol.conc_u lp /\
  LiquidProtocol.conc_type lp' = LiquidProtocol.conc_type lp /\
  LiquidProtocol.isControl lp' = LiquidProtocol.isControl lp /\
  LiquidProtocol.isSelectiveBlocker lp' = LiquidProtocol.isSelectiveBlocker lp.

(** ** The trial read before the experiments *)


(** The rows of the liquid additions as the importer holds them. *)
Definition liquid_additions_read (ted : TED_dataset) : list TED_LiquidAddition.t :=
  map upper_flags (rows (LiquidAdditions_sheet ted)).


(** ** Waveforms as tables *)

(** The label of the column of a waveform's samples. *)
Definition signal_colname (w : Waveform.t) : string :=
  ("trace_#" ++ str (Waveform.tracenum w) ++ "_"
     ++ (if String.eqb (Waveform.signalnam w) ""
         then lower (List.last (split "_" (Waveform.cipaType w)) "")
         else Waveform.signalnam w)
     ++ "_" ++ snd (Waveform.scale w))%string.

(** The column of a waveform whose samples are in memory. *)
Definition signal_column (w : Waveform.t) : string * list Q :=
  (signal_colname w, physical_values w).

(** The column of times of a waveform whose samples are in memory. *)
Definition time_column (w : Waveform.t) : string * list Q :=
  (("t_" ++ snd (Waveform.increment w))%string,
   linspace (fst (Waveform.increment w)) (length (Waveform.digits w))).

(** A waveform kept in a file of delimited text. *)
Definition kept_in_csv (w : Waveform.t) : Prop :=
  Waveform.digits w = [] /\
  lower (splitext_extension (Waveform.edfilename w)) = ".csv"%string.

(** ** The liquid of a trace *)




(* ================================================================== *)
(** * Proofs *)
(* ================================================================== *)

(** ** Outcomes *)

Lemma bind_ok {A B} (c : outcome A) (k : A -> outcome B) (b : B) :
  Py.bind c k = Ok b -> exists a, c = Ok a /\ k a = Ok b.
Proof.
  destruct c as [a | e]; simpl; intros H; [eauto | discriminate].
Qed.

Lemma for_each_app {A S} (body : S -> A -> outcome S) (xs ys : list A) (st : S) :
  for_each body (xs ++ ys) st = Py.bind (for_each body xs st) (for_each body ys).
Proof.
  revert st; induction xs as [| x xs IH]; intros st; simpl.
  - reflexivity.
  - destruct (body st x) as [st' | e]; simpl; [apply IH | reflexivity].
Qed.

(** ** Strings *)

Lemma split_not_nil (c : ascii) (s : string) : split c s <> [].
Proof.
  destruct s as [| d s]; simpl; [discriminate |].
  destruct (Ascii.eqb d c); [discriminate |].
  destruct (split c s); discriminate.
Qed.

Lemma join_cons (sep x : string) (y : string) (l : list string) :
  join sep (x :: y :: l) = (x ++ sep ++ join sep (y :: l))%string.
Proof. reflexivity. Qed.

Lemma split_join (c : ascii) (s : string) :
  join (String c "") (split c s) = s.
Proof.
  induction s as [| d s IH]; simpl; [reflexivity |].
  generalize (split_not_nil c s); intros Hne.
  destruct (Ascii.eqb_spec d c) as [-> | Hdc].
  - destruct (split c s) as [| w ws]; [congruence |].
    rewrite join_cons, IH. reflexivity.
  - destruct (split c s) as [| w ws]; [congruence |].
    destruct ws as [| w' ws].
    + simpl in *. now rewrite IH.
    + rewrite join_cons in IH. rewrite join_cons.
      change ((String d w ++ String c "" ++ join (String c "") (w' :: ws))%string)
        with (String d (w ++ String c "" ++ join (String c "") (w' :: ws))%string).
      now rewrite IH.
Qed.

Lemma split_no_sep (c : ascii) (s : string) :
  Forall (fun t => has_char c t = false) (split c s).
Proof.
  induction s as [| d s IH]; simpl.
  - constructor; [reflexivity | constructor].
  - destruct (Ascii.eqb_spec d c) as [-> | Hdc].
    + constructor; [reflexivity | exact IH].
    + destruct (split c s) as [| w ws]; simpl.
      * constructor; [| constructor]. simpl.
        destruct (Ascii.eqb_spec d c); [contradiction | reflexivity].
      * inversion IH as [| ? ? Hw Hws]; subst.
        constructor; [| exact Hws]. simpl.
        destruct (Ascii.eqb_spec d c); [contradiction | exact Hw].
Qed.

Lemma split_app_sep (c : ascii) (a rest : string) :
  has_char c a = false ->
  split c (a ++ String c rest) = a :: split c rest.
Proof.
  induction a as [| d a IH]; simpl; intros Ha.
  - now rewrite Ascii.eqb_refl.
  - apply orb_false_iff in Ha as [Hd Ha].
    rewrite Hd, (IH Ha). reflexivity.
Qed.

Lemma split_no_char (c : ascii) (a : string) :
  has_char c a = false -> split c a = [a].
Proof.
  induction a as [| d a IH]; simpl; intros Ha; [reflexivity |].
  apply orb_false_iff in Ha as [Hd Ha].
  now rewrite Hd, (IH Ha).
Qed.

(** ** [range] *)

Lemma range_spec (a b : Z) : numbers_from_to a b (range a (b + 1)).
Proof.
  unfold numbers_from_to, range. split.
  - generalize (Z.to_nat (b + 1 - a)) as n. intros n.
    assert (H : forall k, StronglySorted Z.lt
                  (map (fun i => a + Z.of_nat i) (seq k n))).
    { induction n as [| n IH]; intros k; simpl; constructor.
      - apply IH.
      - apply Forall_forall. intros z Hz.
        apply in_map_iff in Hz as [i [<- Hi]].
        apply in_seq in Hi. lia. }
    apply H.
  - intros n. rewrite in_map_iff. split.
    + intros [i [<- Hi]]. apply in_seq in Hi. lia.
    + intros Hn. exists (Z.to_nat (n - a)). split; [lia |].
      apply in_seq. lia.
Qed.

(** ** expand_numbers_list *)

Lemma for_each_expand_item (items : list (list string)) :
  Forall integer_parts items ->
  Forall (fun it => it <> []) items ->
  forall new_row log,
    for_each expand_item items (new_row, log) =
    Ok (new_row ++ concat (map (fun it => fst (item_chunk it)) items),
        log ++ concat (map (fun it => snd (item_chunk it)) items)).
Proof.
  induction items as [| it items IH]; intros Hint Hne new_row log.
  - simpl. now rewrite !app_nil_r.
  - inversion Hint as [| ? ? Hit Hint']; subst.
    inversion Hne as [| ? ? Hit0 Hne']; subst.
    assert (Hstep : expand_item (new_row, log) it =
                    Ok (new_row ++ fst (item_chunk it),
                        log ++ snd (item_chunk it))).
    { destruct it as [| a [| b [| c rest]]]; simpl.
      - congruence.
      - now rewrite app_nil_r.
      - destruct Hit as [Ha Hb]. unfold is_integer in Ha, Hb. unfold int.
        destruct (parse_int a) as [x |]; [| congruence].
        destruct (parse_int b) as [y |]; [| congruence].
        simpl. destruct (x <=? y); simpl; now rewrite ?app_nil_r.
      - now rewrite app_nil_r. }
    change (for_each expand_item (it :: items) (new_row, log))
      with (Py.bind (expand_item (new_row, log) it) (for_each expand_item items)).
    rewrite Hstep. unfold Py.bind.
    rewrite (IH Hint' Hne'). simpl. now rewrite <- !app_assoc.
Qed.

Lemma item_chunk_expansion (tok : string) :
  integer_parts (split "-" tok) ->
  token_expansion tok (fst (item_chunk (split "-" tok)))
                      (snd (item_chunk (split "-" tok))).
Proof.
  intros Hint.
  generalize (split_join "-" tok) (split_no_sep "-" tok) (split_not_nil "-" tok).
  destruct (split "-" tok) as [| a [| b [| c rest]]]; intros Hjoin Hno Hne.
  - congruence.
  - simpl in Hjoin; subst tok. inversion Hno; subst.
    now apply expansion_single.
  - rewrite join_cons in Hjoin. simpl join in Hjoin. subst tok.
    inversion Hno as [| ? ? Ha Hno']; subst. inversion Hno' as [| ? ? Hb _]; subst.
    destruct Hint as [Hia Hib]. unfold is_integer in Hia, Hib.
    simpl. destruct (parse_int a) as [x |] eqn:Hx; [| congruence].
    destruct (parse_int b) as [y |] eqn:Hy; [| congruence].
    destruct (Z.leb_spec x y) as [Hle | Hlt]; simpl.
    + apply expansion_range with (x := x) (y := y); auto using range_spec.
    + now apply expansion_reversed with (x := x) (y := y).
  - rewrite join_cons in Hjoin. rewrite join_cons in Hjoin. subst tok.
    inversion Hno as [| ? ? Ha Hno']; subst. inversion Hno' as [| ? ? Hb _]; subst.
    simpl fst; simpl snd.
    now apply expansion_dashes.
Qed.

(** How the call goes when the two parts of every token of the form
    [a-b] are integers: absent or blank input gives the empty list;
    otherwise the call returns, token by token: the numbers [a] to [b]
    for a range [a-b] with [a <= b], the token itself for a token without
    dash, and nothing but a logged message for a range with [a > b] and
    for a token with several dashes. *)
Lemma expand_numbers_list_tokens :
  expand_numbers_list None = Ok ([], []) /\
  forall s : string,
    (forall tok a b,
        In tok (split ";" s) -> tok = (a ++ "-" ++ b)%string ->
        no_dash a -> no_dash b -> is_integer a /\ is_integer b) ->
    if blank s
    then expand_numbers_list (Some s) = Ok ([], [])
    else exists chunks : list (list string * list string),
        expand_numbers_list (Some s)
          = Ok (concat (map fst chunks), concat (map snd chunks)) /\
        Forall2 (fun tok c => token_expansion tok (fst c) (snd c))
                (split ";" s) chunks.
Proof.
  split; [reflexivity |].
  intros s Hints. unfold expand_numbers_list, blank.
  destruct (String.eqb (remove_char " " s) ""); [reflexivity |].
  assert (Hparts : Forall (fun tok => integer_parts (split "-" tok)) (split ";" s)).
  { apply Forall_forall. intros tok Htok.
    generalize (split_join "-" tok) (split_no_sep "-" tok).
    destruct (split "-" tok) as [| a [| b [| c rest]]]; simpl; auto.
    intros Hjoin Hno.
    inversion Hno as [| ? ? Ha Hno']; subst. inversion Hno' as [| ? ? Hb _]; subst.
    apply (Hints _ a b Htok); auto. }
  exists (map (fun tok => item_chunk (split "-" tok)) (split ";" s)). split.
  - rewrite for_each_expand_item.
    + simpl. rewrite !map_map. reflexivity.
    + apply Forall_map. exact Hparts.
    + apply Forall_map. apply Forall_forall. intros tok _. apply split_not_nil.
  - clear Hints. induction Hparts as [| tok toks Htok _ IH]; simpl; constructor.
    + now apply item_chunk_expansion.
    + exact IH.
Qed.

(** C8: the claim fails.  A range token [a-b] one part of which is not
    an integer is not logged and skipped: when the tokens before it are
    well formed, [int] raises [ValueError] on the part, nothing catches
    it, and the call returns no list, whatever tokens follow; only
    ranges with [a > b] and tokens with several dashes are logged and
    skipped. *)
Theorem malformed_range_aborts (s : string) (toks : list string)
  (a b : string) (rest : list string) :
  blank s = false ->
  split ";" s = toks ++ (a ++ "-" ++ b)%string :: rest ->
  Forall (fun tok => integer_parts (split "-" tok)) toks ->
  no_dash a -> no_dash b ->
  ~ (is_integer a /\ is_integer b) ->
  exists literal,
    (literal = a \/ literal = b) /\
    expand_numbers_list (Some s) = Raise (ValueError literal).
Proof.
  intros Hblank Hsplit Htoks Ha Hb Hint.
  unfold expand_numbers_list. unfold blank in Hblank. rewrite Hblank.
  cbn zeta. rewrite Hsplit, map_app, for_each_app.
  rewrite for_each_expand_item.
  - cbn [Py.bind map for_each].
    assert (Htok : split "-" (a ++ "-" ++ b) = [a; b]).
    { simpl append. rewrite (split_app_sep "-" a b Ha).
      now rewrite (split_no_char "-" b Hb). }
    rewrite Htok. unfold expand_item, int, is_integer in *.
    destruct (parse_int a) as [x |] eqn:Hx.
    + destruct (parse_int b) as [y |] eqn:Hy.
      * exfalso. apply Hint. split; discriminate.
      * exists b. split; [now right | reflexivity].
    + exists a. split; [now left | reflexivity].
  - apply Forall_map. exact Htoks.
  - apply Forall_map. apply Forall_forall. intros tok _. apply split_not_nil.
Qed.

Lemma malformed_range_aborts_witness :
  exists literal,
    (literal = "2" \/ literal = "x")%string /\
    expand_numbers_list (Some "1;2-x") = Raise (ValueError literal).
Proof.
  apply (malformed_range_aborts "1;2-x" ["1"%string] "2" "x" []).
  - reflexivity.
  - reflexivity.
  - repeat constructor.
  - reflexivity.
  - reflexivity.
  - intros [_ Hx]. apply Hx. reflexivity.
Defined.

(** ** The waveform file of a trace *)

(** C6: seconds are scaled by 1e3, microseconds by 1e-3 and milliseconds
    are kept, start and step alike; an unrecognised unit is read as
    milliseconds when the step is at least 0.001.  When the step is below
    0.001 the values are taken to be seconds, and the step is scaled by
    1e3; the start, however, is multiplied by 1e-3, which is its value in
    milliseconds only when it is zero. *)
Theorem normalize_time_units (time_head time_step : Q) :
  normalize_time "s" time_head time_step
    = ("s", time_head * 1000, time_step * 1000)%Q /\
  normalize_time "ms" time_head time_step = ("ms", time_head, time_step) /\
  normalize_time "us" time_head time_step
    = ("us", time_head * (1 # 1000), time_step * (1 # 1000))%Q /\
  forall unit : string,
    unit <> "s" -> unit <> "ms" -> unit <> "us" ->
    (~ (time_step < 1 # 1000)%Q ->
     normalize_time unit time_head time_step = ("ms", time_head, time_step)) /\
    ((time_step < 1 # 1000)%Q ->
     normalize_time unit time_head time_step
       = ("ms", time_head * (1 # 1000), time_step * 1000)%Q /\
     (~ (time_head == 0)%Q ->
      ~ (time_head * (1 # 1000) == time_head * 1000)%Q)).
Proof.
  split; [reflexivity |]. split; [reflexivity |]. split; [reflexivity |].
  intros unit Hs Hms Hus.
  assert (Hunit : forall step,
             normalize_time unit time_head step =
             if Qltb step (1 # 1000)
             then ("ms", time_head * (1 # 1000), step * 1000)%Q
             else ("ms", time_head, step)).
  { intros step. unfold normalize_time.
    destruct (String.eqb_spec unit "s"); [contradiction |].
    destruct (String.eqb_spec unit "ms"); [contradiction |].
    destruct (String.eqb_spec unit "us"); [contradiction |].
    reflexivity. }
  rewrite Hunit. unfold Qltb.
  destruct (Qle_bool (1 # 1000) time_step) eqn:Hle; simpl.
  - apply Qle_bool_iff in Hle. split; [reflexivity |].
    intros Hlt. exfalso. apply (Qlt_not_le _ _ Hlt Hle).
  - split.
    + intros Hge. exfalso. apply Hge. apply Qnot_le_lt. intros Hle'.
      apply Qle_bool_iff in Hle'. congruence.
    + intros _. split; [reflexivity |].
      intros Hne Heq. apply Hne. lra.
Qed.

Lemma normalize_time_units_witness :
  normalize_time "sec" 2 (1 # 2000)
    = ("ms", 2 * (1 # 1000), (1 # 2000) * 1000)%Q /\
  ~ (2 * (1 # 1000) == 2 * 1000)%Q.
Proof.
  destruct (normalize_time_units 2 (1 # 2000)) as (_ & _ & _ & H).
  destruct (H "sec") as [_ H'];
    try (intros Heq; discriminate Heq).
  destruct H' as [Hval Hdiff]; [reflexivity |].
  split; [exact Hval |].
  apply Hdiff. intros Heq. discriminate Heq.
Defined.

Lemma item_never_ParseFileError {A} (i : nat) (l : list A) :
  never is_ParseFileError (item i l).
Proof.
  unfold never, item. destruct (nth_error l i); intros e He;
    [discriminate | now injection He as <-].
Qed.

Lemma read_table_never_ParseFileError files ref :
  never is_ParseFileError (read_table files ref).
Proof.
  unfold never, read_table. destruct (find _ files); intros e He;
    [discriminate | now injection He as <-].
Qed.

Lemma load_waveforms_never_ParseFileError files previous srcxfn :
  never is_ParseFileError (load_waveforms files previous srcxfn).
Proof.
  unfold never, load_waveforms. intros e.
  assert (Hread : forall ref,
             (t <- read_table files ref ;; Ok (Some t)) = Raise e ->
             is_ParseFileError e = false).
  { intros ref. destruct (read_table files ref) eqn:Hr; simpl; [discriminate |].
    intros He. injection He as <-. now apply (read_table_never_ParseFileError files ref). }
  destruct (String.eqb _ ".csv").
  - destruct (split ":" srcxfn) as [| a [| m rest]]; try discriminate.
    + apply Hread.
    + destruct (String.eqb _ ".zip"); [apply Hread | discriminate].
  - destruct (String.eqb _ ".xlsx"); [apply Hread | discriminate].
Qed.

Lemma load_waveforms_unsupported files previous srcxfn :
  delimited_text_reference srcxfn = false ->
  spreadsheet_reference srcxfn = false ->
  load_waveforms files previous srcxfn = Ok previous.
Proof.
  unfold delimited_text_reference, spreadsheet_reference, load_waveforms.
  intros Hd Hs.
  destruct (String.eqb _ ".csv"); simpl in Hd.
  - destruct (split ":" srcxfn) as [| a [| m rest]]; try discriminate; try reflexivity.
    now rewrite Hd.
  - now rewrite Hs.
Qed.

(** C5 does not hold of the importer: no reference makes it signal a
    [ParseFileError].  A reference that is neither delimited text nor a
    spreadsheet loads nothing: with no table loaded before, the next
    statement fails on the missing table with an [AttributeError]; with a
    table loaded for another reference, that table is taken for the new
    reference. *)
Theorem unsupported_waveform_reference :
  forall files w srcxfn,
    never is_ParseFileError (waveform_read_from_file files w srcxfn) /\
    (delimited_text_reference srcxfn = false ->
     spreadsheet_reference srcxfn = false ->
     (waveform_read_from_file files no_waveformdata srcxfn
        = Raise (AttributeError "columns")) /\
     (forall table, data w = Some table -> filename w <> srcxfn ->
        load_waveforms files (data w) srcxfn = Ok (Some table))).
Proof.
  intros files w srcxfn. split.
  - unfold never, waveform_read_from_file. intros e.
    destruct (_ || _)%bool; [| discriminate].
    destruct (load_waveforms files (data w) srcxfn) as [loaded | e'] eqn:Hload; simpl.
    + destruct loaded as [table |]; simpl; [| intros He; now injection He as <-].
      destruct (item 0 table) as [c0 | e0] eqn:H0; simpl;
        [| intros He; injection He as <-; now apply (item_never_ParseFileError 0 table)].
      destruct (item 0 (snd c0)) as [x0 | e1] eqn:H1; simpl;
        [| intros He; injection He as <-; now apply (item_never_ParseFileError 0 (snd c0))].
      destruct (item 1 (snd c0)) as [x1 | e2] eqn:H2; simpl;
        [| intros He; injection He as <-; now apply (item_never_ParseFileError 1 (snd c0))].
      destruct (normalize_time _ _ _) as [[u h] st]. discriminate.
    + intros He. injection He as <-.
      now apply (load_waveforms_never_ParseFileError files (data w) srcxfn).
  - intros Hd Hs. split.
    + unfold waveform_read_from_file. simpl filename. simpl data.
      rewrite (load_waveforms_unsupported files None srcxfn Hd Hs). reflexivity.
    + intros table Hdata _. rewrite Hdata.
      now apply load_waveforms_unsupported.
Qed.

Lemma unsupported_waveform_reference_witness :
  waveform_read_from_file [] no_waveformdata "waveforms.xlsx:A01"
    = Raise (AttributeError "columns").
Proof.
  destruct (unsupported_waveform_reference [] no_waveformdata "waveforms.xlsx:A01")
    as [_ H].
  destruct H as [H _]; [reflexivity | reflexivity |].
  exact H.
Defined.

(** ** Duplicates *)

Lemma value_eqb_refl (v : value) : value_eqb v v = true.
Proof.
  destruct v as [s | n | [q |]]; simpl.
  - apply String.eqb_refl.
  - apply Z.eqb_refl.
  - apply Qeq_bool_refl.
  - reflexivity.
Qed.

Lemma same_on_refl {A} `{Row A} (cols : list string) (a : A) :
  same_on cols a a = true.
Proof.
  unfold same_on. apply forallb_forall. intros k _. apply value_eqb_refl.
Qed.

Lemma keep_first_In {A} (eqb : A -> A -> bool) (l seen : list A) (x : A) :
  In x (keep_first eqb seen l) -> In x l.
Proof.
  revert seen; induction l as [| a l IH]; intros seen; simpl; [tauto |].
  destruct (existsb (eqb a) seen).
  - intros Hx. right. now apply (IH seen).
  - intros [-> | Hx]; [now left | right; now apply (IH (a :: seen))].
Qed.

(** Every row is kept or is equal to a row that is. *)
Lemma keep_first_represents {A} (eqb : A -> A -> bool) (l seen : list A) (x : A) :
  (forall a, eqb a a = true) ->
  In x l ->
  exists y, (In y seen \/ In y (keep_first eqb seen l)) /\ eqb x y = true.
Proof.
  intros Hrefl. revert seen; induction l as [| a l IH]; intros seen; simpl; [tauto |].
  intros [-> | Hx].
  - destruct (existsb (eqb x) seen) eqn:Hseen.
    + apply existsb_exists in Hseen as [y [Hy Hxy]]. exists y. tauto.
    + exists x. split; [right; now left | apply Hrefl].
  - destruct (existsb (eqb a) seen) eqn:Hseen.
    + apply (IH seen Hx).
    + destruct (IH (a :: seen) Hx) as [y [[[-> | Hy] | Hy] Hxy]];
        exists y; simpl; tauto.
Qed.

Lemma In_combine_r_exists {A B} (l1 : list A) (l2 : list B) (y : B) :
  length l1 = length l2 -> In y l2 -> exists x, In (x, y) (combine l1 l2).
Proof.
  revert l2; induction l1 as [| a l1 IH]; intros [| b l2]; simpl;
    try discriminate; try tauto.
  intros Hlen [-> | Hy].
  - exists a. now left.
  - injection Hlen as Hlen. destruct (IH l2 Hlen Hy) as [x Hx]. exists x. now right.
Qed.



(** ** from_xlsx: the concentration type of a liquid addition *)






(** ** The round trip *)

(** C1 fails on a trial with a liquid protocol whose concentration is of
    the type the constructor gives by default: the export writes UNKNOWN
    in [CONCT], which the import does not map, so that no trial comes
    back. *)
Theorem round_trip_unknown_concentration :
  forall read_csv_column format_float,
  exists ted,
    to_xlsx read_csv_column (Samples.trial [Samples.unknown_concentration])
            "ted.xlsx" "csv" = Ok ted /\
    map TED_LiquidAddition.CONCT (rows (LiquidAdditions_sheet ted)) = ["UNKNOWN"] /\
    from_xlsx_protocols format_float ted = Raise (KeyError "UNKNOWN").
Proof.
  intros read_csv_column format_float.
  eexists. split; [vm_compute; reflexivity |]. split; reflexivity.
Qed.

(** ** Which exceptions a computation may raise *)

Lemma never_Ok {A} (p : exn -> bool) (a : A) : never p (Ok a).
Proof. intros e He. discriminate. Qed.

Lemma never_Raise {A} (p : exn -> bool) (e : exn) :
  p e = false -> never p (@Raise A e).
Proof. intros Hp e' He. now injection He as <-. Qed.

Lemma never_bind {A B} (p : exn -> bool) (c : outcome A) (k : A -> outcome B) :
  never p c -> (forall a, never p (k a)) -> never p (Py.bind c k).
Proof.
  intros Hc Hk e. destruct c as [a | e']; simpl.
  - apply Hk.
  - intros He. injection He as <-. now apply Hc.
Qed.

Lemma never_for_each {A S} (p : exn -> bool) (body : S -> A -> outcome S)
  (xs : list A) :
  (forall st x, never p (body st x)) -> forall st, never p (for_each body xs st).
Proof.
  intros Hbody. induction xs as [| x xs IH]; intros st; simpl.
  - apply never_Ok.
  - apply never_bind; [apply Hbody | exact IH].
Qed.

Lemma never_map_outcome {A B} (p : exn -> bool) (f : A -> outcome B) (l : list A) :
  (forall x, never p (f x)) -> never p (map_outcome f l).
Proof.
  intros Hf. induction l as [| x l IH]; simpl.
  - apply never_Ok.
  - apply never_bind; [apply Hf |]. intros y.
    apply never_bind; [exact IH |]. intros ys. apply never_Ok.
Qed.

Lemma never_first {A} (p : exn -> bool) (l : list A) :
  p IndexError = false -> never p (first l).
Proof. intros Hp. destruct l; [now apply never_Raise | apply never_Ok]. Qed.

Lemma never_last {A} (p : exn -> bool) (l : list A) :
  p IndexError = false -> never p (last l).
Proof.
  intros Hp. unfold last. destruct (rev l); [now apply never_Raise | apply never_Ok].
Qed.

Lemma never_sort_values {A} `{Row A} (p : exn -> bool) by_ (df : DataFrame A) :
  (forall k, p (KeyError k) = false) -> never p (sort_values by_ df).
Proof.
  intros Hp. unfold sort_values.
  destruct (find _ by_); [now apply never_Raise | apply never_Ok].
Qed.

Lemma never_drop {A} (p : exn -> bool) label (df : DataFrame A) :
  (forall k, p (KeyError k) = false) -> never p (drop label df).
Proof.
  intros Hp. unfold drop.
  destruct (mem label (columns df)); [apply never_Ok | now apply never_Raise].
Qed.

(** Steps that close a goal [never p c] by the shape of [c]. *)
Ltac never_step :=
  lazymatch goal with
  | |- never _ (Ok _) => apply never_Ok
  | |- never _ (Raise _) => apply never_Raise; reflexivity
  | |- never _ (first _) => apply never_first; reflexivity
  | |- never _ (last _) => apply never_last; reflexivity
  | |- never _ (sort_values _ _) => apply never_sort_values; reflexivity
  | |- never _ (drop _ _) => apply never_drop; reflexivity
  | |- never _ (Py.bind _ _) => apply never_bind; [| intros ?]
  | |- never _ (for_each _ _ _) => apply never_for_each; intros ? ?
  | |- never _ (map_outcome _ _) => apply never_map_outcome; intros ?
  | |- never _ (match ?x with _ => _ end) => destruct x
  end.

Ltac never_auto := repeat never_step.

(** The only [EncapsulatedDataFileError] of the exporter is the one of
    the choice on [edformat]. *)
Lemma general_information_never_edfe trial :
  never is_EncapsulatedDataFileError (general_information trial).
Proof. unfold general_information. never_auto. Qed.

Lemma timeseries_to_df_never_edfe read w includetime :
  never is_EncapsulatedDataFileError (timeseries_to_df read w includetime).
Proof. unfold timeseries_to_df, digits_from_file. never_auto. Qed.

Lemma voltage_command_dataframe_never_edfe read trial :
  never is_EncapsulatedDataFileError (voltage_command_dataframe read trial).
Proof.
  unfold voltage_command_dataframe. never_auto.
  apply timeseries_to_df_never_edfe.
Qed.

Lemma experiment_tables_never_edfe trial exp :
  never is_EncapsulatedDataFileError (experiment_tables trial exp).
Proof.
  unfold experiment_tables, exp_las_of, cell_id, ljp_of, iloc_last.
  never_auto; try (unfold cursor_definition; never_auto).
  - unfold result_wide. never_auto. unfold inject_cursor. never_auto.
  - unfold liquid_addition_step, iloc_first, iloc_last. never_auto.
Qed.

Lemma dataframes_never_edfe trial :
  never is_EncapsulatedDataFileError (cells_cursors_liquids_results_dataframes trial).
Proof.
  unfold cells_cursors_liquids_results_dataframes. never_auto.
  apply experiment_tables_never_edfe.
Qed.

Lemma waveforms_to_df_never_edfe read ws :
  never is_EncapsulatedDataFileError (waveforms_to_df read ws).
Proof.
  unfold waveforms_to_df. never_auto; apply timeseries_to_df_never_edfe.
Qed.

Lemma results_to_df_never_edfe read results :
  never is_EncapsulatedDataFileError (results_to_df read results).
Proof.
  unfold results_to_df.
  destruct (waveforms_until_none results) as [ws missing].
  destruct missing; [| apply waveforms_to_df_never_edfe].
  destruct ws as [| w ws]; [never_auto |].
  apply never_bind; [apply waveforms_to_df_never_edfe |].
  intros _. never_auto.
Qed.

Lemma export_waveforms_never_edfe read reference st exp :
  never is_EncapsulatedDataFileError (export_waveforms read reference st exp).
Proof.
  unfold export_waveforms, cell_id. never_auto.
  apply results_to_df_never_edfe.
Qed.

(** ** Export without experiments *)

Lemma dataframes_without_experiments trial :
  Trial.experiments trial = [] ->
  cells_cursors_liquids_results_dataframes trial = Raise (KeyError "STIME").
Proof.
  intros Hexp. unfold cells_cursors_liquids_results_dataframes.
  rewrite Hexp. reflexivity.
Qed.

(** C9 fails: on a trial without experiments the table of liquid
    additions has no column to sort by, and the export ends in a
    [KeyError] before anything is written; the empty list is provided for
    in the cell properties alone. *)
Theorem export_without_experiments :
  forall read_csv_column trial ted_xlsx_filename edformat,
    Trial.experiments trial = [] ->
    cells_cursors_liquids_results_dataframes trial = Raise (KeyError "STIME") /\
    (forall ted,
        to_xlsx read_csv_column trial ted_xlsx_filename edformat <> Ok ted) /\
    (is_ok (general_information trial) = true ->
     is_ok (voltage_command_dataframe read_csv_column trial) = true ->
     to_xlsx read_csv_column trial ted_xlsx_filename edformat
       = Raise (KeyError "STIME")).
Proof.
  intros read trial fn fmt Hexp.
  pose proof (dataframes_without_experiments trial Hexp) as Hdf.
  split; [exact Hdf |]. unfold to_xlsx. rewrite Hdf.
  split.
  - intros ted.
    destruct (general_information trial); simpl; [| discriminate].
    destruct (voltage_command_dataframe read trial); simpl; discriminate.
  - destruct (general_information trial); simpl; [| discriminate].
    destruct (voltage_command_dataframe read trial); simpl; [reflexivity | discriminate].
Qed.

Lemma export_without_experiments_witness :
  to_xlsx Samples.no_file (Samples.trial []) "ted.xlsx" "csv"
    = Raise (KeyError "STIME").
Proof.
  destruct (export_without_experiments Samples.no_file (Samples.trial [])
              "ted.xlsx" "csv" eq_refl) as (_ & _ & H).
  apply H; reflexivity.
Defined.

(** ** The format of the encapsulated data *)

Lemma encapsulated_data_unsupported read trial edformat la_df :
  ~ In edformat ["csv"; "zip"; "xlsx"] ->
  encapsulated_data read trial edformat la_df
    = Raise (EncapsulatedDataFileError edformat
               "Unsopported file format for encapsulated data").
Proof.
  intros Hfmt. unfold encapsulated_data.
  destruct (String.eqb_spec edformat "csv") as [-> | _]; [exfalso; apply Hfmt; simpl; tauto |].
  destruct (String.eqb_spec edformat "zip") as [-> | _]; [exfalso; apply Hfmt; simpl; tauto |].
  destruct (String.eqb_spec edformat "xlsx") as [-> | _]; [exfalso; apply Hfmt; simpl; tauto |].
  reflexivity.
Qed.

Lemma encapsulated_data_raises read trial edformat la_df f m :
  encapsulated_data read trial edformat la_df
    = Raise (EncapsulatedDataFileError f m) ->
  f = edformat /\ ~ In edformat ["csv"; "zip"; "xlsx"].
Proof.
  unfold encapsulated_data.
  assert (Hloop : forall reference,
             for_each (export_waveforms read reference) (Trial.experiments trial)
                      (la_df, [])
               <> Raise (EncapsulatedDataFileError f m)).
  { intros reference Heq.
    assert (Hnever := never_for_each is_EncapsulatedDataFileError
                        (export_waveforms read reference) (Trial.experiments trial)
                        (export_waveforms_never_edfe read reference) (la_df, [])).
    specialize (Hnever _ Heq). discriminate. }
  destruct (String.eqb_spec edformat "csv") as [-> | Hcsv]; [intros H; now apply Hloop in H |].
  destruct (String.eqb_spec edformat "zip") as [-> | Hzip]; [intros H; now apply Hloop in H |].
  destruct (String.eqb_spec edformat "xlsx") as [-> | Hxlsx]; [intros H; now apply Hloop in H |].
  intros H. injection H as <- _. split; [reflexivity |].
  simpl. intuition congruence.
Qed.

(** C4, as stated, fails: the choice on [edformat] comes after the
    tables are built, so that on a trial without study an unsupported
    format ends in the error of the missing study. *)
Lemma unsupported_format_on_bare_trial :
  ~ ((exists message,
         to_xlsx Samples.no_file Samples.bare_trial "ted.xlsx" "foo"
           = Raise (EncapsulatedDataFileError "foo" message))
     <-> ~ In "foo" ["csv"; "zip"; "xlsx"]).
Proof.
  intros [_ H].
  destruct H as [message Hraise].
  - simpl. intros [H | [H | [H | []]]]; discriminate.
  - vm_compute in Hraise. discriminate.
Qed.

(** C4, amended: an [EncapsulatedDataFileError] of the export carries the
    requested format, and this format is none of csv, zip and xlsx; when
    the general information, the intended voltage protocol and the four
    tables are built without error, the export raises this error if and
    only if the format is none of the three. *)
Theorem unsupported_edformat :
  forall read_csv_column trial ted_xlsx_filename edformat,
    (forall filename message,
        to_xlsx read_csv_column trial ted_xlsx_filename edformat
          = Raise (EncapsulatedDataFileError filename message) ->
        filename = edformat /\ ~ In edformat ["csv"; "zip"; "xlsx"]) /\
    (is_ok (general_information trial) = true ->
     is_ok (voltage_command_dataframe read_csv_column trial) = true ->
     is_ok (cells_cursors_liquids_results_dataframes trial) = true ->
     ((exists message,
          to_xlsx read_csv_column trial ted_xlsx_filename edformat
            = Raise (EncapsulatedDataFileError edformat message))
      <-> ~ In edformat ["csv"; "zip"; "xlsx"])).
Proof.
  intros read trial fn fmt.
  assert (Hraises : forall filename message,
             to_xlsx read trial fn fmt
               = Raise (EncapsulatedDataFileError filename message) ->
             filename = fmt /\ ~ In fmt ["csv"; "zip"; "xlsx"]).
  { intros f m. unfold to_xlsx.
    destruct (general_information trial) as [gi | e] eqn:Hgi; simpl.
    2:{ intros H. injection H as ->.
        now pose proof (general_information_never_edfe trial _ Hgi). }
    destruct (voltage_command_dataframe read trial) as [ivp | e] eqn:Hivp; simpl.
    2:{ intros H. injection H as ->.
        now pose proof (voltage_command_dataframe_never_edfe read trial _ Hivp). }
    destruct (cells_cursors_liquids_results_dataframes trial) as [dfs | e] eqn:Hdfs; simpl.
    2:{ intros H. injection H as ->.
        now pose proof (dataframes_never_edfe trial _ Hdfs). }
    destruct (encapsulated_data read trial fmt (LiquidAdditions dfs)) as [w | e] eqn:Hw;
      simpl; [discriminate |].
    intros H. injection H as ->.
    now apply encapsulated_data_raises in Hw. }
  split; [exact Hraises |].
  intros Hgi Hivp Hdfs. split.
  - intros [message H]. now apply Hraises in H.
  - intros Hfmt. eexists. unfold to_xlsx.
    destruct (general_information trial); [| discriminate].
    destruct (voltage_command_dataframe read trial); [| discriminate].
    destruct (cells_cursors_liquids_results_dataframes trial); [| discriminate].
    cbn [Py.bind]. rewrite (encapsulated_data_unsupported _ _ _ _ Hfmt). reflexivity.
Qed.

Lemma unsupported_edformat_witness :
  (exists message,
      to_xlsx Samples.no_file (Samples.trial [Samples.one_addition]) "ted.xlsx" "hdf5"
        = Raise (EncapsulatedDataFileError "hdf5" message))
  <-> ~ In "hdf5" ["csv"; "zip"; "xlsx"].
Proof.
  apply (proj2 (unsupported_edformat Samples.no_file
                  (Samples.trial [Samples.one_addition]) "ted.xlsx" "hdf5"));
    vm_compute; reflexivity.
Defined.

(** ** Sorting *)

Section StableSort.

Context {A : Type} (leb : A -> A -> bool).

Lemma insert_perm (x : A) (l : list A) : Permutation (insert leb x l) (x :: l).
Proof.
  induction l as [| y l IH]; simpl; [reflexivity |].
  destruct (leb x y); [reflexivity |].
  rewrite IH. apply perm_swap.
Qed.

Lemma stable_sort_perm (l : list A) : Permutation (stable_sort leb l) l.
Proof.
  induction l as [| x l IH]; simpl; [reflexivity |].
  rewrite insert_perm. now constructor.
Qed.

Lemma stable_sort_In (l : list A) (x : A) : In x (stable_sort leb l) <-> In x l.
Proof.
  split; apply Permutation_in;
    [apply stable_sort_perm | symmetry; apply stable_sort_perm].
Qed.

Hypothesis leb_total : forall a b, leb a b = false -> leb b a = true.

Lemma insert_sorted (x : A) (l : list A) :
  Sorted (fun a b => leb a b = true) l ->
  Sorted (fun a b => leb a b = true) (insert leb x l).
Proof.
  induction l as [| y l IH]; simpl; intros Hs.
  - repeat constructor.
  - destruct (leb x y) eqn:Hxy.
    + constructor; [exact Hs | now constructor].
    + inversion Hs as [| ? ? Hs' Hhd]; subst.
      constructor; [now apply IH |].
      destruct l as [| z l]; simpl.
      * constructor. now apply leb_total.
      * destruct (leb x z); constructor.
        -- now apply leb_total.
        -- now inversion Hhd.
Qed.

Lemma stable_sort_sorted (l : list A) :
  Sorted (fun a b => leb a b = true) (stable_sort leb l).
Proof.
  induction l as [| x l IH]; simpl; [constructor | now apply insert_sorted].
Qed.

(** Sorting a sorted list changes nothing. *)
Lemma stable_sort_id (l : list A) :
  Sorted (fun a b => leb a b = true) l -> stable_sort leb l = l.
Proof.
  induction l as [| x l IH]; simpl; intros Hs; [reflexivity |].
  inversion Hs as [| ? ? Hs' Hhd]; subst.
  rewrite (IH Hs'). destruct l as [| y l]; simpl; [reflexivity |].
  inversion Hhd as [| ? ? Hxy]; subst. now rewrite Hxy.
Qed.

End StableSort.

Lemma value_compare_antisym (a b : value) :
  value_compare a b = CompOpp (value_compare b a).
Proof.
  destruct a as [s | m | [p |]], b as [t | n | [q |]]; simpl; try reflexivity.
  - apply String.compare_antisym.
  - apply Z.compare_antisym.
  - symmetry. apply Qcompare_antisym.
  - symmetry. apply Qcompare_antisym.
  - symmetry. apply Qcompare_antisym.
Qed.

Lemma lex_leb_total {A} `{Row A} (by_ : list string) (a b : A) :
  lex_leb by_ a b = false -> lex_leb by_ b a = true.
Proof.
  induction by_ as [| k ks IH]; simpl; [discriminate |].
  rewrite (value_compare_antisym (get b k) (get a k)).
  destruct (value_compare (get a k) (get b k)); simpl; auto; discriminate.
Qed.

Lemma StronglySorted_filter {A} (R : A -> A -> Prop) (p : A -> bool) (l : list A) :
  StronglySorted R l -> StronglySorted R (filter p l).
Proof.
  induction 1 as [| x l Hs IH Hx]; simpl; [constructor |].
  destruct (p x); [| exact IH].
  constructor; [exact IH |].
  apply Forall_forall. intros y Hy. apply filter_In in Hy as [Hy _].
  now apply (proj1 (Forall_forall _ _) Hx).
Qed.

Lemma StronglySorted_keep_first {A} (R : A -> A -> Prop) (eqb : A -> A -> bool)
  (l seen : list A) :
  StronglySorted R l -> StronglySorted R (keep_first eqb seen l).
Proof.
  intros Hs. revert seen. induction Hs as [| x l Hs IH Hx]; intros seen; simpl;
    [constructor |].
  destruct (existsb (eqb x) seen); [apply IH |].
  constructor; [apply IH |].
  apply Forall_forall. intros y Hy. apply keep_first_In in Hy.
  now apply (proj1 (Forall_forall _ _) Hx).
Qed.

Lemma StronglySorted_last {A} (R : A -> A -> Prop) (l : list A) (x : A) :
  StronglySorted R (l ++ [x]) -> Forall (fun y => R y x) l.
Proof.
  induction l as [| y l IH]; simpl; intros Hs; [constructor |].
  inversion Hs as [| ? ? Hs' Hy]; subst.
  constructor; [| now apply IH].
  apply (proj1 (Forall_forall _ _) Hy). apply in_or_app. right. now left.
Qed.

(** ** Columns *)

Lemma mem_In (k : string) (ks : list string) : mem k ks = true <-> In k ks.
Proof.
  unfold mem. rewrite existsb_exists. split.
  - intros [x [Hx Hk]]. apply String.eqb_eq in Hk. now subst.
  - intros Hk. exists k. split; [exact Hk | apply String.eqb_refl].
Qed.

Lemma add_labels_In (seen ks : list string) (k : string) :
  In k (add_labels seen ks) <-> In k seen \/ In k ks.
Proof.
  revert seen; induction ks as [| x ks IH]; intros seen; simpl; [tauto |].
  rewrite IH. destruct (mem x seen) eqn:Hx.
  - apply mem_In in Hx. split; [tauto |]. intros [H | [<- | H]]; tauto.
  - rewrite in_app_iff. simpl. tauto.
Qed.

Lemma fold_add_labels_In {A} `{Row A} (data : list A) (seen : list string) (k : string) :
  In k (fold_left (fun seen r => add_labels seen (keys r)) data seen)
  <-> In k seen \/ exists r, In r data /\ In k (keys r).
Proof.
  revert seen; induction data as [| r data IH]; intros seen; simpl.
  - split; [tauto |]. intros [Hk | [r [[] _]]]. exact Hk.
  - rewrite IH, add_labels_In. split.
    + intros [[Hk | Hk] | [r' [Hr' Hk]]]; eauto.
    + intros [Hk | [r' [[<- | Hr'] Hk]]]; eauto.
Qed.

Lemma from_records_columns {A} `{Row A} (data : list A) (k : string) :
  In k (columns (from_records data)) <-> exists r, In r data /\ In k (keys r).
Proof.
  unfold from_records. simpl. rewrite fold_add_labels_In. simpl. tauto.
Qed.

Lemma sort_values_ok {A} `{Row A} (by_ : list string) (df : DataFrame A) :
  (forall k, In k by_ -> In k (columns df)) ->
  sort_values by_ df
    = Ok {| columns := columns df; rows := stable_sort (lex_leb by_) (rows df) |}.
Proof.
  intros Hby. unfold sort_values.
  destruct (find _ by_) as [k |] eqn:Hfind; [| reflexivity].
  apply find_some in Hfind as [Hk Hmem].
  apply Hby, mem_In in Hk. rewrite Hk in Hmem. discriminate.
Qed.

(** ** The loop over the liquid additions *)

Lemma set_last_snoc {A} (f : A -> A) (l : list A) (x : A) :
  set_last f (l ++ [x]) = l ++ [f x].
Proof.
  induction l as [| y l IH]; simpl; [reflexivity |].
  rewrite IH. destruct l; reflexivity.
Qed.

Lemma set_last_length {A} (f : A -> A) (l : list A) :
  length (set_last f l) = length l.
Proof.
  induction l as [| y l IH]; simpl; [reflexivity |].
  destruct l; simpl in *; [reflexivity | now rewrite IH].
Qed.

Lemma set_last_not_nil {A} (f : A -> A) (l : list A) :
  l <> [] -> set_last f l <> [].
Proof. destruct l as [| y [| z l]]; simpl; congruence. Qed.

Lemma ranged_with_execution la tmp es e n :
  ranged (with_execution e n la) tmp es = ranged la tmp es.
Proof.
  induction es as [| e' es IH]; simpl; [reflexivity |].
  now rewrite IH.
Qed.

Lemma filter_not_nil {A} (p : A -> bool) (l : list A) :
  (exists x, In x l /\ p x = true) -> filter p l <> [].
Proof.
  intros [x [Hx Hp]] Hnil.
  assert (Hin : In x (filter p l)) by (apply filter_In; tauto).
  rewrite Hnil in Hin. destruct Hin.
Qed.

Section Loop.

Variable tmp : DataFrame TED_ResultWide.t.

Let from_ (e : LiquidExecution.t) : Prop :=
  exists r, In r (rows tmp) /\
            Qgeb (TED_ResultWide.ELTIME r) (LiquidExecution.TIME e) = true.

Let before_ (e : LiquidExecution.t) : Prop :=
  exists r, In r (rows tmp) /\
            Qltb (TED_ResultWide.ELTIME r) (LiquidExecution.TIME e) = true.

Lemma liquid_addition_step_first la e :
  from_ e ->
  liquid_addition_step tmp (la, []) e
    = Ok (with_execution e (first_from (rows tmp) (LiquidExecution.TIME e)) la,
          [with_execution e (first_from (rows tmp) (LiquidExecution.TIME e)) la]).
Proof.
  intros Hfrom. apply filter_not_nil in Hfrom.
  unfold liquid_addition_step, iloc_first, where_, first_from. simpl rows.
  destruct (filter _ (rows tmp)) as [| r0 rest]; [congruence |]. reflexivity.
Qed.

Lemma liquid_addition_step_next la acc e :
  acc <> [] -> from_ e -> before_ e ->
  liquid_addition_step tmp (la, acc) e
    = Ok (with_execution e (first_from (rows tmp) (LiquidExecution.TIME e)) la,
          set_last (TED_LiquidAddition.with_LAST
                      (last_before (rows tmp) (LiquidExecution.TIME e))) acc
          ++ [with_execution e (first_from (rows tmp) (LiquidExecution.TIME e)) la]).
Proof.
  intros Hacc Hfrom Hbefore.
  apply filter_not_nil in Hfrom. apply filter_not_nil in Hbefore.
  unfold liquid_addition_step, iloc_first, iloc_last, where_, first_from,
    last_before, last.
  simpl rows.
  destruct (filter _ (rows tmp)) as [| r0 rest]; [congruence |].
  cbn [first Py.bind].
  assert (Hlen : (0 <? length acc)%nat = true).
  { destruct acc; [congruence | reflexivity]. }
  rewrite Hlen.
  destruct (rev (filter _ (rows tmp))) as [| r1 rest'] eqn:Hrev.
  - exfalso. apply Hbefore. apply (f_equal (@rev _)) in Hrev.
    now rewrite rev_involutive in Hrev.
  - reflexivity.
Qed.

Lemma liquid_additions_loop_next es :
  forall la acc,
    acc <> [] ->
    (forall e, In e es -> from_ e /\ before_ e) ->
    exists la',
      for_each (liquid_addition_step tmp) es (la, acc)
        = Ok (la',
              match es with
              | [] => acc
              | e :: _ =>
                  set_last (TED_LiquidAddition.with_LAST
                              (last_before (rows tmp) (LiquidExecution.TIME e))) acc
              end ++ ranged la (rows tmp) es).
Proof.
  induction es as [| e es IH]; intros la acc Hacc Hes.
  - exists la. simpl. now rewrite app_nil_r.
  - destruct (Hes e (or_introl eq_refl)) as [Hfrom Hbefore].
    cbn [for_each]. rewrite (liquid_addition_step_next la acc e Hacc Hfrom Hbefore).
    cbn [Py.bind].
    set (la1 := with_execution e _ la).
    set (acc1 := set_last _ acc).
    destruct (IH la1 (acc1 ++ [la1])) as [la' Hloop].
    + destruct acc1; discriminate.
    + intros e' He'. apply Hes. now right.
    + exists la'. rewrite Hloop. f_equal. f_equal.
      assert (Hr : ranged la1 (rows tmp) es = ranged la (rows tmp) es)
        by apply ranged_with_execution.
      rewrite Hr.
      destruct es as [| e' es']; cbn [ranged].
      * rewrite app_nil_r. reflexivity.
      * rewrite set_last_snoc, <- app_assoc. reflexivity.
Qed.

(** The loop from the empty list: every addition needs a trace at or
    after it, every addition but the first a trace before it. *)
Lemma liquid_additions_loop la es :
  (forall e, In e es -> from_ e) ->
  (forall e, In e (tl es) -> before_ e) ->
  exists la',
    for_each (liquid_addition_step tmp) es (la, []) = Ok (la', ranged la (rows tmp) es).
Proof.
  destruct es as [| e es]; intros Hfrom Hbefore.
  - now exists la.
  - cbn [for_each].
    rewrite (liquid_addition_step_first la e (Hfrom e (or_introl eq_refl))).
    cbn [Py.bind].
    set (la1 := with_execution e _ la).
    destruct (liquid_additions_loop_next es la1 [la1]) as [la' Hloop].
    + discriminate.
    + intros e' He'. split; [apply Hfrom; now right | now apply Hbefore].
    + exists la'. rewrite Hloop. f_equal. f_equal.
      assert (Hr : ranged la1 (rows tmp) es = ranged la (rows tmp) es)
        by apply ranged_with_execution.
      rewrite Hr.
      destruct es as [| e' es']; reflexivity.
Qed.

End Loop.

(** ** The tables of an experiment *)

Lemma map_outcome_ok {A B} (f : A -> outcome B) (g : A -> B) (l : list A) :
  (forall x, In x l -> f x = Ok (g x)) -> map_outcome f l = Ok (map g l).
Proof.
  induction l as [| x l IH]; simpl; intros Hf; [reflexivity |].
  rewrite (Hf x (or_introl eq_refl)). simpl.
  rewrite IH; [reflexivity |]. intros y Hy. apply Hf. now right.
Qed.

Lemma map_outcome_is_ok {A B} (f : A -> outcome B) (l : list A) :
  (forall x, In x l -> is_ok (f x) = true) -> exists l', map_outcome f l = Ok l'.
Proof.
  induction l as [| x l IH]; simpl; intros Hf; [eauto |].
  pose proof (Hf x (or_introl eq_refl)) as Hx.
  destruct (f x) as [y |]; [| discriminate]. simpl.
  destruct IH as [l' ->]; [intros z Hz; apply Hf; now right |].
  simpl. eauto.
Qed.

Lemma for_each_inject_cursor (cs : list Cursor.t) :
  Forall (fun rc => Cursor.result rc <> None) cs ->
  forall d,
    for_each inject_cursor cs d
      = Ok (fold_left
              (fun d rc =>
                 dict_set (Cursor.name rc)
                          (match Cursor.result rc with
                           | Some cr => CursorResult.value cr
                           | None => NaN
                           end) d) cs d).
Proof.
  induction 1 as [| rc cs Hrc _ IH]; intros d; simpl; [reflexivity |].
  unfold inject_cursor at 1. destruct (Cursor.result rc); [| congruence].
  simpl. apply IH.
Qed.

Lemma result_wide_ok expid cellid rs res :
  Result.waveform res <> None /\
  Result.cursors res <> None /\
  Forall (fun rc => Cursor.result rc <> None) (evaluated_cursors res) ->
  result_wide expid cellid rs res = Ok (wide_row expid cellid rs res).
Proof.
  intros (Hw & Hc & Hcs).
  unfold result_wide, wide_row, waveform_file, evaluated_cursors in *.
  destruct (Result.waveform res) as [w |]; [| congruence].
  destruct (Result.cursors res) as [cs |]; [| congruence].
  cbn [Py.bind]. rewrite (for_each_inject_cursor _ Hcs). reflexivity.
Qed.

Lemma add_labels_known (ks seen : list string) :
  (forall k, In k ks -> In k seen) -> add_labels seen ks = seen.
Proof.
  revert seen; induction ks as [| k ks IH]; intros seen Hks; simpl; [reflexivity |].
  assert (Hk : mem k seen = true) by (apply mem_In, Hks; now left).
  rewrite Hk. apply IH. intros k' Hk'. apply Hks. now right.
Qed.

Lemma exp_las_of_ok exp :
  exec_ps (Experiment.protocols exp) <> [] ->
  exp_las_of exp
    = Ok {| columns := LiquidExecution_labels;
            rows := additions_in_time_order exp |}.
Proof.
  intros Hne. unfold exp_las_of, additions_in_time_order.
  assert (Hcols : columns (from_records (exec_ps (Experiment.protocols exp)))
                  = LiquidExecution_labels).
  { unfold from_records. simpl.
    destruct (exec_ps (Experiment.protocols exp)) as [| e es]; [congruence |].
    simpl.
    assert (Hfold : forall (es : list LiquidExecution.t) (seen : list string),
               seen = LiquidExecution_labels ->
               fold_left (fun seen r => add_labels seen (keys r)) es seen
                 = LiquidExecution_labels).
    { clear. induction es as [| e' es IH]; intros seen ->; simpl; [reflexivity |].
      apply IH. reflexivity. }
    apply Hfold. reflexivity. }
  rewrite sort_values_ok.
  - cbn [Py.bind]. unfold drop_duplicates. cbn [columns rows].
    rewrite Hcols. reflexivity.
  - rewrite Hcols. intros k [<- | []]. simpl. tauto.
Qed.

Lemma exp_las_of_empty exp :
  exec_ps (Experiment.protocols exp) = [] ->
  exp_las_of exp = Raise (KeyError "TIME").
Proof.
  intros Hnil. unfold exp_las_of. now rewrite Hnil.
Qed.

Lemma range_of_populate tmp x : range_of (populate tmp x) = range_of x.
Proof. reflexivity. Qed.

Lemma ranges_of_ranged la tmp es :
  map range_of
      (set_last (TED_LiquidAddition.with_LAST (last_trace tmp)) (ranged la tmp es))
    = ranges tmp es.
Proof.
  induction es as [| e es IH]; [reflexivity |].
  destruct es as [| e' es'].
  - reflexivity.
  - change (ranged la tmp (e :: e' :: es'))
      with (TED_LiquidAddition.with_LAST
              (last_before tmp (LiquidExecution.TIME e'))
              (with_execution e (first_from tmp (LiquidExecution.TIME e)) la)
            :: ranged la tmp (e' :: es')).
    change (ranges tmp (e :: e' :: es'))
      with ((first_from tmp (LiquidExecution.TIME e),
             last_before tmp (LiquidExecution.TIME e')) :: ranges tmp (e' :: es')).
    rewrite <- IH.
    destruct (ranged la tmp (e' :: es')) eqn:Hr; [discriminate Hr |].
    reflexivity.
Qed.


Lemma cell_id_ok rs :
  Cell.id (Results.cell rs) <> None -> cell_id rs = Ok (cell_label rs).
Proof.
  unfold cell_id, cell_label.
  destruct (Cell.id (Results.cell rs)); [reflexivity | congruence].
Qed.

Lemma cell_id_inv rs s :
  cell_id rs = Ok s -> s = cell_label rs /\ Cell.id (Results.cell rs) <> None.
Proof.
  unfold cell_id, cell_label.
  destruct (Cell.id (Results.cell rs)); intros H; [| congruence].
  split; congruence.
Qed.

Lemma wide_rows_columns exp rs k :
  wide_rows exp rs <> [] ->
  In k ["EXPID"; "CELLID"; "ELTIME"; "TRACENUM"] ->
  In k (columns (from_records (wide_rows exp rs))).
Proof.
  intros Hne Hk. apply from_records_columns.
  destruct (wide_rows exp rs) as [| r rest]; [congruence |].
  exists r. split; [now left |].
  simpl in Hk |- *. intuition (subst; tauto).
Qed.

Lemma ranged_not_nil la tmp es : es <> [] -> ranged la tmp es <> [].
Proof. destruct es; simpl; congruence. Qed.

Lemma additions_of_ranged la tmp es g n :
  (forall x e, addition_of e x -> addition_of e (g x)) ->
  Forall2 addition_of es
          (map g (set_last (TED_LiquidAddition.with_LAST n) (ranged la tmp es))).
Proof.
  intros Hg. induction es as [| e es IH]; [constructor |].
  destruct es as [| e' es'].
  - simpl. constructor; [| constructor]. apply Hg. repeat split.
  - change (ranged la tmp (e :: e' :: es'))
      with (TED_LiquidAddition.with_LAST
              (last_before tmp (LiquidExecution.TIME e'))
              (with_execution e (first_from tmp (LiquidExecution.TIME e)) la)
            :: ranged la tmp (e' :: es')).
    destruct (ranged la tmp (e' :: es')) eqn:Hr; [discriminate Hr |].
    cbn [set_last map]. constructor; [| exact IH].
    apply Hg. repeat split.
Qed.

(** What [experiment_tables] returns when every addition has a trace at
    or after it and every addition but the first a trace before it. *)
Lemma experiment_tables_ok trial exp rs others :
  Experiment.resultsSet exp = rs :: others ->
  exportable trial rs ->
  additions_in_time_order exp <> [] ->
  (forall e, In e (additions_in_time_order exp) ->
     exists r, In r (sorted_traces exp rs) /\
               Qgeb (TED_ResultWide.ELTIME r) (LiquidExecution.TIME e) = true) ->
  (forall e, In e (tl (additions_in_time_order exp)) ->
     exists r, In r (sorted_traces exp rs) /\
               Qltb (TED_ResultWide.ELTIME r) (LiquidExecution.TIME e) = true) ->
  exists t,
    experiment_tables trial exp = Ok t /\
    map range_of (liquid_adds t)
      = ranges (sorted_traces exp rs) (additions_in_time_order exp) /\
    Forall2 addition_of (additions_in_time_order exp) (liquid_adds t).
Proof.
  intros Hrs (Hcell & Hljp & Hcdefs & Hcurs) Hes Hfrom Hbefore.
  assert (Hexec : exec_ps (Experiment.protocols exp) <> []).
  { intros Hnil. apply Hes. unfold additions_in_time_order. now rewrite Hnil. }
  assert (Htmp : sorted_traces exp rs <> []).
  { destruct (additions_in_time_order exp) as [| e es]; [congruence |].
    destruct (Hfrom e (or_introl eq_refl)) as [r [Hr _]].
    intros Hnil. rewrite Hnil in Hr. destruct Hr. }
  assert (Hwide : wide_rows exp rs <> []).
  { intros Hnil. apply Htmp. unfold sorted_traces. now rewrite Hnil. }
  unfold experiment_tables. rewrite Hrs. cbn [first Py.bind].
  assert (Hc : exists cdefs,
             match Results.cursors rs with
             | Some cs => map_outcome cursor_definition cs
             | None => Ok []
             end = Ok cdefs).
  { destruct (Results.cursors rs) as [cs |]; [| eauto].
    apply map_outcome_is_ok. intros c Hc.
    specialize (Hcdefs cs eq_refl).
    rewrite Forall_forall in Hcdefs. specialize (Hcdefs c Hc).
    unfold cursor_definition. destruct (Cursor.type c); [reflexivity | congruence]. }
  destruct Hc as [cdefs ->]. cbn [Py.bind].
  rewrite (cell_id_ok rs Hcell). cbn [Py.bind].
  assert (Hl : exists ljp, ljp_of trial rs = Ok ljp).
  { unfold ljp_of. destruct (Results.ljp rs); [eauto |].
    destruct (Trial.ljp trial); [eauto |]. destruct Hljp; congruence. }
  destruct Hl as [ljp ->]. cbn [Py.bind].
  rewrite (exp_las_of_ok exp Hexec). cbn [Py.bind].
  rewrite (map_outcome_ok _ (wide_row (composite_id (Experiment.id exp))
                                      (cell_label rs) rs)).
  2:{ intros res Hres. apply result_wide_ok.
      rewrite Forall_forall in Hcurs. now apply Hcurs. }
  cbn [Py.bind]. fold (wide_rows exp rs).
  rewrite sort_values_ok
    by (intros k Hk; apply wide_rows_columns; assumption).
  cbn [Py.bind].
  set (tmp := {| columns := columns (from_records (wide_rows exp rs));
                 rows := stable_sort _ _ |}).
  change (rows {| columns := LiquidExecution_labels;
                  rows := additions_in_time_order exp |})
    with (additions_in_time_order exp).
  set (la := TED_LiquidAddition.with_header _ _ _ _ _ _).
  destruct (liquid_additions_loop tmp la (additions_in_time_order exp) Hfrom Hbefore)
    as [la' Hloop].
  rewrite Hloop. cbn [Py.bind snd].
  unfold iloc_last, last.
  change (rows tmp) with (sorted_traces exp rs).
  destruct (rev (sorted_traces exp rs)) as [| rl rest] eqn:Hrev.
  { exfalso. apply Htmp. apply (f_equal (@rev _)) in Hrev.
    now rewrite rev_involutive in Hrev. }
  cbn [Py.bind].
  pose proof (ranged_not_nil la (sorted_traces exp rs) _ Hes) as Hranged.
  destruct (ranged la (sorted_traces exp rs) (additions_in_time_order exp))
    as [| x xs] eqn:Hr; [congruence |].
  cbn [Py.bind]. eexists. split; [reflexivity |].
  cbn [liquid_adds]. rewrite <- Hr.
  assert (Hlast : TED_ResultWide.TRACENUM rl = last_trace (sorted_traces exp rs)).
  { unfold last_trace. now rewrite Hrev. }
  rewrite Hlast. split.
  - rewrite map_map.
    rewrite (map_ext _ range_of) by (intros; apply range_of_populate).
    apply ranges_of_ranged.
  - apply additions_of_ranged.
    intros y e He. exact He.
Qed.

(** ** The sorted table of current traces *)

Lemma Sorted_impl {A} (R R' : A -> A -> Prop) (l : list A) :
  (forall a b, R a b -> R' a b) -> Sorted R l -> Sorted R' l.
Proof.
  intros HR. induction 1 as [| x l Hs IH Hhd]; constructor; [exact IH |].
  destruct Hhd; constructor. now apply HR.
Qed.

Lemma Sorted_impl_Forall {A} (P : A -> Prop) (R R' : A -> A -> Prop) (l : list A) :
  (forall a b, P a -> P b -> R a b -> R' a b) ->
  Forall P l -> Sorted R l -> Sorted R' l.
Proof.
  intros HR HP. induction 1 as [| x l Hs IH Hhd]; constructor.
  - apply IH. now inversion HP.
  - destruct Hhd as [| y l' Hxy]; constructor.
    inversion HP as [| ? ? Hx HP']; subst. inversion HP'; subst. now apply HR.
Qed.

Lemma Qgeb_le (a t : Q) : Qgeb a t = true <-> (t <= a)%Q.
Proof. unfold Qgeb. apply Qle_bool_iff. Qed.

Lemma Qltb_lt (a t : Q) : Qltb a t = true <-> (a < t)%Q.
Proof.
  unfold Qltb. rewrite negb_true_iff. split.
  - intros H. apply Qnot_le_lt. intros Hle. apply Qle_bool_iff in Hle. congruence.
  - intros H. destruct (Qle_bool t a) eqn:Hle; [| reflexivity].
    apply Qle_bool_iff in Hle. exfalso. apply (Qlt_not_le _ _ H Hle).
Qed.

Lemma lex_leb_TIME (a b : LiquidExecution.t) :
  lex_leb ["TIME"] a b = true
  <-> (LiquidExecution.TIME a <= LiquidExecution.TIME b)%Q.
Proof.
  change (lex_leb ["TIME"] a b)
    with (match (LiquidExecution.TIME a ?= LiquidExecution.TIME b)%Q with
          | Gt => false
          | _ => true
          end).
  rewrite Qle_alt.
  destruct (LiquidExecution.TIME a ?= LiquidExecution.TIME b)%Q;
    split; congruence.
Qed.

Lemma string_compare_refl (s : string) : String.compare s s = Eq.
Proof.
  pose proof (String.compare_antisym s s) as H.
  destruct (String.compare s s); simpl in H; congruence.
Qed.

Lemma lex_leb_wide (a b : TED_ResultWide.t) :
  TED_ResultWide.EXPID a = TED_ResultWide.EXPID b ->
  TED_ResultWide.CELLID a = TED_ResultWide.CELLID b ->
  lex_leb ["EXPID"; "CELLID"; "ELTIME"; "TRACENUM"] a b = true ->
  (TED_ResultWide.ELTIME a <= TED_ResultWide.ELTIME b)%Q.
Proof.
  intros He Hc.
  change (lex_leb ["EXPID"; "CELLID"; "ELTIME"; "TRACENUM"] a b)
    with (match String.compare (TED_ResultWide.EXPID a) (TED_ResultWide.EXPID b) with
          | Lt => true
          | Gt => false
          | Eq =>
              match String.compare (TED_ResultWide.CELLID a)
                                   (TED_ResultWide.CELLID b) with
              | Lt => true
              | Gt => false
              | Eq =>
                  match (TED_ResultWide.ELTIME a ?= TED_ResultWide.ELTIME b)%Q with
                  | Lt => true
                  | Gt => false
                  | Eq =>
                      match TED_ResultWide.TRACENUM a ?= TED_ResultWide.TRACENUM b with
                      | Gt => false
                      | _ => true
                      end
                  end
              end
          end).
  rewrite He, Hc, !string_compare_refl.
  rewrite Qle_alt.
  destruct (TED_ResultWide.ELTIME a ?= TED_ResultWide.ELTIME b)%Q; congruence.
Qed.

Lemma sorted_traces_In exp rs x :
  In x (sorted_traces exp rs)
  <-> exists res, In res (current_results rs) /\
                  x = wide_row (composite_id (Experiment.id exp))
                               (cell_label rs) rs res.
Proof.
  unfold sorted_traces. rewrite stable_sort_In. unfold wide_rows.
  rewrite in_map_iff. split; intros [res [H1 H2]]; exists res; auto.
Qed.

Lemma sorted_traces_sorted exp rs :
  StronglySorted
    (fun a b => (TED_ResultWide.ELTIME a <= TED_ResultWide.ELTIME b)%Q)
    (sorted_traces exp rs).
Proof.
  apply Sorted_StronglySorted.
  - intros a b c Hab Hbc. eapply Qle_trans; eauto.
  - apply (Sorted_impl_Forall
             (fun x => TED_ResultWide.EXPID x = composite_id (Experiment.id exp) /\
                       TED_ResultWide.CELLID x
                         = cell_label rs)
             (fun a b => lex_leb ["EXPID"; "CELLID"; "ELTIME"; "TRACENUM"] a b = true)).
    + intros a b [Ha1 Ha2] [Hb1 Hb2]. apply lex_leb_wide; congruence.
    + apply Forall_forall. intros x Hx.
      apply sorted_traces_In in Hx as [res [_ ->]]. split; reflexivity.
    + apply stable_sort_sorted. intros a b. apply lex_leb_total.
Qed.

Lemma additions_in_time_order_sorted exp :
  StronglySorted
    (fun a b => (LiquidExecution.TIME a <= LiquidExecution.TIME b)%Q)
    (additions_in_time_order exp).
Proof.
  unfold additions_in_time_order. apply StronglySorted_keep_first.
  apply Sorted_StronglySorted.
  - intros a b c Hab Hbc. eapply Qle_trans; eauto.
  - apply (Sorted_impl (fun a b => lex_leb ["TIME"] a b = true)).
    + intros a b. apply lex_leb_TIME.
    + apply stable_sort_sorted. intros a b. apply lex_leb_total.
Qed.

Lemma additions_sorted_by_time exp :
  sorted_by_time (exec_ps (Experiment.protocols exp)) ->
  additions_in_time_order exp = distinct_additions exp.
Proof.
  intros Hs. unfold additions_in_time_order, distinct_additions.
  rewrite stable_sort_id; [reflexivity |].
  apply (Sorted_impl _ _ _ (fun a b => proj2 (lex_leb_TIME a b)) Hs).
Qed.

(** ** First and last traces on a table sorted by elapsed time *)

Section SortedTraces.

Variable tmp : list TED_ResultWide.t.

Hypothesis tmp_sorted :
  StronglySorted
    (fun a b => (TED_ResultWide.ELTIME a <= TED_ResultWide.ELTIME b)%Q) tmp.

Lemma first_from_spec (t : Q) :
  (exists r, In r tmp /\ (t <= TED_ResultWide.ELTIME r)%Q) ->
  exists r0,
    In r0 tmp /\ first_from tmp t = TED_ResultWide.TRACENUM r0 /\
    (t <= TED_ResultWide.ELTIME r0)%Q /\
    forall r, In r tmp -> (t <= TED_ResultWide.ELTIME r)%Q ->
              (TED_ResultWide.ELTIME r0 <= TED_ResultWide.ELTIME r)%Q.
Proof.
  intros [r [Hr Ht]]. unfold first_from.
  pose proof (StronglySorted_filter _
                (fun r => Qgeb (TED_ResultWide.ELTIME r) t) _ tmp_sorted) as Hs.
  assert (Hin : In r (filter (fun r => Qgeb (TED_ResultWide.ELTIME r) t) tmp))
    by (apply filter_In; split; [exact Hr | now apply Qgeb_le]).
  destruct (filter _ tmp) as [| r0 rest] eqn:Hf; [destruct Hin |].
  assert (Hr0 : In r0 (filter (fun r => Qgeb (TED_ResultWide.ELTIME r) t) tmp))
    by (rewrite Hf; now left).
  apply filter_In in Hr0 as [Hr0 Ht0]. apply Qgeb_le in Ht0.
  exists r0. repeat split; auto.
  intros r' Hr' Ht'.
  assert (Hin' : In r' (r0 :: rest)).
  { rewrite <- Hf. apply filter_In. split; [exact Hr' | now apply Qgeb_le]. }
  inversion Hs as [| ? ? _ Hall]; subst.
  destruct Hin' as [<- | Hin']; [apply Qle_refl |].
  now apply (proj1 (Forall_forall _ _) Hall).
Qed.

Lemma last_before_spec (t : Q) :
  (exists r, In r tmp /\ (TED_ResultWide.ELTIME r < t)%Q) ->
  exists r1,
    In r1 tmp /\ last_before tmp t = TED_ResultWide.TRACENUM r1 /\
    (TED_ResultWide.ELTIME r1 < t)%Q /\
    forall r, In r tmp -> (TED_ResultWide.ELTIME r < t)%Q ->
              (TED_ResultWide.ELTIME r <= TED_ResultWide.ELTIME r1)%Q.
Proof.
  intros [r [Hr Ht]]. unfold last_before.
  pose proof (StronglySorted_filter _
                (fun r => Qltb (TED_ResultWide.ELTIME r) t) _ tmp_sorted) as Hs.
  assert (Hin : In r (filter (fun r => Qltb (TED_ResultWide.ELTIME r) t) tmp))
    by (apply filter_In; split; [exact Hr | now apply Qltb_lt]).
  destruct (rev (filter _ tmp)) as [| r1 rest] eqn:Hf.
  { apply (f_equal (@rev _)) in Hf. rewrite rev_involutive in Hf.
    rewrite Hf in Hin. destruct Hin. }
  apply (f_equal (@rev _)) in Hf. rewrite rev_involutive in Hf. simpl in Hf.
  assert (Hr1 : In r1 (filter (fun r => Qltb (TED_ResultWide.ELTIME r) t) tmp))
    by (rewrite Hf; apply in_or_app; right; now left).
  apply filter_In in Hr1 as [Hr1 Ht1]. apply Qltb_lt in Ht1.
  exists r1. repeat split; auto.
  intros r' Hr' Ht'.
  assert (Hin' : In r' (rev rest ++ [r1])).
  { rewrite <- Hf. apply filter_In. split; [exact Hr' | now apply Qltb_lt]. }
  rewrite Hf in Hs. apply StronglySorted_last in Hs.
  apply in_app_or in Hin' as [Hin' | [<- | []]]; [| apply Qle_refl].
  now apply (proj1 (Forall_forall _ _) Hs).
Qed.

Lemma last_trace_spec :
  tmp <> [] ->
  exists rl,
    In rl tmp /\ last_trace tmp = TED_ResultWide.TRACENUM rl /\
    forall r, In r tmp ->
              (TED_ResultWide.ELTIME r <= TED_ResultWide.ELTIME rl)%Q.
Proof.
  intros Hne. unfold last_trace.
  destruct (rev tmp) as [| rl rest] eqn:Hf.
  { apply (f_equal (@rev _)) in Hf. rewrite rev_involutive in Hf.
    simpl in Hf. congruence. }
  apply (f_equal (@rev _)) in Hf. rewrite rev_involutive in Hf. simpl in Hf.
  exists rl. split; [rewrite Hf; apply in_or_app; right; now left |].
  split; [reflexivity |].
  intros r Hr. pose proof tmp_sorted as Hs. rewrite Hf in Hs, Hr.
  apply StronglySorted_last in Hs.
  apply in_app_or in Hr as [Hr | [<- | []]]; [| apply Qle_refl].
  now apply (proj1 (Forall_forall _ _) Hs).
Qed.

End SortedTraces.

(** ** From the table of current traces to the results of the experiment *)

Lemma same_time_same_number (rs : list Result.t) (r1 r2 : Result.t) :
  traces_increasing rs -> In r1 rs -> In r2 rs ->
  (Result.elapsedTime r1 <= Result.elapsedTime r2)%Q ->
  (Result.elapsedTime r2 <= Result.elapsedTime r1)%Q ->
  Result.traceNumber r1 = Result.traceNumber r2.
Proof.
  intros Hinc H1 H2 H12 H21.
  pose proof (Hinc r1 r2 H1 H2) as [_ Ha].
  pose proof (Hinc r2 r1 H2 H1) as [_ Hb].
  destruct (Z.lt_trichotomy (Result.traceNumber r1) (Result.traceNumber r2))
    as [Hlt | [Heq | Hgt]]; [| exact Heq |].
  - apply Ha in Hlt. exfalso. apply (Qlt_not_le _ _ Hlt H21).
  - apply Hb in Hgt. exfalso. apply (Qlt_not_le _ _ Hgt H12).
Qed.

Section Traces.

Variables (exp : Experiment.t) (rs : Results.t).

Let currents := current_results rs.
Let tmp := sorted_traces exp rs.
Let row := wide_row (composite_id (Experiment.id exp))
                    (cell_label rs) rs.

Lemma traces_from (t : Q) :
  (exists r, In r currents /\ (t <= Result.elapsedTime r)%Q)
  <-> exists x, In x tmp /\ Qgeb (TED_ResultWide.ELTIME x) t = true.
Proof.
  split.
  - intros [r [Hr Ht]]. eexists. split.
    + apply sorted_traces_In. exists r. split; [exact Hr | reflexivity].
    + now apply Qgeb_le.
  - intros [x [Hx Ht]]. apply sorted_traces_In in Hx as [r [Hr ->]].
    exists r. split; [exact Hr | now apply Qgeb_le in Ht].
Qed.

Lemma traces_before (t : Q) :
  (exists r, In r currents /\ (Result.elapsedTime r < t)%Q)
  <-> exists x, In x tmp /\ Qltb (TED_ResultWide.ELTIME x) t = true.
Proof.
  split.
  - intros [r [Hr Ht]]. eexists. split.
    + apply sorted_traces_In. exists r. split; [exact Hr | reflexivity].
    + now apply Qltb_lt.
  - intros [x [Hx Ht]]. apply sorted_traces_In in Hx as [r [Hr ->]].
    exists r. split; [exact Hr | now apply Qltb_lt in Ht].
Qed.

Hypothesis increasing : traces_increasing currents.

Lemma first_from_earliest (t : Q) :
  (exists r, In r currents /\ (t <= Result.elapsedTime r)%Q) ->
  (exists r, earliest_from t currents r) /\
  forall r, earliest_from t currents r -> first_from tmp t = Result.traceNumber r.
Proof.
  intros Hex.
  destruct (first_from_spec tmp (sorted_traces_sorted exp rs) t)
    as (x0 & Hx0 & Hfirst & Ht0 & Hmin).
  { destruct Hex as [r [Hr Ht]].
    exists (row r).
    split; [| exact Ht].
    apply sorted_traces_In. exists r. split; [exact Hr | reflexivity]. }
  apply sorted_traces_In in Hx0 as [r0 [Hr0 ->]]. simpl in Hfirst, Ht0, Hmin.
  assert (He0 : earliest_from t currents r0).
  { split; [exact Hr0 |]. split; [exact Ht0 |].
    intros r' Hr' Ht'.
    apply (Hmin (row r')); [| exact Ht'].
    apply sorted_traces_In. exists r'. split; [exact Hr' | reflexivity]. }
  split; [now exists r0 |].
  intros r (Hr & Ht & Hrmin). rewrite Hfirst.
  apply (same_time_same_number currents); auto.
  destruct He0 as (_ & _ & H0min). auto.
Qed.

Lemma last_before_latest (t : Q) :
  (exists r, In r currents /\ (Result.elapsedTime r < t)%Q) ->
  (exists r, latest_before t currents r) /\
  forall r, latest_before t currents r -> last_before tmp t = Result.traceNumber r.
Proof.
  intros Hex.
  destruct (last_before_spec tmp (sorted_traces_sorted exp rs) t)
    as (x1 & Hx1 & Hlast & Ht1 & Hmax).
  { destruct Hex as [r [Hr Ht]].
    exists (row r).
    split; [| exact Ht].
    apply sorted_traces_In. exists r. split; [exact Hr | reflexivity]. }
  apply sorted_traces_In in Hx1 as [r1 [Hr1 ->]]. simpl in Hlast, Ht1, Hmax.
  assert (He1 : latest_before t currents r1).
  { split; [exact Hr1 |]. split; [exact Ht1 |].
    intros r' Hr' Ht'.
    apply (Hmax (row r')); [| exact Ht'].
    apply sorted_traces_In. exists r'. split; [exact Hr' | reflexivity]. }
  split; [now exists r1 |].
  intros r (Hr & Ht & Hrmax). rewrite Hlast.
  apply (same_time_same_number currents); auto.
  destruct He1 as (_ & _ & H1max). auto.
Qed.

Lemma last_trace_latest :
  currents <> [] ->
  (exists r, latest currents r) /\
  forall r, latest currents r -> last_trace tmp = Result.traceNumber r.
Proof.
  intros Hne.
  destruct (last_trace_spec tmp (sorted_traces_sorted exp rs))
    as (xl & Hxl & Hlast & Hmax).
  { assert (Hex : exists r, In r (current_results rs)).
    { subst currents. destruct (current_results rs) as [| r rest]; [congruence |].
      exists r. now left. }
    destruct Hex as [r Hr]. intros Hnil.
    assert (Hin : In (row r) (sorted_traces exp rs)).
    { apply sorted_traces_In. exists r. split; [exact Hr | reflexivity]. }
    subst tmp. rewrite Hnil in Hin. destruct Hin. }
  apply sorted_traces_In in Hxl as [rl [Hrl ->]]. simpl in Hlast, Hmax.
  assert (Hel : latest currents rl).
  { split; [exact Hrl |]. intros r' Hr'.
    apply (Hmax (row r')).
    apply sorted_traces_In. exists r'. split; [exact Hr' | reflexivity]. }
  split; [now exists rl |].
  intros r (Hr & Hrmax). rewrite Hlast.
  apply (same_time_same_number currents); auto.
  destruct Hel as (_ & Hlmax). auto.
Qed.

End Traces.

Lemma ranges_nth tmp es i e :
  nth_error es i = Some e ->
  nth_error (ranges tmp es) i
    = Some (first_from tmp (LiquidExecution.TIME e),
            match nth_error es (S i) with
            | Some e' => last_before tmp (LiquidExecution.TIME e')
            | None => last_trace tmp
            end).
Proof.
  revert i; induction es as [| e0 es IH]; intros [| i]; simpl; try discriminate.
  - intros He. injection He as <-. destruct es; reflexivity.
  - apply IH.
Qed.

(** ** The ranges of the liquid additions *)

(** The ranges of the rows that the builder makes for an experiment
    whose liquid additions are executed in time order and whose current
    traces are numbered increasingly with elapsed time. *)
Lemma experiment_ranges trial exp rs others :
  Experiment.resultsSet exp = rs :: others ->
  exportable trial rs ->
  sorted_by_time (exec_ps (Experiment.protocols exp)) ->
  traces_increasing (current_results rs) ->
  distinct_additions exp <> [] ->
  (forall e, In e (distinct_additions exp) ->
     exists r, In r (current_results rs) /\
               (LiquidExecution.TIME e <= Result.elapsedTime r)%Q) ->
  (forall e, In e (tl (distinct_additions exp)) ->
     exists r, In r (current_results rs) /\
               (Result.elapsedTime r < LiquidExecution.TIME e)%Q) ->
  exists t,
    experiment_tables trial exp = Ok t /\
    Forall2 addition_of (distinct_additions exp) (liquid_adds t) /\
    forall i e x,
      nth_error (distinct_additions exp) i = Some e ->
      nth_error (liquid_adds t) i = Some x ->
      (exists r, earliest_from (LiquidExecution.TIME e) (current_results rs) r) /\
      (forall r, earliest_from (LiquidExecution.TIME e) (current_results rs) r ->
                 TED_LiquidAddition.FIRST x = Result.traceNumber r) /\
      match nth_error (distinct_additions exp) (S i) with
      | Some e' =>
          (exists r, latest_before (LiquidExecution.TIME e')
                                   (current_results rs) r) /\
          (forall r, latest_before (LiquidExecution.TIME e')
                                   (current_results rs) r ->
                     TED_LiquidAddition.LAST x = Result.traceNumber r)
      | None =>
          (exists r, latest (current_results rs) r) /\
          (forall r, latest (current_results rs) r ->
                     TED_LiquidAddition.LAST x = Result.traceNumber r)
      end.
Proof.
  intros Hrs Hexp Hsorted Hinc Hne Hfrom Hbefore.
  pose proof (additions_sorted_by_time exp Hsorted) as Hadds.
  destruct (experiment_tables_ok trial exp rs others Hrs Hexp)
    as (t & Ht & Hranges & Hadd).
  - now rewrite Hadds.
  - rewrite Hadds. intros e He. apply traces_from. now apply Hfrom.
  - rewrite Hadds. intros e He. apply traces_before. now apply Hbefore.
  - rewrite Hadds in Hranges, Hadd.
    exists t. split; [exact Ht |]. split; [exact Hadd |].
    intros i e x He Hx.
    assert (Hr : nth_error (map range_of (liquid_adds t)) i = Some (range_of x))
      by (rewrite nth_error_map, Hx; reflexivity).
    rewrite Hranges, (ranges_nth _ _ _ _ He) in Hr.
    injection Hr as Hfirst Hlast.
    change (match distinct_additions exp with
            | [] => None
            | _ :: l' => nth_error l' i
            end)
      with (nth_error (distinct_additions exp) (S i)) in Hlast.
    assert (Hin : In e (distinct_additions exp)) by (eapply nth_error_In; eauto).
    destruct (first_from_earliest exp rs Hinc (LiquidExecution.TIME e) (Hfrom e Hin))
      as [Hex Hall].
    split; [exact Hex |].
    split; [intros r Hr; rewrite <- (Hall r Hr); symmetry; exact Hfirst |].
    destruct (nth_error (distinct_additions exp) (S i)) as [e' |] eqn:He'.
    + assert (Hin' : In e' (tl (distinct_additions exp))).
      { destruct (distinct_additions exp) as [| e0 es];
          [destruct i; discriminate He |].
        simpl in He' |- *. eapply nth_error_In; eauto. }
      destruct (last_before_latest exp rs Hinc (LiquidExecution.TIME e')
                  (Hbefore e' Hin')) as [Hex' Hall'].
      split; [exact Hex' |].
      intros r Hr. rewrite <- (Hall' r Hr). symmetry. exact Hlast.
    + assert (Hcur : current_results rs <> []).
      { destruct (Hfrom e Hin) as [r [Hr _]]. intros Hnil.
        rewrite Hnil in Hr. destruct Hr. }
      destruct (last_trace_latest exp rs Hinc Hcur) as [Hex' Hall'].
      split; [exact Hex' |].
      intros r Hr. rewrite <- (Hall' r Hr). symmetry. exact Hlast.
Qed.

Lemma ten_traces_increasing : traces_increasing Samples.ten_traces.
Proof.
  assert (Htime : Forall (fun r => Result.elapsedTime r
                                   = inject_Z (Result.traceNumber r - 1))
                         Samples.ten_traces)
    by (repeat constructor).
  rewrite Forall_forall in Htime.
  intros r1 r2 H1 H2. rewrite (Htime r1 H1), (Htime r2 H2).
  rewrite <- Zlt_Qlt. lia.
Qed.

(** ** The partition of the traces by the liquid additions *)

Lemma number_le_of_time_le (rs : list Result.t) (r1 r2 : Result.t) :
  traces_increasing rs -> In r1 rs -> In r2 rs ->
  (Result.elapsedTime r1 <= Result.elapsedTime r2)%Q ->
  Result.traceNumber r1 <= Result.traceNumber r2.
Proof.
  intros Hinc H1 H2 Hle.
  destruct (Z.le_gt_cases (Result.traceNumber r1) (Result.traceNumber r2))
    as [H | H]; [exact H |].
  apply (Hinc r2 r1 H2 H1) in H. exfalso. apply (Qlt_not_le _ _ H Hle).
Qed.

Lemma StronglySorted_nth {A} (R : A -> A -> Prop) (l : list A) :
  StronglySorted R l ->
  forall i j x y, (i < j)%nat ->
    nth_error l i = Some x -> nth_error l j = Some y -> R x y.
Proof.
  induction 1 as [| a l Hs IH Ha]; intros i j x y Hij Hx Hy.
  - destruct i; discriminate.
  - destruct j as [| j]; [lia |]. simpl in Hy.
    destruct i as [| i]; simpl in Hx.
    + injection Hx as <-. apply nth_error_In in Hy.
      now apply (proj1 (Forall_forall _ _) Ha).
    + apply (IH i j); auto. lia.
Qed.

Lemma StronglySorted_map {A B} (R : B -> B -> Prop) (f : A -> B) (l : list A) :
  StronglySorted R (map f l) -> StronglySorted (fun x y => R (f x) (f y)) l.
Proof.
  induction l as [| a l IH]; simpl; intros Hs; [constructor |].
  inversion Hs as [| ? ? Hs' Ha]; subst.
  constructor; [now apply IH |].
  apply Forall_forall. intros y Hy.
  apply (proj1 (Forall_forall _ _) Ha). now apply in_map.
Qed.

Lemma consecutive_non_overlapping xs : consecutive xs -> non_overlapping xs.
Proof.
  intros Hs i j x y n Hij Hx Hy [Hx1 Hx2] [Hy1 Hy2].
  destruct (Nat.lt_total i j) as [Hlt | [Heq | Hgt]]; [| congruence |].
  - pose proof (StronglySorted_nth _ _ Hs i j x y Hlt Hx Hy). simpl in *. lia.
  - pose proof (StronglySorted_nth _ _ Hs j i y x Hgt Hy Hx). simpl in *. lia.
Qed.

Lemma ranges_In tmp es p :
  In p (ranges tmp es) ->
  exists e, In e es /\ fst p = first_from tmp (LiquidExecution.TIME e).
Proof.
  induction es as [| e es IH]; simpl; [tauto |].
  intros [<- | Hp].
  - exists e. split; [now left | reflexivity].
  - destruct (IH Hp) as [e' [He' Hfst]]. exists e'. split; [now right | exact Hfst].
Qed.

Section Partition.

Variables (exp : Experiment.t) (rs : Results.t).

Let currents := current_results rs.
Let tmp := sorted_traces exp rs.

Hypothesis increasing : traces_increasing currents.

Let from_ (e : LiquidExecution.t) : Prop :=
  exists r, In r currents /\ (LiquidExecution.TIME e <= Result.elapsedTime r)%Q.

Let before_ (e : LiquidExecution.t) : Prop :=
  exists r, In r currents /\ (Result.elapsedTime r < LiquidExecution.TIME e)%Q.

Lemma ranges_consecutive (es : list LiquidExecution.t) :
  StronglySorted
    (fun a b => (LiquidExecution.TIME a <= LiquidExecution.TIME b)%Q) es ->
  (forall e, In e es -> from_ e) ->
  (forall e, In e (tl es) -> before_ e) ->
  StronglySorted (fun p q => snd p < fst q) (ranges tmp es).
Proof.
  induction 1 as [| e es Hs IH He]; intros Hfrom Hbefore; [constructor |].
  assert (Hfrom' : forall e', In e' es -> from_ e')
    by (intros e' He'; apply Hfrom; now right).
  cbn [ranges]. constructor.
  - apply IH; [exact Hfrom' |].
    intros e' He'. apply Hbefore. simpl. destruct es; [destruct He' | now right].
  - destruct es as [| e' es']; [constructor |].
    apply Forall_forall. intros q Hq.
    apply ranges_In in Hq as [e'' [He'' ->]]. cbn [snd].
    destruct (last_before_latest exp rs increasing (LiquidExecution.TIME e')
                (Hbefore e' (or_introl eq_refl))) as [[r1 Hr1] Hlast].
    destruct (first_from_earliest exp rs increasing (LiquidExecution.TIME e'')
                (Hfrom' e'' He'')) as [[r0 Hr0] Hfirst].
    fold tmp in Hlast, Hfirst.
    rewrite (Hlast r1 Hr1), (Hfirst r0 Hr0).
    destruct Hr1 as (Hin1 & Ht1 & _). destruct Hr0 as (Hin0 & Ht0 & _).
    apply (increasing r1 r0 Hin1 Hin0).
    assert (Hle : (LiquidExecution.TIME e' <= LiquidExecution.TIME e'')%Q).
    { inversion Hs as [| ? ? _ He']; subst.
      destruct He'' as [<- | He'']; [apply Qle_refl |].
      now apply (proj1 (Forall_forall _ _) He'). }
    eapply Qlt_le_trans; [exact Ht1 |]. eapply Qle_trans; eauto.
Qed.

Lemma ranges_cover (es : list LiquidExecution.t) :
  es <> [] ->
  (forall e, In e es -> from_ e) ->
  (forall e, In e (tl es) -> before_ e) ->
  forall r, In r currents ->
    (forall e, hd_error es = Some e ->
               (LiquidExecution.TIME e <= Result.elapsedTime r)%Q) ->
    exists p, In p (ranges tmp es) /\
              fst p <= Result.traceNumber r <= snd p.
Proof.
  induction es as [| e es IH]; intros Hne Hfrom Hbefore r Hr Hhd; [congruence |].
  specialize (Hhd e eq_refl).
  destruct (first_from_earliest exp rs increasing (LiquidExecution.TIME e)
              (Hfrom e (or_introl eq_refl))) as [[r0 Hr0] Hfirst].
  fold tmp in Hfirst.
  assert (Hlow : first_from tmp (LiquidExecution.TIME e) <= Result.traceNumber r).
  { rewrite (Hfirst r0 Hr0). destruct Hr0 as (Hin0 & _ & Hmin).
    apply (number_le_of_time_le currents); auto. }
  destruct es as [| e' es'].
  - eexists. split; [now left |]. cbn [fst snd]. split; [exact Hlow |].
    assert (Hcur : currents <> []) by (intros Hnil; rewrite Hnil in Hr; destruct Hr).
    destruct (last_trace_latest exp rs increasing Hcur) as [[rl Hrl] Hlast].
    fold tmp in Hlast. rewrite (Hlast rl Hrl).
    destruct Hrl as [Hinl Hmax].
    apply (number_le_of_time_le currents); auto.
  - destruct (Qlt_le_dec (Result.elapsedTime r) (LiquidExecution.TIME e'))
      as [Hlt | Hge].
    + eexists. split; [now left |]. cbn [fst snd]. split; [exact Hlow |].
      destruct (last_before_latest exp rs increasing (LiquidExecution.TIME e')
                  (Hbefore e' (or_introl eq_refl))) as [[r1 Hr1] Hlast].
      fold tmp in Hlast. rewrite (Hlast r1 Hr1).
      destruct Hr1 as (Hin1 & _ & Hmax).
      apply (number_le_of_time_le currents); auto.
    + destruct (IH ltac:(discriminate)) with (r := r) as [p [Hp Hrange]].
      * intros e'' He''. apply Hfrom. now right.
      * intros e'' He''. apply Hbefore. now right.
      * exact Hr.
      * intros e'' He''. injection He'' as <-. exact Hge.
      * exists p. split; [now right | exact Hrange].
Qed.

End Partition.

(** C3, as stated, fails: with a single addition five seconds after the
    first of ten traces, the only range is 6 to 10 and the traces 1 to 5
    lie in no range, although the experiment has a liquid addition, has
    current traces and numbers them increasingly with time. *)
Lemma partition_fails_for_late_addition :
  exec_ps (Experiment.protocols Samples.late_addition) <> [] /\
  current_results (Samples.results_of Samples.ten_traces) <> [] /\
  traces_increasing (current_results (Samples.results_of Samples.ten_traces)) /\
  ~ exists t,
      experiment_tables (Samples.trial []) Samples.late_addition = Ok t /\
      partition_of (liquid_adds t)
                   (current_results (Samples.results_of Samples.ten_traces)).
Proof.
  split; [vm_compute; discriminate |].
  split; [vm_compute; discriminate |].
  split; [exact ten_traces_increasing |].
  intros (t & Ht & _ & Hcover).
  vm_compute in Ht. injection Ht as <-.
  destruct (Hcover (Samples.trace 1 0)) as (x & Hx & Hfirst & _).
  - left. reflexivity.
  - destruct Hx as [<- | []]. vm_compute in Hfirst. now apply Hfirst.
Qed.

(** The ranges of the rows that the builder makes for an experiment
    whose earliest liquid addition is not later than any current trace:
    they follow each other and every current trace lies in one. *)
Lemma experiment_ranges_partition :
  forall trial exp rs others,
    Experiment.resultsSet exp = rs :: others ->
    exportable trial rs ->
    traces_increasing (current_results rs) ->
    additions_in_time_order exp <> [] ->
    (forall e r, hd_error (additions_in_time_order exp) = Some e ->
                 In r (current_results rs) ->
                 (LiquidExecution.TIME e <= Result.elapsedTime r)%Q) ->
    (forall e, In e (additions_in_time_order exp) ->
       exists r, In r (current_results rs) /\
                 (LiquidExecution.TIME e <= Result.elapsedTime r)%Q) ->
    (forall e, In e (tl (additions_in_time_order exp)) ->
       exists r, In r (current_results rs) /\
                 (Result.elapsedTime r < LiquidExecution.TIME e)%Q) ->
    exists t,
      experiment_tables trial exp = Ok t /\
      Forall2 addition_of (additions_in_time_order exp) (liquid_adds t) /\
      consecutive (liquid_adds t) /\
      partition_of (liquid_adds t) (current_results rs).
Proof.
  intros trial exp rs others Hrs Hexp Hinc Hne Hhd Hfrom Hbefore.
  destruct (experiment_tables_ok trial exp rs others Hrs Hexp Hne)
    as (t & Ht & Hranges & Hadd).
  - intros e He. apply traces_from. now apply Hfrom.
  - intros e He. apply traces_before. now apply Hbefore.
  - exists t. split; [exact Ht |]. split; [exact Hadd |].
    assert (Hcons : consecutive (liquid_adds t)).
    { unfold consecutive.
      apply (StronglySorted_map (fun p q => snd p < fst q) range_of).
      rewrite Hranges.
      apply ranges_consecutive; auto using additions_in_time_order_sorted. }
    split; [exact Hcons |].
    split; [now apply consecutive_non_overlapping |].
    intros r Hr.
    destruct (ranges_cover exp rs Hinc (additions_in_time_order exp) Hne
                Hfrom Hbefore r Hr) as [p [Hp Hrange]].
    + intros e He. now apply Hhd.
    + rewrite <- Hranges in Hp. apply in_map_iff in Hp as [x [<- Hx]].
      exists x. split; [exact Hx | exact Hrange].
Qed.

(** ** Rows without repetition *)

Lemma value_eqb_sym (a b : value) : value_eqb a b = value_eqb b a.
Proof.
  destruct a as [s | m | [p |]], b as [t | n | [q |]]; simpl; try reflexivity.
  - apply String.eqb_sym.
  - apply Z.eqb_sym.
  - apply Qeq_bool_comm.
  - apply Qeq_bool_comm.
  - apply Qeq_bool_comm.
Qed.

Lemma same_on_sym {A} `{Row A} (cols : list string) (a b : A) :
  same_on cols a b = same_on cols b a.
Proof.
  unfold same_on. induction cols as [| k cols IH]; simpl; [reflexivity |].
  now rewrite IH, value_eqb_sym.
Qed.

Lemma filter_none {A} (p : A -> bool) (l : list A) :
  (forall y, In y l -> p y = false) -> filter p l = [].
Proof.
  induction l as [| y l IH]; simpl; intros Hp; [reflexivity |].
  rewrite (Hp y (or_introl eq_refl)). apply IH. intros z Hz. apply Hp. now right.
Qed.

Lemma keep_first_once {A} (eqb : A -> A -> bool) :
  (forall a, eqb a a = true) ->
  (forall a b, eqb a b = eqb b a) ->
  forall l seen,
    (forall y, In y (keep_first eqb seen l) -> existsb (eqb y) seen = false) /\
    (forall a, In a (keep_first eqb seen l) ->
               length (filter (eqb a) (keep_first eqb seen l)) = 1%nat).
Proof.
  intros Hrefl Hsym. induction l as [| x l IH]; intros seen; simpl.
  - split; intros ? [].
  - destruct (existsb (eqb x) seen) eqn:Hx; [apply IH |].
    destruct (IH (x :: seen)) as [IH1 IH2].
    assert (Hnew : forall y, In y (keep_first eqb (x :: seen) l) ->
                             eqb y x = false /\ existsb (eqb y) seen = false).
    { intros y Hy. specialize (IH1 y Hy). simpl in IH1.
      now apply orb_false_iff in IH1. }
    split.
    + intros y [<- | Hy]; [exact Hx | now apply Hnew].
    + intros a [<- | Ha]; simpl.
      * rewrite Hrefl. simpl. f_equal.
        assert (Hnone : filter (eqb x) (keep_first eqb (x :: seen) l) = []).
        { apply filter_none. intros y Hy. rewrite Hsym. now apply Hnew. }
        now rewrite Hnone.
      * rewrite (proj1 (Hnew a Ha)). now apply IH2.
Qed.

Lemma Permutation_filter {A} (p : A -> bool) (l l' : list A) :
  Permutation l l' -> Permutation (filter p l) (filter p l').
Proof.
  induction 1 as [| x l l' _ IH | x y l | l l' l'' _ IH1 _ IH2]; simpl.
  - constructor.
  - destruct (p x); [now constructor | exact IH].
  - destruct (p x), (p y); try reflexivity. apply perm_swap.
  - now transitivity (filter p l').
Qed.

(** ** The wide rows of an experiment *)

Lemma map_outcome_Forall2 {A B} (f : A -> outcome B) (l : list A) (l' : list B) :
  map_outcome f l = Ok l' -> Forall2 (fun x y => f x = Ok y) l l'.
Proof.
  revert l'; induction l as [| x l IH]; simpl; intros l' H.
  - injection H as <-. constructor.
  - destruct (f x) as [y |] eqn:Hfx; [| discriminate]. simpl in H.
    destruct (map_outcome f l) as [ys |]; [| discriminate]. simpl in H.
    injection H as <-. constructor; [exact Hfx | now apply IH].
Qed.

Lemma result_wide_inv exp rs res er :
  result_wide (composite_id (Experiment.id exp))
              (cell_label rs) rs res = Ok er ->
  row_of_trace exp rs res er.
Proof.
  unfold result_wide, row_of_trace, evaluated_cursors.
  destruct (Result.waveform res) as [w |]; [| discriminate].
  destruct (Result.cursors res) as [cs |]; [| discriminate].
  cbn [Py.bind].
  destruct (for_each inject_cursor cs []) as [cvs |] eqn:Hcvs;
    [| discriminate].
  simpl. intros H. injection H as <-. repeat split.
Qed.

Lemma same_trace_refl er : same_trace er er.
Proof. repeat split. Qed.

Lemma same_trace_add_liquid_information x er er' :
  same_trace er er' -> same_trace er (add_liquid_information x er').
Proof.
  unfold add_liquid_information. destruct (_ && _)%bool; [| auto].
  intros H. exact H.
Qed.

Lemma fold_map_Forall2 {A X} (R : A -> A -> Prop) (g : X -> A -> A)
  (xs : list X) :
  (forall a, R a a) ->
  (forall x a a', R a a' -> R a (g x a')) ->
  forall l l0, Forall2 R l0 l ->
    Forall2 R l0 (fold_left (fun l x => map (g x) l) xs l).
Proof.
  intros Hrefl Hg. induction xs as [| x xs IH]; intros l l0 H; simpl; [exact H |].
  apply IH. clear IH. induction H; simpl; constructor; auto.
Qed.

Lemma Forall2_refl {A} (R : A -> A -> Prop) (l : list A) :
  (forall a, R a a) -> Forall2 R l l.
Proof. intros H. induction l; constructor; auto. Qed.

Lemma row_of_trace_same exp rs res er er' :
  row_of_trace exp rs res er -> same_trace er er' -> row_of_trace exp rs res er'.
Proof.
  unfold row_of_trace, same_trace.
  intros (H1 & H2 & H3 & H4 & H5 & H6 & H7 & H8 & H9)
         (E1 & E2 & E3 & E4 & E5 & E6 & E7 & E8 & E9).
  rewrite E1, E2, E3, E4, E5, E6, E7, E8, E9. tauto.
Qed.

(** What [experiment_tables] has done when it returns: the rows of the
    current traces of the first results set, with liquids written to
    them. *)
Lemma experiment_tables_inv trial exp t :
  experiment_tables trial exp = Ok t ->
  exists rs ers,
    hd_error (Experiment.resultsSet exp) = Some rs /\
    ers <> [] /\
    Forall2 (fun res er => row_of_trace exp rs res er) (current_results rs) ers /\
    Forall2 same_trace ers (res_wide t).
Proof.
  unfold experiment_tables.
  destruct (Experiment.resultsSet exp) as [| rs others]; [discriminate |].
  cbn [first Py.bind]. intros H.
  apply bind_ok in H as (cdefs & _ & H).
  apply bind_ok in H as (cellid & Hcell & H).
  apply cell_id_inv in Hcell as [-> _].
  apply bind_ok in H as (ljp & _ & H).
  apply bind_ok in H as (exp_las & _ & H).
  apply bind_ok in H as (ers & Hers & H).
  apply bind_ok in H as (tmp & Htmp & H).
  apply bind_ok in H as (st & _ & H).
  apply bind_ok in H as (rl & _ & H).
  apply bind_ok in H as (xs & _ & H).
  injection H as <-. cbn [res_wide].
  exists rs, ers. split; [reflexivity |]. split.
  - intros ->. discriminate Htmp.
  - split.
    + apply map_outcome_Forall2 in Hers. clear Htmp.
      induction Hers as [| res er l l' Hres _ IH]; [constructor |].
      constructor; [now apply result_wide_inv | exact IH].
    + apply fold_map_Forall2.
      * apply same_trace_refl.
      * intros x a a'. apply same_trace_add_liquid_information.
      * apply Forall2_refl, same_trace_refl.
Qed.

(** ** The tables of a trial *)

Lemma for_each_tables trial exps :
  forall acc0 acc,
    for_each (fun acc exp => t <- experiment_tables trial exp ;; Ok (add_tables acc t))
             exps acc0 = Ok acc ->
    exists ts,
      Forall2 (fun exp t => experiment_tables trial exp = Ok t) exps ts /\
      res_wide acc = res_wide acc0 ++ concat (map res_wide ts).
Proof.
  induction exps as [| exp exps IH]; intros acc0 acc; simpl.
  - intros H. injection H as <-. exists []. split; [constructor |].
    simpl. now rewrite app_nil_r.
  - destruct (experiment_tables trial exp) as [t |] eqn:Ht; [| discriminate].
    cbn [Py.bind]. intros H. destruct (IH _ _ H) as (ts & Hts & Hres).
    exists (t :: ts). split; [now constructor |].
    rewrite Hres. simpl. now rewrite app_assoc.
Qed.

(** What the builder has done when it returns. *)
Lemma dataframes_inv trial d :
  cells_cursors_liquids_results_dataframes trial = Ok d ->
  exists ts,
    Forall2 (fun exp t => experiment_tables trial exp = Ok t)
            (Trial.experiments trial) ts /\
    let collected := concat (map res_wide ts) in
    let cols := filter (fun k => negb (String.eqb k "SRCXFN"))
                       (columns (from_records collected)) in
    Trial.experiments trial <> [] /\
    columns (ResultsWide d) = cols /\
    rows (ResultsWide d)
      = stable_sort (lex_leb ["EXPID"; "CELLID"; "ELTIME"; "TRACENUM"])
                    (keep_first (same_on cols) [] collected).
Proof.
  unfold cells_cursors_liquids_results_dataframes. intros H.
  apply bind_ok in H as (acc & Hacc & H).
  apply bind_ok in H as (la_df & Hla & H).
  apply bind_ok in H as (rw0 & Hdrop & H).
  apply bind_ok in H as (rw_df & Hsort & H).
  injection H as <-. cbn [ResultsWide].
  destruct (for_each_tables trial _ _ _ Hacc) as (ts & Hts & Hres).
  simpl in Hres. exists ts. split; [exact Hts |]. cbn zeta.
  split.
  { intros Hnil. rewrite Hnil in Hacc. simpl in Hacc. injection Hacc as <-.
    discriminate Hla. }
  rewrite <- Hres.
  unfold drop in Hdrop.
  destruct (mem "SRCXFN" (columns (from_records (res_wide acc)))); [| discriminate].
  assert (Hrw0 : rw0 = {| columns := filter (fun k => negb (String.eqb k "SRCXFN"))
                                            (columns (from_records (res_wide acc)));
                          rows := rows (from_records (res_wide acc)) |})
    by congruence.
  clear Hdrop. subst rw0.
  unfold sort_values in Hsort.
  destruct (find _ _); [discriminate |].
  assert (Hrw : rw_df = {| columns := columns (drop_duplicates
                              {| columns := filter (fun k => negb (String.eqb k "SRCXFN"))
                                                   (columns (from_records (res_wide acc)));
                                 rows := rows (from_records (res_wide acc)) |});
                           rows := stable_sort
                                     (lex_leb ["EXPID"; "CELLID"; "ELTIME"; "TRACENUM"])
                                     (rows (drop_duplicates
                              {| columns := filter (fun k => negb (String.eqb k "SRCXFN"))
                                                   (columns (from_records (res_wide acc)));
                                 rows := rows (from_records (res_wide acc)) |})) |})
    by congruence.
  clear Hsort. subst rw_df. split; reflexivity.
Qed.

(** ** The columns of a wide row *)

Lemma dict_set_keys {V} (k0 : string) (v : V) (d : list (string * V)) (k : string) :
  In k (map fst (dict_set k0 v d)) <-> k = k0 \/ In k (map fst d).
Proof.
  induction d as [| [k' v'] d IH]; simpl.
  - intuition congruence.
  - destruct (String.eqb_spec k0 k') as [-> | Hne]; simpl.
    + intuition congruence.
    + rewrite IH. intuition congruence.
Qed.

Lemma inject_cursor_keys (cs : list Cursor.t) :
  forall d d',
    for_each inject_cursor cs d = Ok d' ->
    forall k, In k (map fst d')
              <-> In k (map fst d) \/ exists rc, In rc cs /\ Cursor.name rc = k.
Proof.
  induction cs as [| rc cs IH]; intros d d'; simpl.
  - intros H. injection H as <-. intros k. split; [tauto |].
    intros [H | [rc [[] _]]]. exact H.
  - unfold inject_cursor at 1.
    destruct (Cursor.result rc) as [cr |]; [| discriminate].
    cbn [Py.bind]. intros H k. rewrite (IH _ _ H k), dict_set_keys. split.
    + intros [[-> | Hk] | [rc' [Hrc' Hk]]]; eauto.
    + intros [Hk | [rc' [[<- | Hrc'] Hk]]]; eauto.
Qed.

Lemma wide_row_keys exp rs res row k :
  row_of_trace exp rs res row ->
  In k (keys row) <->
  In k TED_ResultWide_labels \/
  (exists rc, In rc (evaluated_cursors res) /\ Cursor.name rc = k) \/
  (TED_ResultWide.liquid_flags row <> None /\ (k = "CTLFL" \/ k = "SBFL")).
Proof.
  intros Hrow.
  destruct Hrow as (_ & _ & _ & _ & _ & _ & _ & _ & Hcvs).
  pose proof (inject_cursor_keys _ _ _ Hcvs k) as Hkeys. simpl in Hkeys.
  change (keys row) with (map fst (TED_ResultWide.fields row)).
  unfold TED_ResultWide.fields. rewrite !map_app, !in_app_iff, map_map.
  change (map (fun x => fst (fst x, VFloat (snd x))) (TED_ResultWide.cursor_values row))
    with (map fst (TED_ResultWide.cursor_values row)).
  rewrite Hkeys.
  change (map fst _) with TED_ResultWide_labels at 1.
  assert (Hflags :
            In k (map fst match TED_ResultWide.liquid_flags row with
                          | Some (ctlfl, sbfl) =>
                              [("CTLFL", VStr ctlfl); ("SBFL", VStr sbfl)]
                          | None => []
                          end)
            <-> TED_ResultWide.liquid_flags row <> None /\
                (k = "CTLFL" \/ k = "SBFL")).
  { destruct (TED_ResultWide.liquid_flags row) as [[c s] |]; simpl.
    - intuition congruence.
    - intuition congruence. }
  rewrite Hflags. tauto.
Qed.

(** ** The rows collected from the experiments *)

Lemma Forall2_In_l {A B} (R : A -> B -> Prop) (l : list A) (l' : list B) (x : A) :
  Forall2 R l l' -> In x l -> exists y, In y l' /\ R x y.
Proof.
  induction 1 as [| a b l l' Hab _ IH]; simpl; [tauto |].
  intros [<- | Hx]; [eauto |].
  destruct (IH Hx) as [y [Hy Hxy]]. eauto.
Qed.

Lemma Forall2_In_r {A B} (R : A -> B -> Prop) (l : list A) (l' : list B) (y : B) :
  Forall2 R l l' -> In y l' -> exists x, In x l /\ R x y.
Proof.
  induction 1 as [| a b l l' Hab _ IH]; simpl; [tauto |].
  intros [<- | Hy]; [eauto |].
  destruct (IH Hy) as [x [Hx Hxy]]. eauto.
Qed.

Lemma experiment_rows trial exp t :
  experiment_tables trial exp = Ok t ->
  exists rs,
    hd_error (Experiment.resultsSet exp) = Some rs /\
    res_wide t <> [] /\
    (forall row, In row (res_wide t) ->
       exists res, In res (current_results rs) /\ row_of_trace exp rs res row) /\
    (forall res, In res (current_results rs) ->
       exists row, In row (res_wide t) /\ row_of_trace exp rs res row).
Proof.
  intros Ht. destruct (experiment_tables_inv trial exp t Ht)
    as (rs & ers & Hrs & Hne & Hrows & Hsame).
  exists rs. split; [exact Hrs |]. split; [| split].
  - destruct ers as [| er ers]; [congruence |].
    inversion Hsame; subst. discriminate.
  - intros row Hrow.
    destruct (Forall2_In_r _ _ _ _ Hsame Hrow) as (er & Her & Hs).
    destruct (Forall2_In_r _ _ _ _ Hrows Her) as (res & Hres & Hr).
    exists res. split; [exact Hres |]. now apply (row_of_trace_same exp rs res er).
  - intros res Hres.
    destruct (Forall2_In_l _ _ _ _ Hrows Hres) as (er & Her & Hr).
    destruct (Forall2_In_l _ _ _ _ Hsame Her) as (row & Hrow & Hs).
    exists row. split; [exact Hrow |]. now apply (row_of_trace_same exp rs res er).
Qed.

Lemma collected_rows trial exps ts :
  Forall2 (fun exp t => experiment_tables trial exp = Ok t) exps ts ->
  (exps <> [] -> concat (map res_wide ts) <> []) /\
  (forall row, In row (concat (map res_wide ts)) ->
     exists exp rs res,
       In exp exps /\ hd_error (Experiment.resultsSet exp) = Some rs /\
       In res (current_results rs) /\ row_of_trace exp rs res row) /\
  (forall exp rs res,
     In exp exps -> hd_error (Experiment.resultsSet exp) = Some rs ->
     In res (current_results rs) ->
     exists row, In row (concat (map res_wide ts)) /\ row_of_trace exp rs res row).
Proof.
  induction 1 as [| exp t exps ts Ht _ IH]; simpl.
  - split; [congruence |]. split; [intros ? [] | intros ? ? ? []].
  - destruct (experiment_rows trial exp t Ht) as (rs & Hrs & Hne & Hrow & Hres).
    destruct IH as (_ & IHrow & IHres).
    split; [| split].
    + intros _ Hnil. apply app_eq_nil in Hnil as [Hnil _]. congruence.
    + intros row Hin. apply in_app_or in Hin as [Hin | Hin].
      * destruct (Hrow row Hin) as (res & Hr & Hrt).
        exists exp, rs, res. auto.
      * destruct (IHrow row Hin) as (exp' & rs' & res & He & Hrs' & Hr & Hrt).
        exists exp', rs', res. auto.
    + intros exp' rs' res [<- | He] Hrs' Hr.
      * rewrite Hrs in Hrs'. injection Hrs' as <-.
        destruct (Hres res Hr) as (row & Hin & Hrt).
        exists row. split; [apply in_or_app; now left | exact Hrt].
      * destruct (IHres exp' rs' res He Hrs' Hr) as (row & Hin & Hrt).
        exists row. split; [apply in_or_app; now right | exact Hrt].
Qed.

(** ** The builder returns *)

Lemma recorded_tables trial exp :
  recorded trial exp ->
  exists t, experiment_tables trial exp = Ok t /\ liquid_adds t <> [].
Proof.
  intros (rs & others & Hrs & Hexp & Hne & Hfrom & Hbefore).
  destruct (experiment_tables_ok trial exp rs others Hrs Hexp Hne)
    as (t & Ht & _ & Hadd).
  - intros e He. apply traces_from. now apply Hfrom.
  - intros e He. apply traces_before. now apply Hbefore.
  - exists t. split; [exact Ht |].
    intros Hnil. rewrite Hnil in Hadd. inversion Hadd as [Hadds |].
    apply Hne. now symmetry.
Qed.

Lemma tables_of_experiments trial exps :
  (forall exp, In exp exps -> recorded trial exp) ->
  exists ts,
    Forall2 (fun exp t => experiment_tables trial exp = Ok t) exps ts /\
    Forall (fun t => liquid_adds t <> []) ts.
Proof.
  induction exps as [| exp exps IH]; intros Hall.
  - exists []. split; constructor.
  - destruct (recorded_tables trial exp (Hall exp (or_introl eq_refl)))
      as (t & Ht & Hne).
    destruct IH as (ts & Hts & Hnes).
    + intros e He. apply Hall. now right.
    + exists (t :: ts). split; constructor; assumption.
Qed.

Lemma for_each_tables_ok trial exps ts :
  Forall2 (fun exp t => experiment_tables trial exp = Ok t) exps ts ->
  forall acc0,
    for_each (fun acc exp => t <- experiment_tables trial exp ;; Ok (add_tables acc t))
             exps acc0
    = Ok (fold_left add_tables ts acc0).
Proof.
  induction 1 as [| exp t exps ts Ht _ IH]; intros acc0.
  - reflexivity.
  - cbn [for_each fold_left]. rewrite Ht. cbn [Py.bind]. apply IH.
Qed.

Lemma liquid_adds_fold ts :
  forall acc0,
    liquid_adds (fold_left add_tables ts acc0)
    = liquid_adds acc0 ++ concat (map liquid_adds ts).
Proof.
  induction ts as [| t ts IH]; intros acc0; simpl.
  - now rewrite app_nil_r.
  - rewrite IH. simpl. now rewrite app_assoc.
Qed.

Lemma res_wide_fold ts :
  forall acc0,
    res_wide (fold_left add_tables ts acc0)
    = res_wide acc0 ++ concat (map res_wide ts).
Proof.
  induction ts as [| t ts IH]; intros acc0; simpl.
  - now rewrite app_nil_r.
  - rewrite IH. simpl. now rewrite app_assoc.
Qed.

Lemma dataframes_ok trial :
  Trial.experiments trial <> [] ->
  (forall exp, In exp (Trial.experiments trial) -> recorded trial exp) ->
  exists d, cells_cursors_liquids_results_dataframes trial = Ok d.
Proof.
  intros Hne Hall.
  destruct (tables_of_experiments trial _ Hall) as (ts & Hts & Hnes).
  destruct (collected_rows trial _ _ Hts) as (Hcollected & Hshown & _).
  specialize (Hcollected Hne).
  unfold cells_cursors_liquids_results_dataframes.
  rewrite (for_each_tables_ok trial _ ts Hts). cbn [Py.bind].
  set (acc := fold_left add_tables ts no_tables).
  assert (Hla : exists x, In x (liquid_adds acc)).
  { unfold acc. rewrite liquid_adds_fold. simpl.
    destruct Hts as [| exp t exps ts' _ _]; [now elim Hne |].
    inversion Hnes as [| ? ? Ht _]; subst.
    destruct (liquid_adds t) as [| x xs] eqn:Hx; [now elim Ht |].
    exists x. simpl. rewrite Hx. now left. }
  assert (Hrw : res_wide acc = concat (map res_wide ts)).
  { unfold acc. now rewrite res_wide_fold. }
  clear Hts Hnes Hall.
  rewrite sort_values_ok.
  2:{ intros k Hk. apply from_records_columns.
      destruct Hla as [x Hx]. exists x. split; [exact Hx |].
      simpl in Hk. simpl. tauto. }
  cbn [Py.bind].
  assert (Hcols : forall k, In k TED_ResultWide_labels ->
                            In k (columns (from_records (res_wide acc)))).
  { intros k Hk. apply from_records_columns. rewrite Hrw.
    destruct (concat (map res_wide ts)) as [| row rest]; [now elim Hcollected |].
    exists row. split; [now left |].
    destruct (Hshown row (or_introl eq_refl)) as (exp & rs & res & _ & _ & _ & Hrow).
    apply (wide_row_keys _ _ _ _ k Hrow). now left. }
  unfold drop.
  replace (mem "SRCXFN" (columns (from_records (res_wide acc)))) with true.
  2:{ symmetry. apply mem_In. apply Hcols. simpl. tauto. }
  cbn [Py.bind].
  rewrite sort_values_ok.
  2:{ intros k Hk. cbn [drop_duplicates columns]. apply filter_In. split.
      - apply Hcols. simpl in Hk. simpl. tauto.
      - simpl in Hk.
        destruct Hk as [<- | [<- | [<- | [<- | []]]]]; reflexivity. }
  cbn [Py.bind]. eexists. reflexivity.
Qed.


(** ** The table of wide results *)

(** C7, as stated, fails: the column SRCXFN is dropped from the table
    before it is returned, and the columns CTLFL and SBFL, written to the
    rows with the liquids, are in it. *)
Lemma results_wide_columns_differ :
  ~ forall d,
      cells_cursors_liquids_results_dataframes
        (Samples.trial [Samples.two_additions]) = Ok d ->
      forall c,
        In c (columns (ResultsWide d))
        <-> In c TED_ResultWide_labels
            \/ cursor_name (Samples.trial [Samples.two_additions]) c.
Proof.
  intros H.
  assert (Hd : exists d,
             cells_cursors_liquids_results_dataframes
               (Samples.trial [Samples.two_additions]) = Ok d /\
             ~ In "SRCXFN" (columns (ResultsWide d))).
  { eexists. split; [vm_compute; reflexivity |].
    vm_compute. intuition discriminate. }
  destruct Hd as (d & Hd & Hno). apply Hno.
  apply (H d Hd). left. simpl. tauto.
Qed.

Lemma results_wide_of_dataframes trial d :
  cells_cursors_liquids_results_dataframes trial = Ok d ->
  cursor_names_apart trial ->
  wide_results_of trial (ResultsWide d).
Proof.
  unfold wide_results_of. intros Hd Hnames.
  destruct (dataframes_inv trial d Hd) as (ts & Hts & Hne & Hcols & Hrows).
  destruct (collected_rows trial _ _ Hts) as (Hcollected & Hshown & Htrace).
  specialize (Hcollected Hne). clear Hd Hts.
  set (collected := concat (map res_wide ts)) in *.
  cbn zeta. rewrite Hcols, Hrows.
  set (cols := filter _ (columns (from_records collected))).
  assert (Hcol : forall c, In c cols <->
                           c <> "SRCXFN" /\ exists r, In r collected /\ In c (keys r)).
  { intros c. unfold cols. rewrite filter_In, from_records_columns.
    rewrite negb_true_iff. split.
    - intros [Hr Hc]. split; [| exact Hr]. intros ->. discriminate Hc.
    - intros [Hc Hr]. split; [exact Hr |]. now apply String.eqb_neq. }
  split; [| split; [| split; [| split; [| split; [| split; [| split]]]]]].
  - intros Hin. apply Hcol in Hin as [Hc _]. now apply Hc.
  - intros c Hc Hne'. apply Hcol. split; [exact Hne' |].
    destruct collected as [| r rest] eqn:Hcoll; [exfalso; apply Hcollected; reflexivity |].
    exists r. split; [now left |].
    destruct (Hshown r (or_introl eq_refl)) as (exp & rs & res & _ & _ & _ & Hrow).
    apply (wide_row_keys _ _ _ _ c Hrow). now left.
  - intros c Hc.
    assert (Hne' : c <> "SRCXFN").
    { intros ->. apply (Hnames _ Hc). simpl. tauto. }
    destruct Hc as (exp & rs & res & rc & (Hexp & Hrs & Hres) & Hrc & Hname).
    apply Hcol. split; [exact Hne' |].
    destruct (Htrace exp rs res Hexp Hrs Hres) as (row & Hin & Hrow).
    exists row. split; [exact Hin |].
    apply (wide_row_keys _ _ _ _ c Hrow). right. left.
    exists rc. split; assumption.
  - intros c Hc. apply Hcol in Hc as [_ (r & Hr & Hk)].
    destruct (Hshown r Hr) as (exp & rs & res & Hexp & Hrs & Hres & Hrow).
    apply (wide_row_keys _ _ _ _ c Hrow) in Hk as [Hk | [[rc [Hrc Hname]] | [_ Hk]]].
    + now left.
    + right. left. exists exp, rs, res, rc.
      split; [split; [| split]; assumption |]. split; assumption.
    + right. right. exact Hk.
  - apply stable_sort_sorted. intros a b. apply lex_leb_total.
  - intros row Hrow.
    rewrite (Permutation_length
               (Permutation_filter (same_on cols row) _ _
                  (stable_sort_perm _ (keep_first (same_on cols) [] collected)))).
    apply stable_sort_In in Hrow.
    apply (keep_first_once (same_on cols) (same_on_refl cols) (same_on_sym cols)
                           collected []); exact Hrow.
  - intros row Hrow. apply stable_sort_In, keep_first_In in Hrow.
    destruct (Hshown row Hrow) as (exp & rs & res & Hexp & Hrs & Hres & Hrt).
    exists exp, rs, res.
    split; [split; [| split]; assumption | exact Hrt].
  - intros exp rs res (Hexp & Hrs & Hres).
    destruct (Htrace exp rs res Hexp Hrs Hres) as (shown & Hin & Hrt).
    destruct (keep_first_represents (same_on cols) collected [] shown
                (same_on_refl cols) Hin) as [row [[[] | Hrow] Hsame]].
    exists shown, row. split; [exact Hrt |]. split; [| exact Hsame].
    now apply stable_sort_In.
Qed.


Lemma two_additions_recorded :
  recorded (Samples.trial [Samples.two_additions]) Samples.two_additions.
Proof.
  exists (Samples.results_of Samples.ten_traces), [].
  split; [reflexivity |]. split.
  { split; [discriminate |]. split; [right; discriminate |]. split.
    - intros cs Hcs. injection Hcs as <-. repeat constructor; discriminate.
    - repeat constructor; discriminate. }
  split; [vm_compute; discriminate |]. split.
  - intros e He. exists (Samples.trace 10 9). split.
    + vm_compute. do 9 right. left. reflexivity.
    + vm_compute in He. destruct He as [<- | [<- | []]]; vm_compute; discriminate.
  - intros e He. exists (Samples.trace 1 0). split.
    + vm_compute. left. reflexivity.
    + vm_compute in He. destruct He as [<- | []]. vm_compute. reflexivity.
Qed.

Lemma two_additions_cursor_names :
  cursor_names_apart (Samples.trial [Samples.two_additions]).
Proof.
  intros c (exp & rs & res & rc & (Hexp & Hrs & Hres) & Hrc & <-).
  destruct Hexp as [<- | []].
  change (Some (Samples.results_of Samples.ten_traces) = Some rs) in Hrs.
  apply (f_equal (fun o => match o with Some r => r | None => rs end)) in Hrs.
  subst rs.
  assert (Hname : Cursor.name rc = "Peak"%string).
  { change (current_results (Samples.results_of Samples.ten_traces))
      with Samples.ten_traces in Hres.
    unfold Samples.ten_traces in Hres. cbn [map In] in Hres.
    repeat (destruct Hres as [<- | Hres];
            [destruct Hrc as [<- | []]; reflexivity |]).
    destruct Hres. }
  rewrite Hname. cbn. intuition discriminate.
Qed.

(** C7, amended: take a trial in which no cursor evaluated on a current
    trace of a first results set is named like an attribute of the wide
    row or like CTLFL or SBFL.  When the trial has at least one
    experiment, and each experiment has a first results set with an
    identifier of its cell, a liquid junction potential of its own or of
    the trial, a type for each of its cursors and, for each of its
    current traces, a waveform, a list of cursors and a result for each
    cursor of the list, at least one liquid addition, a current trace at
    or after every addition and a current trace before every addition
    but the earliest, the builder returns its tables; and whenever the
    builder returns, the columns of
    the wide results are the attributes EXPID, CELLID, RESTYPE, LEAKMTH,
    ELTIME, ELTIMEU, TRACENUM, ANLFL, LIQUID, CONC, CONCU and CONCT, one
    column for every name of a cursor evaluated on an exported current
    trace, and no other column than CTLFL and SBFL; SRCXFN is not among
    them.  The rows are in ascending order of EXPID, CELLID, ELTIME and
    TRACENUM; no two rows are equal on all columns; every row shows an
    exported current trace, and every exported current trace is shown by
    a row, its own or one equal to it on all columns. *)
Theorem results_wide_table :
  (forall trial,
      cursor_names_apart trial ->
      Trial.experiments trial <> [] ->
      (forall exp, In exp (Trial.experiments trial) -> recorded trial exp) ->
      exists d, cells_cursors_liquids_results_dataframes trial = Ok d) /\
  (forall trial d,
      cursor_names_apart trial ->
      cells_cursors_liquids_results_dataframes trial = Ok d ->
      wide_results_of trial (ResultsWide d)).
Proof.
  split.
  - intros trial _. exact (dataframes_ok trial).
  - intros trial d Hnames Hd. exact (results_wide_of_dataframes trial d Hd Hnames).
Qed.

Lemma results_wide_table_witness :
  exists d,
    cells_cursors_liquids_results_dataframes
      (Samples.trial [Samples.two_additions]) = Ok d /\
    wide_results_of (Samples.trial [Samples.two_additions]) (ResultsWide d).
Proof.
  destruct (proj1 results_wide_table (Samples.trial [Samples.two_additions]))
    as [d Hd].
  - exact two_additions_cursor_names.
  - discriminate.
  - intros exp [<- | []]. exact two_additions_recorded.
  - exists d. split; [exact Hd |].
    exact (proj2 results_wide_table _ d two_additions_cursor_names Hd).
Defined.

(** ** When the builder returns *)

Lemma Ok_inj {A} (a b : A) : Ok a = Ok b -> a = b.
Proof. intros H. now injection H. Qed.

Lemma for_each_inject_cursor_inv (cs : list Cursor.t) :
  forall d d',
    for_each inject_cursor cs d = Ok d' ->
    Forall (fun rc => Cursor.result rc <> None) cs.
Proof.
  induction cs as [| rc cs IH]; intros d d' H; [constructor |].
  cbn [for_each] in H. apply bind_ok in H as (d1 & H1 & H).
  constructor; [| exact (IH _ _ H)].
  unfold inject_cursor in H1. destruct (Cursor.result rc); [discriminate | discriminate H1].
Qed.

Section LoopInversion.

Variable tmp : DataFrame TED_ResultWide.t.

Lemma liquid_addition_step_inv la acc e la1 acc1 :
  liquid_addition_step tmp (la, acc) e = Ok (la1, acc1) ->
  (exists r, In r (rows tmp) /\
             Qgeb (TED_ResultWide.ELTIME r) (LiquidExecution.TIME e) = true) /\
  (acc <> [] ->
   exists r, In r (rows tmp) /\
             Qltb (TED_ResultWide.ELTIME r) (LiquidExecution.TIME e) = true) /\
  acc1 <> [].
Proof.
  unfold liquid_addition_step. intros H.
  apply bind_ok in H as (r0 & H0 & H).
  apply bind_ok in H as (acc' & Hacc & H).
  injection H as _ <-.
  split; [| split].
  - unfold iloc_first, where_, first in H0. cbn [rows] in H0.
    destruct (filter _ (rows tmp)) as [| r rest] eqn:Hf; [discriminate |].
    exists r.
    assert (Hin : In r (filter
                          (fun r => Qgeb (TED_ResultWide.ELTIME r)
                                         (LiquidExecution.TIME e)) (rows tmp)))
      by (rewrite Hf; now left).
    apply filter_In in Hin. exact Hin.
  - intros Hne. destruct acc as [| a acc0]; [congruence |].
    cbn [length Nat.ltb Nat.leb] in Hacc.
    apply bind_ok in Hacc as (r1 & H1 & _).
    unfold iloc_last, where_, last in H1. cbn [rows] in H1.
    destruct (rev (filter _ (rows tmp))) as [| r rest] eqn:Hf; [discriminate |].
    exists r.
    assert (Hin : In r (filter
                          (fun r => Qltb (TED_ResultWide.ELTIME r)
                                         (LiquidExecution.TIME e)) (rows tmp))).
    { apply in_rev. rewrite Hf. now left. }
    apply filter_In in Hin. exact Hin.
  - destruct acc'; discriminate.
Qed.

Lemma liquid_additions_loop_inv es :
  forall la acc st,
    for_each (liquid_addition_step tmp) es (la, acc) = Ok st ->
    (forall e, In e es ->
       exists r, In r (rows tmp) /\
                 Qgeb (TED_ResultWide.ELTIME r) (LiquidExecution.TIME e) = true) /\
    (forall e, In e (match acc with [] => tl es | _ => es end) ->
       exists r, In r (rows tmp) /\
                 Qltb (TED_ResultWide.ELTIME r) (LiquidExecution.TIME e) = true).
Proof.
  induction es as [| e es IH]; intros la acc st H.
  - split; [intros e [] |]. destruct acc; intros e [].
  - cbn [for_each] in H. apply bind_ok in H as ([la1 acc1] & Hstep & H).
    apply liquid_addition_step_inv in Hstep as (Hfrom & Hbefore & Hne).
    destruct (IH _ _ _ H) as [IHfrom IHbefore].
    destruct acc1 as [| a1 acc1']; [congruence |].
    split.
    + intros e' [<- | He']; [exact Hfrom | now apply IHfrom].
    + destruct acc as [| a acc0].
      * exact IHbefore.
      * intros e' [<- | He']; [apply Hbefore; discriminate | now apply IHbefore].
Qed.

End LoopInversion.

Lemma experiment_tables_recorded trial exp t :
  experiment_tables trial exp = Ok t -> recorded trial exp.
Proof.
  unfold experiment_tables. intros H.
  destruct (Experiment.resultsSet exp) as [| rs others] eqn:Hrs; [discriminate |].
  cbn [first Py.bind] in H.
  apply bind_ok in H as (cdefs & Hcdefs & H).
  apply bind_ok in H as (cellid & Hcell & H).
  apply cell_id_inv in Hcell as [-> Hcell].
  apply bind_ok in H as (ljp & Hljp & H).
  apply bind_ok in H as (exp_las & Hlas & H).
  apply bind_ok in H as (ers & Hers & H).
  apply bind_ok in H as (tmp & Htmp & H).
  apply bind_ok in H as (st & Hloop & _).
  assert (Hexec : exec_ps (Experiment.protocols exp) <> []).
  { intros Hnil. rewrite (exp_las_of_empty exp Hnil) in Hlas. discriminate. }
  rewrite (exp_las_of_ok exp Hexec) in Hlas. apply Ok_inj in Hlas. subst exp_las.
  cbn [rows] in Hloop.
  assert (Hcurs : Forall (fun res =>
                            Result.waveform res <> None /\
                            Result.cursors res <> None /\
                            Forall (fun rc => Cursor.result rc <> None)
                                   (evaluated_cursors res))
                         (current_results rs)).
  { apply Forall_forall. intros res Hres.
    apply map_outcome_Forall2 in Hers.
    destruct (Forall2_In_l _ _ _ _ Hers Hres) as (er & _ & Her).
    unfold result_wide in Her. unfold evaluated_cursors.
    destruct (Result.waveform res) as [w |]; [| discriminate].
    destruct (Result.cursors res) as [cs |]; [| discriminate].
    cbn [Py.bind] in Her. apply bind_ok in Her as (cvs & Hcvs & _).
    split; [discriminate |]. split; [discriminate |].
    exact (for_each_inject_cursor_inv _ _ _ Hcvs). }
  rewrite (map_outcome_ok _ (wide_row (composite_id (Experiment.id exp))
                                      (cell_label rs) rs))
    in Hers.
  2:{ intros res Hres. apply result_wide_ok.
      rewrite Forall_forall in Hcurs. now apply Hcurs. }
  apply Ok_inj in Hers. subst ers. fold (wide_rows exp rs) in Htmp.
  assert (Hwide : wide_rows exp rs <> []).
  { intros Hnil. rewrite Hnil in Htmp. discriminate. }
  rewrite sort_values_ok in Htmp
    by (intros k Hk; apply wide_rows_columns; assumption).
  apply Ok_inj in Htmp. subst tmp.
  apply liquid_additions_loop_inv in Hloop as [Hfrom Hbefore].
  change (rows _) with (sorted_traces exp rs) in Hfrom, Hbefore.
  exists rs, others. split; [exact Hrs |]. split; [| split; [| split]].
  - split; [exact Hcell |]. split; [| split].
    + unfold ljp_of in Hljp. destruct (Results.ljp rs); [left; discriminate |].
      destruct (Trial.ljp trial); [right; discriminate | discriminate].
    + intros cs Hcs. rewrite Hcs in Hcdefs. apply Forall_forall. intros c Hc.
      apply map_outcome_Forall2 in Hcdefs.
      destruct (Forall2_In_l _ _ _ _ Hcdefs Hc) as (cd & _ & Hcd).
      unfold cursor_definition in Hcd. destruct (Cursor.type c); [discriminate | discriminate].
    + exact Hcurs.
  - intros Hnil. unfold additions_in_time_order in Hnil.
    destruct (stable_sort (lex_leb ["TIME"]) (exec_ps (Experiment.protocols exp)))
      as [| e es] eqn:Hs.
    + apply Hexec. apply (f_equal (@length _)) in Hs.
      rewrite (Permutation_length (stable_sort_perm _ _)) in Hs.
      now apply length_zero_iff_nil.
    + discriminate Hnil.
  - intros e He. apply (proj2 (traces_from exp rs _)). exact (Hfrom e He).
  - intros e He. apply (proj2 (traces_before exp rs _)). exact (Hbefore e He).
Qed.

Lemma dataframes_recorded trial d :
  cells_cursors_liquids_results_dataframes trial = Ok d ->
  Trial.experiments trial <> [] /\
  forall exp, In exp (Trial.experiments trial) -> recorded trial exp.
Proof.
  intros Hd.
  destruct (dataframes_inv trial d Hd) as (ts & Hts & Hne & _).
  split; [exact Hne |]. intros exp Hexp.
  destruct (Forall2_In_l _ _ _ _ Hts Hexp) as (t & _ & Ht).
  exact (experiment_tables_recorded trial exp t Ht).
Qed.

(** X1: among the trials in which no cursor evaluated on a current trace
    of a first results set is named like an attribute of the wide row or
    like CTLFL or SBFL, the builder returns its four tables exactly for
    those that have an experiment and in which every experiment has a
    first results set with an identifier of its cell, a liquid junction
    potential of its own or of the trial, a type for each of its cursors
    and, for each of its current traces, a waveform, a list of cursors
    and a result for each cursor of the list, at least one liquid
    addition, a current trace at or after every addition and a current
    trace before every addition but the earliest. *)
Theorem dataframes_returned_iff trial :
  cursor_names_apart trial ->
  (exists d, cells_cursors_liquids_results_dataframes trial = Ok d)
  <-> Trial.experiments trial <> [] /\
      forall exp, In exp (Trial.experiments trial) -> recorded trial exp.
Proof.
  intros _. split.
  - intros [d Hd]. exact (dataframes_recorded trial d Hd).
  - intros [Hne Hall]. exact (dataframes_ok trial Hne Hall).
Qed.

Lemma dataframes_returned_iff_witness :
  (exists d, cells_cursors_liquids_results_dataframes
               (Samples.trial [Samples.two_additions]) = Ok d)
  /\ ~ (exists d, cells_cursors_liquids_results_dataframes
                    (Samples.trial [Samples.late_addition; Samples.experiment [] []])
                  = Ok d).
Proof.
  split.
  - apply (proj2 (dataframes_returned_iff (Samples.trial [Samples.two_additions])
                    two_additions_cursor_names)).
    split; [discriminate |].
    intros exp [<- | []]. exact two_additions_recorded.
  - intros Hd.
    assert (Hnames : cursor_names_apart
                       (Samples.trial [Samples.late_addition;
                                       Samples.experiment [] []])).
    { intros c (exp & rs & res & rc & (Hexp & Hrs & Hres) & Hrc & <-).
      destruct Hexp as [<- | [<- | []]].
      - change (Some (Samples.results_of Samples.ten_traces) = Some rs) in Hrs.
        apply (f_equal (fun o => match o with Some r => r | None => rs end)) in Hrs.
        subst rs.
        assert (Hname : Cursor.name rc = "Peak"%string).
        { change (current_results (Samples.results_of Samples.ten_traces))
            with Samples.ten_traces in Hres.
          unfold Samples.ten_traces in Hres. cbn [map In] in Hres.
          repeat (destruct Hres as [<- | Hres];
                  [destruct Hrc as [<- | []]; reflexivity |]).
          destruct Hres. }
        rewrite Hname. cbn. intuition discriminate.
      - change (Some (Samples.results_of []) = Some rs) in Hrs.
        apply (f_equal (fun o => match o with Some r => r | None => rs end)) in Hrs.
        subst rs. destruct Hres. }
    apply (proj1 (dataframes_returned_iff _ Hnames)) in Hd as [_ Hall].
    destruct (Hall (Samples.experiment [] [])) as (rs & others & _ & _ & Hne & _);
      [right; now left |].
    apply Hne. reflexivity.
Defined.

(** ** What the builder returns for an experiment *)

Lemma experiment_tables_eq trial exp t :
  experiment_tables trial exp = Ok t ->
  exists rs others ljp,
    Experiment.resultsSet exp = rs :: others /\
    ljp_of trial rs = Ok ljp /\
    Forall2 (fun c cd => cursor_definition c = Ok cd)
            (cursors_of rs) (cursors_defs t) /\
    cell_props t = cell_property_rows exp rs /\
    liquid_adds t = liquid_addition_rows exp rs ljp /\
    res_wide t = liquid_wide_rows exp rs ljp.
Proof.
  intros H.
  destruct (experiment_tables_recorded trial exp t H)
    as (rs & others & Hrs & (Hcell & _ & _ & Hcurs) & Hes & Hfrom & Hbefore).
  assert (Hexec : exec_ps (Experiment.protocols exp) <> []).
  { intros Hnil. apply Hes. unfold additions_in_time_order. now rewrite Hnil. }
  assert (Htmp : sorted_traces exp rs <> []).
  { destruct (additions_in_time_order exp) as [| e es]; [congruence |].
    destruct (proj1 (traces_from exp rs _) (Hfrom e (or_introl eq_refl)))
      as [x [Hx _]].
    intros Hnil. rewrite Hnil in Hx. destruct Hx. }
  assert (Hwide : wide_rows exp rs <> []).
  { intros Hnil. apply Htmp. unfold sorted_traces. now rewrite Hnil. }
  assert (Hparts : exists cdefs ljp,
             match Results.cursors rs with
             | Some cs => map_outcome cursor_definition cs
             | None => Ok []
             end = Ok cdefs /\ ljp_of trial rs = Ok ljp).
  { pose proof H as H0. unfold experiment_tables in H0. rewrite Hrs in H0.
    cbn [first Py.bind] in H0.
    apply bind_ok in H0 as (cdefs & Hcdefs & H0).
    apply bind_ok in H0 as (cellid & _ & H0).
    apply bind_ok in H0 as (ljp & Hljp & _).
    exists cdefs, ljp. split; assumption. }
  destruct Hparts as (cdefs & ljp & Hcdefs & Hljp).
  assert (Heq : experiment_tables trial exp
                = Ok {| cell_props := cell_property_rows exp rs;
                        cursors_defs := cdefs;
                        liquid_adds := liquid_addition_rows exp rs ljp;
                        res_wide := liquid_wide_rows exp rs ljp |}).
  { unfold experiment_tables. rewrite Hrs. cbn [first Py.bind].
    rewrite Hcdefs. cbn [Py.bind]. rewrite (cell_id_ok rs Hcell).
    cbn [Py.bind]. rewrite Hljp. cbn [Py.bind].
    rewrite (exp_las_of_ok exp Hexec). cbn [Py.bind].
    rewrite (map_outcome_ok _ (wide_row (composite_id (Experiment.id exp))
                                        (cell_label rs) rs)).
    2:{ intros res Hres. apply result_wide_ok.
        rewrite Forall_forall in Hcurs. now apply Hcurs. }
    cbn [Py.bind]. fold (wide_rows exp rs).
    rewrite sort_values_ok
      by (intros k Hk; apply wide_rows_columns; assumption).
    cbn [Py.bind].
    change {| columns := columns (from_records (wide_rows exp rs));
              rows := stable_sort
                        (lex_leb ["EXPID"; "CELLID"; "ELTIME"; "TRACENUM"])
                        (rows (from_records (wide_rows exp rs))) |}
      with (traces_frame exp rs).
    change (rows {| columns := LiquidExecution_labels;
                    rows := additions_in_time_order exp |})
      with (additions_in_time_order exp).
    change (TED_LiquidAddition.with_header _ _ _ _ _ _)
      with (liquid_addition_header exp rs ljp).
    destruct (liquid_additions_loop (traces_frame exp rs)
                (liquid_addition_header exp rs ljp) (additions_in_time_order exp))
      as [la' Hloop].
    { intros e He. exact (proj1 (traces_from exp rs _) (Hfrom e He)). }
    { intros e He. exact (proj1 (traces_before exp rs _) (Hbefore e He)). }
    rewrite Hloop. cbn [Py.bind snd].
    unfold iloc_last, last.
    change (rows (traces_frame exp rs)) with (sorted_traces exp rs).
    destruct (rev (sorted_traces exp rs)) as [| rl rest] eqn:Hrev.
    { exfalso. apply Htmp. apply (f_equal (@rev _)) in Hrev.
      now rewrite rev_involutive in Hrev. }
    cbn [Py.bind].
    pose proof (ranged_not_nil (liquid_addition_header exp rs ljp)
                  (sorted_traces exp rs) _ Hes) as Hranged.
    assert (Hlast : TED_ResultWide.TRACENUM rl = last_trace (sorted_traces exp rs)).
    { unfold last_trace. now rewrite Hrev. }
    unfold liquid_wide_rows, liquid_addition_rows.
    destruct (ranged (liquid_addition_header exp rs ljp) (sorted_traces exp rs)
                     (additions_in_time_order exp))
      as [| x xs] eqn:Hr; [congruence |].
    cbn [Py.bind]. rewrite Hlast. reflexivity. }
  rewrite Heq in H. apply Ok_inj in H. subst t.
  cbn [cell_props cursors_defs liquid_adds res_wide].
  exists rs, others, ljp.
  split; [exact Hrs |]. split; [exact Hljp |].
  split; [| split; [reflexivity | split; reflexivity]].
  unfold cursors_of. destruct (Results.cursors rs) as [cs |].
  - now apply map_outcome_Forall2.
  - apply Ok_inj in Hcdefs. subst cdefs. constructor.
Qed.

(** ** Decimal numerals *)

Lemma digits_only_string_of_uint (d : Decimal.uint) :
  digits_only (NilEmpty.string_of_uint d) = true.
Proof. induction d; simpl; auto. Qed.

Lemma digits_value_string_of_uint (d : Decimal.uint) :
  forall acc,
    digits_value acc true (NilEmpty.string_of_uint d) = Some (uint_value acc d).
Proof. induction d; intros acc; simpl; auto. Qed.

Lemma of_uint_acc_value (d : Decimal.uint) :
  forall acc, Z.pos (Pos.of_uint_acc d acc) = uint_value (Z.pos acc) d.
Proof.
  induction d; intros acc; cbn [Pos.of_uint_acc uint_value]; try reflexivity.
  all: rewrite IHd; f_equal; try lia.
Qed.

Lemma of_uint_value (d : Decimal.uint) :
  Z.of_N (Pos.of_uint d) = uint_value 0 d.
Proof.
  induction d; simpl; try reflexivity; try exact IHd;
    apply of_uint_acc_value.
Qed.

Lemma has_char_digits_only (c : ascii) (s : string) :
  digit_of c = None -> digits_only s = true -> has_char c s = false.
Proof.
  intros Hc. induction s as [| d s IH]; simpl; [reflexivity |].
  destruct (digit_of d) eqn:Hd; [| discriminate].
  intros Hs. rewrite (IH Hs), orb_false_r.
  apply Ascii.eqb_neq. intros ->. congruence.
Qed.

Lemma digit_not_space (c : ascii) :
  digit_of c <> None -> is_space c = false.
Proof.
  unfold digit_of, is_space.
  destruct (Nat.leb_spec 48 (nat_of_ascii c)), (Nat.leb_spec (nat_of_ascii c) 57);
    simpl; try congruence.
  intros _.
  destruct (Nat.leb_spec 9 (nat_of_ascii c)), (Nat.leb_spec (nat_of_ascii c) 13),
    (Nat.leb_spec 28 (nat_of_ascii c)), (Nat.leb_spec (nat_of_ascii c) 32);
    simpl; try reflexivity; lia.
Qed.

Lemma rstrip_digits_only (s : string) : digits_only s = true -> rstrip s = s.
Proof.
  induction s as [| c s IH]; simpl; [reflexivity |].
  destruct (digit_of c) eqn:Hc; [| discriminate].
  intros Hs. rewrite (IH Hs).
  destruct s; [| reflexivity].
  rewrite digit_not_space; [reflexivity | congruence].
Qed.

Lemma strip_digits_only (s : string) : digits_only s = true -> strip s = s.
Proof.
  intros Hs. unfold strip.
  assert (Hl : lstrip s = s).
  { destruct s as [| c s]; [reflexivity |]. simpl in Hs |- *.
    destruct (digit_of c) eqn:Hc; [| discriminate].
    rewrite digit_not_space; [reflexivity | congruence]. }
  rewrite Hl. now apply rstrip_digits_only.
Qed.

Lemma parse_int_digits (c : ascii) (s : string) :
  digit_of c <> None -> digits_only s = true ->
  parse_int (String c s) = digits_value 0 false (String c s).
Proof.
  intros Hc Hs. unfold parse_int.
  rewrite strip_digits_only by (simpl; destruct (digit_of c); [exact Hs | congruence]).
  destruct c as [[] [] [] [] [] [] [] []]; try reflexivity;
    exfalso; apply Hc; reflexivity.
Qed.

Lemma str_nonneg (n : Z) :
  0 <= n ->
  exists c s, str n = String c s /\ digit_of c <> None /\ digits_only s = true /\
              digits_value 0 false (String c s) = Some n.
Proof.
  intros Hn. unfold str. destruct n as [| p | p]; [| | lia].
  - exists "0"%char, ""%string. repeat split; discriminate.
  - simpl Z.to_int. unfold NilZero.string_of_int, NilZero.string_of_uint.
    pose proof (DecimalPos.Unsigned.to_uint_nonnil p) as Hnil.
    pose proof (DecimalPos.Unsigned.of_to p) as Hof.
    apply (f_equal Z.of_N) in Hof. rewrite of_uint_value in Hof. simpl Z.of_N in Hof.
    destruct (Pos.to_uint p) as [| d | d | d | d | d | d | d | d | d | d];
      [congruence | ..];
      (eexists; eexists; split; [reflexivity |]; split; [discriminate |];
       split; [apply digits_only_string_of_uint |];
       simpl; rewrite digits_value_string_of_uint; f_equal; exact Hof).
Qed.

Lemma parse_int_str (n : Z) : 0 <= n -> parse_int (str n) = Some n.
Proof.
  intros Hn. destruct (str_nonneg n Hn) as (c & s & -> & Hc & Hs & Hv).
  now rewrite parse_int_digits.
Qed.


Lemma str_not_empty (n : Z) : 0 <= n -> str n <> ""%string.
Proof.
  intros Hn. destruct (str_nonneg n Hn) as (c & s & -> & _). discriminate.
Qed.

Lemma str_negative (n : Z) :
  n < 0 -> exists s, str n = String "-" s /\ digits_only s = true.
Proof.
  intros Hn. destruct n as [| p | p]; try lia.
  unfold str. simpl Z.to_int. unfold NilZero.string_of_int.
  eexists. split; [reflexivity |].
  unfold NilZero.string_of_uint.
  destruct (Pos.to_uint p) eqn:Hp; try reflexivity;
    rewrite <- Hp; apply digits_only_string_of_uint.
Qed.

(** ** Trace numbers written and read back *)








(** X3: a negative trace number is written to [ANL] with its sign, which
    [expand_numbers_list] reads as the dash of a range: [int] is called on
    the empty string before the dash and raises [ValueError]. *)
Theorem negative_trace_number_not_read (n : Z) :
  n < 0 -> expand_numbers_list (Some (str n)) = Raise (ValueError "").
Proof.
  intros Hn. destruct (str_negative n Hn) as (s & -> & Hs).
  unfold expand_numbers_list.
  change (remove_char " " (String "-" s)) with (String "-" (remove_char " " s)).
  change (String.eqb (String "-" (remove_char " " s)) "") with false.
  cbn iota.
  rewrite (split_no_char ";" (String "-" s)).
  - cbn [map]. change (split "-" (String "-" s)) with (EmptyString :: split "-" s).
    rewrite (split_no_char "-" s)
      by (apply has_char_digits_only; [reflexivity | exact Hs]).
    reflexivity.
  - simpl. apply has_char_digits_only; [reflexivity | exact Hs].
Qed.

Lemma negative_trace_number_not_read_witness :
  expand_numbers_list (Some (str (-1))) = Raise (ValueError "").
Proof. apply negative_trace_number_not_read. lia. Defined.

(** ** The four tables of a trial *)

Lemma cell_props_fold ts :
  forall acc0,
    cell_props (fold_left add_tables ts acc0)
    = cell_props acc0 ++ concat (map cell_props ts).
Proof.
  induction ts as [| t ts IH]; intros acc0; simpl.
  - now rewrite app_nil_r.
  - rewrite IH. simpl. now rewrite app_assoc.
Qed.

Lemma cursors_defs_fold ts :
  forall acc0,
    cursors_defs (fold_left add_tables ts acc0)
    = cursors_defs acc0 ++ concat (map cursors_defs ts).
Proof.
  induction ts as [| t ts IH]; intros acc0; simpl.
  - now rewrite app_nil_r.
  - rewrite IH. simpl. now rewrite app_assoc.
Qed.

(** The tables that the builder returns, in terms of what the
    experiments contribute. *)
Lemma dataframes_eq trial d :
  cells_cursors_liquids_results_dataframes trial = Ok d ->
  exists ts,
    Forall2 (fun exp t => experiment_tables trial exp = Ok t)
            (Trial.experiments trial) ts /\
    CellProperties d
      = match concat (map cell_props ts) with
        | [] => empty_frame TED_CellProperty.labels
        | _ => from_records (concat (map cell_props ts))
        end /\
    CursorsDefinitions d
      = drop_duplicates (from_records (concat (map cursors_defs ts))) /\
    LiquidAdditions d
      = {| columns := columns (from_records (concat (map liquid_adds ts)));
           rows := stable_sort
                     (lex_leb ["STIME"; "EXPID"; "CELLID"; "FIRST"; "LAST"])
                     (concat (map liquid_adds ts)) |}.
Proof.
  intros H.
  destruct (dataframes_inv trial d H) as (ts & Hts & _).
  exists ts. split; [exact Hts |].
  unfold cells_cursors_liquids_results_dataframes in H.
  rewrite (for_each_tables_ok trial _ ts Hts) in H. cbn [Py.bind] in H.
  apply bind_ok in H as (la_df & Hla & H).
  apply bind_ok in H as (rw0 & _ & H).
  apply bind_ok in H as (rw_df & _ & H).
  apply Ok_inj in H. subst d.
  cbn [CellProperties CursorsDefinitions LiquidAdditions].
  rewrite cell_props_fold, cursors_defs_fold. cbn [no_tables cell_props cursors_defs app].
  split; [reflexivity |]. split; [reflexivity |].
  rewrite liquid_adds_fold in Hla. cbn [no_tables liquid_adds app] in Hla.
  unfold sort_values in Hla. destruct (find _ _); [discriminate |].
  apply Ok_inj in Hla. now subst la_df.
Qed.

Lemma from_records_labels {A} `{Row A} (ks : list string) (data : list A) :
  data <> [] ->
  (forall r, In r data -> keys r = ks) ->
  add_labels [] ks = ks ->
  columns (from_records data) = ks.
Proof.
  intros Hne Hkeys Hks. unfold from_records. cbn [columns].
  destruct data as [| r rest]; [congruence |]. cbn [fold_left].
  rewrite (Hkeys r (or_introl eq_refl)), Hks.
  assert (Hfold : forall rest' : list A,
             (forall r', In r' rest' -> keys r' = ks) ->
             fold_left (fun seen r' => add_labels seen (keys r')) rest' ks = ks).
  { induction rest' as [| r' rest' IH]; intros Hk; [reflexivity |].
    cbn [fold_left]. rewrite (Hk r' (or_introl eq_refl)).
    rewrite add_labels_known by tauto.
    apply IH. intros r'' Hr''. apply Hk. now right. }
  apply Hfold. intros r' Hr'. apply Hkeys. now right.
Qed.

Lemma concat_tables {X} (f : Tables -> list X)
  (g : Experiment.t -> list X) trial exps ts :
  Forall2 (fun exp t => experiment_tables trial exp = Ok t) exps ts ->
  (forall exp t, experiment_tables trial exp = Ok t -> f t = g exp) ->
  concat (map f ts) = flat_map g exps.
Proof.
  intros Hts Hfg. induction Hts as [| exp t exps ts Ht _ IH]; [reflexivity |].
  simpl. now rewrite (Hfg exp t Ht), IH.
Qed.

(** X4: the table of cell properties always has the six columns of
    [TED_CellProperty], also when no cell has a property, and its rows are
    the properties of the cells of the exported results sets, in the
    order of the experiments and of the properties of each cell. *)
Theorem cell_properties_table trial d :
  cells_cursors_liquids_results_dataframes trial = Ok d ->
  columns (CellProperties d) = TED_CellProperty.labels /\
  rows (CellProperties d) = exported_cell_properties trial.
Proof.
  intros H. destruct (dataframes_eq trial d H) as (ts & Hts & Hcp & _).
  assert (Hrows : concat (map cell_props ts) = exported_cell_properties trial).
  { apply (concat_tables cell_props _ trial _ _ Hts).
    intros exp t Ht.
    destruct (experiment_tables_eq trial exp t Ht)
      as (rs & others & ljp & Hrs & _ & _ & Hc & _).
    unfold exported_results. rewrite Hrs. exact Hc. }
  rewrite Hcp, Hrows.
  destruct (exported_cell_properties trial) as [| r rest] eqn:Hr.
  - split; reflexivity.
  - split; [| reflexivity].
    apply from_records_labels; [discriminate | | reflexivity].
    intros r' _. reflexivity.
Qed.

Lemma cell_properties_table_witness :
  exists d,
    cells_cursors_liquids_results_dataframes
      (Samples.trial [Samples.two_additions]) = Ok d /\
    columns (CellProperties d) = TED_CellProperty.labels /\
    rows (CellProperties d)
      = exported_cell_properties (Samples.trial [Samples.two_additions]).
Proof.
  destruct (dataframes_ok (Samples.trial [Samples.two_additions])) as [d Hd].
  - discriminate.
  - intros exp [<- | []]. exact two_additions_recorded.
  - exists d. split; [exact Hd |].
    exact (cell_properties_table _ d Hd).
Defined.

Lemma exported_cursor_definitions trial exps ts :
  Forall2 (fun exp t => experiment_tables trial exp = Ok t) exps ts ->
  Forall2 (fun c cd => cursor_definition c = Ok cd)
          (flat_map (fun exp =>
                       match exported_results exp with
                       | Some rs => cursors_of rs
                       | None => []
                       end) exps)
          (concat (map cursors_defs ts)).
Proof.
  induction 1 as [| exp t exps ts Ht _ IH]; [constructor |].
  simpl. apply Forall2_app; [| exact IH].
  destruct (experiment_tables_eq trial exp t Ht)
    as (rs & others & ljp & Hrs & _ & Hc & _).
  unfold exported_results. rewrite Hrs. exact Hc.
Qed.

(** X5: the table of cursor definitions has one row for every cursor of
    the exported results sets, rows equal on all columns being shown
    once.  When there is no such cursor the table has no rows and, unlike
    the table of cell properties, no columns either. *)
Theorem cursor_definitions_table trial d :
  cells_cursors_liquids_results_dataframes trial = Ok d ->
  let cols := columns (CursorsDefinitions d) in
  let table := rows (CursorsDefinitions d) in
  (exported_cursors trial = [] -> cols = [] /\ table = []) /\
  (exported_cursors trial <> [] -> cols = TED_CursorDefinition_labels) /\
  (forall row, In row table ->
     exists c, In c (exported_cursors trial) /\ cursor_definition c = Ok row) /\
  (forall c, In c (exported_cursors trial) ->
     exists cd row, cursor_definition c = Ok cd /\ In row table /\
                    same_on cols cd row = true) /\
  (forall row, In row table ->
     length (filter (same_on cols row) table) = 1%nat).
Proof.
  intros H. destruct (dataframes_eq trial d H) as (ts & Hts & _ & Hcd & _).
  pose proof (exported_cursor_definitions trial _ _ Hts) as Hdefs.
  fold (exported_cursors trial) in Hdefs.
  cbn zeta. rewrite Hcd. clear Hcd H Hts.
  generalize dependent (concat (map cursors_defs ts)). intros defs Hdefs.
  unfold drop_duplicates. cbn [columns rows].
  set (cols := columns (from_records defs)).
  split; [| split; [| split; [| split]]].
  - intros Hnil. rewrite Hnil in Hdefs. inversion Hdefs. subst.
    split; reflexivity.
  - intros Hne. apply from_records_labels; [| | reflexivity].
    + intros Hnil. rewrite Hnil in Hdefs. inversion Hdefs. congruence.
    + intros r _. reflexivity.
  - intros row Hrow. apply keep_first_In in Hrow.
    destruct (Forall2_In_r _ _ _ _ Hdefs Hrow) as (c & Hc & Hcd).
    exists c. split; assumption.
  - intros c Hc.
    destruct (Forall2_In_l _ _ _ _ Hdefs Hc) as (cd & Hin & Hcd).
    destruct (keep_first_represents (same_on cols) defs [] cd
                (same_on_refl cols) Hin) as [row [[[] | Hrow] Hsame]].
    exists cd, row. repeat split; assumption.
  - intros row Hrow.
    apply (keep_first_once (same_on cols) (same_on_refl cols) (same_on_sym cols)
                           defs []); exact Hrow.
Qed.

Lemma cursor_definitions_table_witness :
  exists d,
    cells_cursors_liquids_results_dataframes
      (Samples.trial [Samples.two_additions]) = Ok d /\
    (exported_cursors (Samples.trial [Samples.two_additions]) <> [] ->
     columns (CursorsDefinitions d) = TED_CursorDefinition_labels) /\
    (forall row, In row (rows (CursorsDefinitions d)) ->
       length (filter (same_on (columns (CursorsDefinitions d)) row)
                      (rows (CursorsDefinitions d))) = 1%nat).
Proof.
  destruct (dataframes_ok (Samples.trial [Samples.two_additions])) as [d Hd].
  - discriminate.
  - intros exp [<- | []]. exact two_additions_recorded.
  - exists d. split; [exact Hd |].
    destruct (cursor_definitions_table _ d Hd) as (_ & Hcols & _ & _ & Honce).
    split; [exact Hcols | exact Honce].
Defined.

Lemma ranged_Forall2 (P : LiquidExecution.t -> TED_LiquidAddition.t -> Prop)
  la tmp es g n :
  (forall e first, P e (with_execution e first la)) ->
  (forall e x m, P e x -> P e (TED_LiquidAddition.with_LAST m x)) ->
  (forall e x, P e x -> P e (g x)) ->
  Forall2 P es
          (map g (set_last (TED_LiquidAddition.with_LAST n) (ranged la tmp es))).
Proof.
  intros Hexec Hlast Hg. induction es as [| e es IH]; [constructor |].
  destruct es as [| e' es'].
  - simpl. constructor; [| constructor]. apply Hg, Hlast, Hlast, Hexec.
  - change (ranged la tmp (e :: e' :: es'))
      with (TED_LiquidAddition.with_LAST
              (last_before tmp (LiquidExecution.TIME e'))
              (with_execution e (first_from tmp (LiquidExecution.TIME e)) la)
            :: ranged la tmp (e' :: es')).
    destruct (ranged la tmp (e' :: es')) eqn:Hr; [discriminate Hr |].
    cbn [set_last map]. constructor; [| exact IH].
    apply Hg, Hlast, Hexec.
Qed.

Lemma liquid_addition_rows_of trial exp rs others ljp :
  Experiment.resultsSet exp = rs :: others ->
  ljp_of trial rs = Ok ljp ->
  Forall2 (liquid_addition_of trial exp)
          (additions_in_time_order exp) (liquid_addition_rows exp rs ljp).
Proof.
  intros Hrs Hljp. unfold liquid_addition_rows.
  apply ranged_Forall2.
  - intros e first. exists rs, ljp. unfold exported_results. rewrite Hrs.
    repeat split; assumption.
  - intros e x m (rs' & ljp' & H). exists rs', ljp'. exact H.
  - intros e x (rs' & ljp' & H). exists rs', ljp'. exact H.
Qed.

Lemma exported_liquid_additions trial exps ts :
  Forall2 (fun exp t => experiment_tables trial exp = Ok t) exps ts ->
  (forall x, In x (concat (map liquid_adds ts)) ->
     exists exp e, In exp exps /\ In e (additions_in_time_order exp) /\
                   liquid_addition_of trial exp e x) /\
  (forall exp e, In exp exps -> In e (additions_in_time_order exp) ->
     exists x, In x (concat (map liquid_adds ts)) /\
               liquid_addition_of trial exp e x) /\
  length (concat (map liquid_adds ts))
    = list_sum (map (fun exp => length (additions_in_time_order exp)) exps).
Proof.
  induction 1 as [| exp t exps ts Ht _ IH].
  - repeat split; [intros x [] | intros exp e []].
  - destruct IH as (IH1 & IH2 & IH3).
    destruct (experiment_tables_eq trial exp t Ht)
      as (rs & others & ljp & Hrs & Hljp & _ & _ & Hla & _).
    pose proof (liquid_addition_rows_of trial exp rs others ljp Hrs Hljp) as Hrows.
    rewrite <- Hla in Hrows. simpl. split; [| split].
    + intros x Hx. apply in_app_or in Hx as [Hx | Hx].
      * destruct (Forall2_In_r _ _ _ _ Hrows Hx) as (e & He & Hex).
        exists exp, e. auto.
      * destruct (IH1 x Hx) as (exp' & e & Hexp' & He & Hex).
        exists exp', e. auto.
    + intros exp' e [<- | Hexp'] He.
      * destruct (Forall2_In_l _ _ _ _ Hrows He) as (x & Hx & Hex).
        exists x. split; [apply in_or_app; now left | exact Hex].
      * destruct (IH2 exp' e Hexp' He) as (x & Hx & Hex).
        exists x. split; [apply in_or_app; now right | exact Hex].
    + rewrite length_app, IH3. f_equal. symmetry.
      exact (Forall2_length Hrows).
Qed.

(** X6: the table of liquid additions has the sixteen columns of
    [TED_LiquidAddition]; its rows are in ascending order of STIME, EXPID,
    CELLID, FIRST and LAST; every row belongs to an experiment of the
    trial, whose identifiers, start time and liquid junction potential it
    carries, and shows one of its distinct liquid additions; every
    distinct liquid addition of every experiment is shown by a row, and
    there are as many rows as such additions. *)
Theorem liquid_additions_table trial d :
  cells_cursors_liquids_results_dataframes trial = Ok d ->
  let table := rows (LiquidAdditions d) in
  columns (LiquidAdditions d) = TED_LiquidAddition_labels /\
  Sorted (fun a b =>
            lex_leb ["STIME"; "EXPID"; "CELLID"; "FIRST"; "LAST"] a b = true)
         table /\
  (forall x, In x table ->
     exists exp e, In exp (Trial.experiments trial) /\
                   In e (additions_in_time_order exp) /\
                   liquid_addition_of trial exp e x) /\
  (forall exp e, In exp (Trial.experiments trial) ->
     In e (additions_in_time_order exp) ->
     exists x, In x table /\ liquid_addition_of trial exp e x) /\
  length table
    = list_sum (map (fun exp => length (additions_in_time_order exp))
                    (Trial.experiments trial)).
Proof.
  intros H. destruct (dataframes_eq trial d H) as (ts & Hts & _ & _ & Hla).
  destruct (dataframes_recorded trial d H) as [Hne Hrec].
  destruct (exported_liquid_additions trial _ _ Hts) as (Hin & Hall & Hlen).
  cbn zeta. rewrite Hla. cbn [columns rows]. clear Hla H.
  split; [| split; [| split; [| split]]].
  - apply from_records_labels; [| | reflexivity].
    + destruct (Trial.experiments trial) as [| exp exps]; [congruence |].
      destruct (Hrec exp (or_introl eq_refl)) as (_ & _ & _ & _ & Hes & _).
      destruct (additions_in_time_order exp) as [| e es] eqn:He; [congruence |].
      destruct (Hall exp e (or_introl eq_refl)) as (x & Hx & _);
        [rewrite He; now left |].
      intros Hnil. rewrite Hnil in Hx. destruct Hx.
    + intros r _. reflexivity.
  - apply stable_sort_sorted. intros a b. apply lex_leb_total.
  - intros x Hx. apply stable_sort_In in Hx. now apply Hin.
  - intros exp e Hexp He. destruct (Hall exp e Hexp He) as (x & Hx & Hex).
    exists x. split; [now apply stable_sort_In | exact Hex].
  - rewrite (Permutation_length (stable_sort_perm _ _)). exact Hlen.
Qed.

Lemma liquid_additions_table_witness :
  exists d,
    cells_cursors_liquids_results_dataframes
      (Samples.trial [Samples.two_additions]) = Ok d /\
    columns (LiquidAdditions d) = TED_LiquidAddition_labels /\
    length (rows (LiquidAdditions d)) = 2%nat.
Proof.
  destruct (dataframes_ok (Samples.trial [Samples.two_additions])) as [d Hd].
  - discriminate.
  - intros exp [<- | []]. exact two_additions_recorded.
  - exists d. split; [exact Hd |].
    destruct (liquid_additions_table _ d Hd) as (Hcols & _ & _ & _ & Hlen).
    split; [exact Hcols | exact Hlen].
Defined.

(** ** The references to the waveform files *)

Lemma with_SRCXFN_same (r : TED_LiquidAddition.t) :
  TED_LiquidAddition.with_SRCXFN (TED_LiquidAddition.SRCXFN r) r = r.
Proof. destruct r. reflexivity. Qed.

Lemma Forall2_map_l {A B C} (R : B -> C -> Prop) (f : A -> B)
  (l : list A) (l' : list C) :
  Forall2 R (map f l) l' <-> Forall2 (fun a c => R (f a) c) l l'.
Proof.
  revert l'; induction l as [| a l IH]; intros l'; simpl.
  - split; intros H; inversion H; constructor.
  - split; intros H; inversion H; subst; constructor; auto; now apply IH.
Qed.

Lemma Forall2_weaken {A B} (R R' : A -> B -> Prop) (l : list A) (l' : list B) :
  (forall a b, In a l -> R a b -> R' a b) -> Forall2 R l l' -> Forall2 R' l l'.
Proof.
  intros HR H. induction H as [| a b l l' Hab _ IH]; constructor.
  - apply HR; [now left | exact Hab].
  - apply IH. intros a' b' Ha'. apply HR. now right.
Qed.

Section ExportLoop.

Variable read_csv_column : string -> Z -> Z -> option (list Q).
Variable reference : string -> string.

Let written (exps : list Experiment.t) (r r' : TED_LiquidAddition.t) : Prop :=
  same_but_SRCXFN r r' /\
  (TED_LiquidAddition.SRCXFN r' = TED_LiquidAddition.SRCXFN r \/
   TED_LiquidAddition.SRCXFN r' = reference (TED_LiquidAddition.CELLID r)) /\
  ((exists exp, In exp exps /\ row_of_experiment exp r) ->
   TED_LiquidAddition.SRCXFN r' = reference (TED_LiquidAddition.CELLID r)).

Lemma written_step exp rs exps r r' :
  exported_results exp = Some rs ->
  written exps
    (if (String.eqb (TED_LiquidAddition.EXPID r) (composite_id (Experiment.id exp))
         && String.eqb (TED_LiquidAddition.CELLID r)
                       (cell_label rs))%bool
     then TED_LiquidAddition.with_SRCXFN
            (reference (cell_label rs)) r
     else r) r' ->
  written (exp :: exps) r r'.
Proof.
  intros Hexp Hr.
  set (expid := composite_id (Experiment.id exp)) in *.
  set (sheet := cell_label rs) in *.
  destruct ((String.eqb (TED_LiquidAddition.EXPID r) expid
             && String.eqb (TED_LiquidAddition.CELLID r) sheet)%bool) eqn:Hm.
  - destruct Hr as (Hsame & Hsrc & _).
    apply andb_true_iff in Hm as [He Hc].
    apply String.eqb_eq in He, Hc.
    assert (Hr' : TED_LiquidAddition.SRCXFN r'
                  = reference (TED_LiquidAddition.CELLID r)).
    { destruct Hsrc as [Hs | Hs]; rewrite Hs; cbn; now rewrite ?Hc. }
    split; [| split; [now right | intros _; exact Hr']].
    unfold same_but_SRCXFN in *. rewrite Hsame at 1. destruct r; reflexivity.
  - destruct Hr as (Hsame & Hsrc & Htouched).
    split; [exact Hsame |]. split; [exact Hsrc |].
    intros (exp' & [<- | Hexp'] & Hrow).
    + exfalso. destruct Hrow as (rs' & Hrs' & He & Hc).
      rewrite Hexp in Hrs'.
      assert (rs' = rs) by congruence. subst rs'.
      fold expid in He. fold sheet in Hc.
      rewrite He, Hc, !String.eqb_refl in Hm. discriminate.
    + apply Htouched. exists exp'. split; assumption.
Qed.

Lemma dict_set_NoDup {V} (k : string) (v : V) (d : list (string * V)) :
  NoDup (map fst d) -> NoDup (map fst (dict_set k v d)).
Proof.
  induction d as [| [k' v'] d IH]; simpl; intros Hd.
  - constructor; [intros [] | constructor].
  - inversion Hd as [| ? ? Hk' Hd']; subst.
    destruct (String.eqb_spec k k') as [-> | Hne]; simpl.
    + constructor; assumption.
    + constructor; [| now apply IH].
      intros Hin. apply dict_set_keys in Hin as [Heq | Hin]; [congruence | contradiction].
Qed.

Lemma export_waveforms_loop (exps : list Experiment.t) :
  forall la files la' files',
    for_each (export_waveforms read_csv_column reference) exps (la, files)
      = Ok (la', files') ->
    columns la' = columns la /\
    Forall2 (written exps) (rows la) (rows la') /\
    (forall ref, In ref (map fst files') <->
                 In ref (map fst files) \/
                 exists exp rs, In exp exps /\ exported_results exp = Some rs /\
                                ref = reference (cell_label rs)) /\
    (NoDup (map fst files) -> NoDup (map fst files')).
Proof.
  induction exps as [| exp exps IH]; intros la files la' files' H.
  - cbn [for_each] in H. apply Ok_inj in H.
    assert (Hla : la' = la) by congruence.
    assert (Hfiles : files' = files) by congruence.
    subst la' files'. split; [reflexivity |]. split; [| split].
    + apply Forall2_refl. intros r. unfold written, same_but_SRCXFN.
      rewrite with_SRCXFN_same. split; [reflexivity |]. split; [now left |].
      intros (exp & [] & _).
    + intros ref. split; [tauto |]. intros [Href | (exp & rs & [] & _)]. exact Href.
    + tauto.
  - cbn [for_each] in H. apply bind_ok in H as ([la1 files1] & Hstep & H).
    destruct (IH _ _ _ _ H) as (Hcols & Hrows & Hfiles & Hnodup). clear IH H.
    unfold export_waveforms in Hstep.
    apply bind_ok in Hstep as (rs & Hrs & Hstep).
    apply bind_ok in Hstep as (sheetname & Hsheet & Hstep).
    apply cell_id_inv in Hsheet as [-> _].
    apply bind_ok in Hstep as (wf_df & _ & Hstep).
    apply Ok_inj in Hstep.
    assert (Hla1 : la1 = set_SRCXFN (composite_id (Experiment.id exp))
                           (cell_label rs)
                           (reference (cell_label rs)) la)
      by congruence.
    assert (Hfiles1 : files1 = dict_set (reference (cell_label rs))
                                        wf_df files)
      by congruence.
    clear Hstep. subst la1 files1.
    assert (Hexp : exported_results exp = Some rs).
    { unfold exported_results. unfold first in Hrs.
      destruct (Experiment.resultsSet exp); [discriminate |].
      apply Ok_inj in Hrs. now subst. }
    clear Hrs.
    split; [exact Hcols |]. split; [| split].
    + unfold set_SRCXFN in Hrows. cbn [rows] in Hrows.
      apply (proj1 (Forall2_map_l _ _ _ _)) in Hrows.
      apply (Forall2_weaken _ _ _ _ (fun r r' _ Hr => written_step exp rs exps r r' Hexp Hr)
               Hrows).
    + intros ref. rewrite Hfiles, dict_set_keys.
      split.
      * intros [[-> | Href] | (exp' & rs' & Hexp' & Hrs' & ->)].
        -- right. exists exp, rs. split; [now left | split; [exact Hexp | reflexivity]].
        -- now left.
        -- right. exists exp', rs'. split; [now right | split; [exact Hrs' | reflexivity]].
      * intros [Href | (exp' & rs' & [<- | Hexp'] & Hrs' & ->)].
        -- left. now right.
        -- left. left. rewrite Hexp in Hrs'.
           assert (rs' = rs) by congruence. now subst.
        -- right. exists exp', rs'. auto.
    + intros Hd. apply Hnodup. now apply dict_set_NoDup.
Qed.



End ExportLoop.


Lemma encapsulated_data_reference read trial edformat la_df written :
  encapsulated_data read trial edformat la_df = Ok written ->
  (edformat = "csv" \/ edformat = "zip" \/ edformat = "xlsx") /\
  for_each (export_waveforms read (reference_of edformat))
           (Trial.experiments trial) (la_df, []) = Ok written.
Proof.
  unfold encapsulated_data, reference_of.
  destruct (String.eqb_spec edformat "csv") as [-> | _]; [intros H; split; [tauto | exact H] |].
  destruct (String.eqb_spec edformat "zip") as [-> | _]; [intros H; split; [tauto | exact H] |].
  destruct (String.eqb_spec edformat "xlsx") as [-> | _]; [intros H; split; [tauto | exact H] |].
  discriminate.
Qed.

(** What [to_xlsx] writes, when it returns: the format is one of csv,
    zip and xlsx; the sheets of cell properties, cursor definitions and
    wide results are the tables of the builder, and the sheet of liquid
    additions is the builder's table with another [SRCXFN]: in every row
    the reference that the format gives to the cell of the row.  Every
    reference in the sheet names a waveform table that was written, and
    every waveform table written is referred to by a row. *)
Lemma to_xlsx_sheets read trial ted_xlsx_filename edformat ted :
  to_xlsx read trial ted_xlsx_filename edformat = Ok ted ->
  (edformat = "csv" \/ edformat = "zip" \/ edformat = "xlsx") /\
  exists d,
    cells_cursors_liquids_results_dataframes trial = Ok d /\
    CellProperties_sheet ted = CellProperties d /\
    CursorsDefinitions_sheet ted = CursorsDefinitions d /\
    ResultsWide_sheet ted = ResultsWide d /\
    columns (LiquidAdditions_sheet ted) = columns (LiquidAdditions d) /\
    Forall2 same_but_SRCXFN
            (rows (LiquidAdditions d)) (rows (LiquidAdditions_sheet ted)) /\
    (forall x, In x (rows (LiquidAdditions_sheet ted)) ->
       TED_LiquidAddition.SRCXFN x
         = reference_of edformat (TED_LiquidAddition.CELLID x) /\
       In (TED_LiquidAddition.SRCXFN x) (map fst (waveform_files ted))) /\
    (forall ref, In ref (map fst (waveform_files ted)) ->
       exists x, In x (rows (LiquidAdditions_sheet ted)) /\
                 TED_LiquidAddition.SRCXFN x = ref).
Proof.
  unfold to_xlsx. intros H.
  apply bind_ok in H as (gi & _ & H).
  apply bind_ok in H as (ivp & _ & H).
  apply bind_ok in H as (d & Hd & H).
  apply bind_ok in H as ([la' files'] & Hw & H).
  apply Ok_inj in H. subst ted.
  cbn [CellProperties_sheet CursorsDefinitions_sheet ResultsWide_sheet
       LiquidAdditions_sheet waveform_files fst snd].
  apply encapsulated_data_reference in Hw as [Hfmt Hloop].
  split; [exact Hfmt |]. exists d. split; [exact Hd |].
  do 3 (split; [reflexivity |]).
  destruct (export_waveforms_loop read (reference_of edformat) _ _ _ _ _ Hloop)
    as (Hcols & Hrows & Hfiles & _).
  destruct (dataframes_eq trial d Hd) as (ts & Hts & _ & _ & Hla).
  destruct (dataframes_recorded trial d Hd) as [_ Hrec].
  destruct (exported_liquid_additions trial _ _ Hts) as (Hin & Hall & _).
  assert (Hla_rows : forall x, In x (rows (LiquidAdditions d))
                               <-> In x (concat (map liquid_adds ts))).
  { intros x. rewrite Hla. cbn [rows]. apply stable_sort_In. }
  clear Hla Hloop Hd.
  split; [exact Hcols |]. split; [| split].
  - apply (Forall2_weaken _ _ _ _ (fun r r' _ Hr => proj1 Hr) Hrows).
  - intros x' Hx'.
    destruct (Forall2_In_r _ _ _ _ Hrows Hx') as (x & Hx & Hsame & _ & Htouched).
    assert (Hcell : TED_LiquidAddition.CELLID x' = TED_LiquidAddition.CELLID x).
    { unfold same_but_SRCXFN in Hsame. rewrite Hsame. reflexivity. }
    apply Hla_rows in Hx.
    destruct (Hin x Hx) as (exp & e & Hexp & _ & rs & ljp & Hrs & _ & He & Hc & _).
    assert (Hsrc : TED_LiquidAddition.SRCXFN x'
                   = reference_of edformat (TED_LiquidAddition.CELLID x)).
    { apply Htouched. exists exp. split; [exact Hexp |]. exists rs. auto. }
    rewrite Hcell. split; [exact Hsrc |].
    rewrite Hsrc. apply Hfiles. right. exists exp, rs.
    split; [exact Hexp |]. split; [exact Hrs |]. now rewrite Hc.
  - intros ref Href. apply Hfiles in Href as [[] | (exp & rs & Hexp & Hrs & ->)].
    destruct (Hrec exp Hexp) as (_ & _ & _ & _ & Hes & _).
    destruct (additions_in_time_order exp) as [| e es] eqn:He; [congruence |].
    destruct (Hall exp e Hexp) as (x & Hx & rs' & ljp & Hrs' & _ & Hexpid & Hc & _);
      [rewrite He; now left |].
    assert (rs' = rs) by congruence. subst rs'.
    apply Hla_rows in Hx.
    destruct (Forall2_In_l _ _ _ _ Hrows Hx) as (x' & Hx' & _ & _ & Htouched).
    exists x'. split; [exact Hx' |]. rewrite <- Hc. apply Htouched.
    exists exp. split; [exact Hexp |]. exists rs. auto.
Qed.

(** X7: what [to_xlsx] writes, when it returns: the format is one of csv,
    zip and xlsx; the sheets of cell properties, cursor definitions and
    wide results are the tables of the builder, and the sheet of liquid
    additions is the builder's table with another [SRCXFN]: in every row
    the reference that the format gives to the cell of the row.  Every
    reference in the sheet names a waveform table that was written, and
    every waveform table written is referred to by a row. *)
Theorem exported_references read trial ted_xlsx_filename edformat ted :
  to_xlsx read trial ted_xlsx_filename edformat = Ok ted ->
  (edformat = "csv" \/ edformat = "zip" \/ edformat = "xlsx") /\
  exists d,
    cells_cursors_liquids_results_dataframes trial = Ok d /\
    CellProperties_sheet ted = CellProperties d /\
    CursorsDefinitions_sheet ted = CursorsDefinitions d /\
    ResultsWide_sheet ted = ResultsWide d /\
    columns (LiquidAdditions_sheet ted) = columns (LiquidAdditions d) /\
    Forall2 same_but_SRCXFN
            (rows (LiquidAdditions d)) (rows (LiquidAdditions_sheet ted)) /\
    (forall x, In x (rows (LiquidAdditions_sheet ted)) ->
       TED_LiquidAddition.SRCXFN x
         = reference_of edformat (TED_LiquidAddition.CELLID x) /\
       In (TED_LiquidAddition.SRCXFN x) (map fst (waveform_files ted))) /\
    (forall ref, In ref (map fst (waveform_files ted)) ->
       exists x, In x (rows (LiquidAdditions_sheet ted)) /\
                 TED_LiquidAddition.SRCXFN x = ref).
Proof. exact (to_xlsx_sheets read trial ted_xlsx_filename edformat ted). Qed.

Lemma exported_references_witness :
  exists ted,
    to_xlsx Samples.no_file (Samples.trial [Samples.two_additions]) "ted.xlsx" "zip"
      = Ok ted /\
    forall x, In x (rows (LiquidAdditions_sheet ted)) ->
      TED_LiquidAddition.SRCXFN x
        = reference_of "zip" (TED_LiquidAddition.CELLID x) /\
      In (TED_LiquidAddition.SRCXFN x) (map fst (waveform_files ted)).
Proof.
  assert (H : exists ted,
             to_xlsx Samples.no_file (Samples.trial [Samples.two_additions])
                     "ted.xlsx" "zip" = Ok ted).
  { eexists. vm_compute. reflexivity. }
  destruct H as [ted Hted]. exists ted. split; [exact Hted |].
  destruct (exported_references _ _ _ _ _ Hted)
    as (_ & d & _ & _ & _ & _ & _ & _ & Hsrc & _).
  exact Hsrc.
Defined.

(** ** References that the importer can load *)

Lemma has_char_app (c : ascii) (a b : string) :
  has_char c (a ++ b) = (has_char c a || has_char c b)%bool.
Proof.
  induction a as [| d a IH]; simpl; [reflexivity |].
  now rewrite IH, orb_assoc.
Qed.

Lemma length_append (a b : string) :
  String.length (a ++ b) = (String.length a + String.length b)%nat.
Proof. induction a as [| d a IH]; simpl; [reflexivity | now rewrite IH]. Qed.

Lemma substring_all (t : string) : substring 0 (String.length t) t = t.
Proof. induction t as [| d t IH]; simpl; [reflexivity | now rewrite IH]. Qed.

Lemma substring_append (a t : string) :
  substring (String.length a) (String.length t) (a ++ t) = t.
Proof.
  induction a as [| d a IH]; simpl; [apply substring_all | exact IH].
Qed.

Lemma substring_prefix (a t : string) :
  substring 0 (String.length a) (a ++ t) = a.
Proof.
  induction a as [| d a IH]; simpl.
  - destruct t; reflexivity.
  - now rewrite IH.
Qed.

Lemma suffix_append (a t : string) :
  suffix (String.length t) (a ++ t) = t.
Proof.
  unfold suffix. rewrite length_append.
  replace (String.length a + String.length t - String.length t)%nat
    with (String.length a) by lia.
  apply substring_append.
Qed.

Lemma drop_suffix_append (a t : string) :
  drop_suffix (String.length t) (a ++ t) = a.
Proof.
  unfold drop_suffix. rewrite length_append.
  replace (String.length a + String.length t - String.length t)%nat
    with (String.length a) by lia.
  apply substring_prefix.
Qed.

Lemma append_assoc (a b c : string) : ((a ++ b) ++ c = a ++ (b ++ c))%string.
Proof. induction a as [| d a IH]; simpl; [reflexivity | now rewrite IH]. Qed.

Lemma csv_reference_eq (s : string) : csv_reference s = (s ++ ".csv")%string.
Proof. reflexivity. Qed.

Lemma zip_reference_eq (s : string) :
  zip_reference s = ((s ++ ".csv.zip") ++ String ":" (s ++ ".csv"))%string.
Proof.
  unfold zip_reference.
  change (join "." [s; "csv"; "zip"]) with (s ++ ".csv.zip")%string.
  f_equal. simpl append. f_equal.
  change ".csv.zip" with (".csv" ++ ".zip")%string.
  rewrite <- append_assoc.
  exact (drop_suffix_append (s ++ ".csv") ".zip").
Qed.

Lemma load_csv_reference files previous (s : string) :
  has_char ":" s = false ->
  load_waveforms files previous (csv_reference s)
  = (t <- read_table files (csv_reference s) ;; Ok (Some t)).
Proof.
  intros Hs. unfold load_waveforms. rewrite csv_reference_eq.
  assert (H4 : suffix 4 (s ++ ".csv") = ".csv") by exact (suffix_append s ".csv").
  rewrite H4. change (String.eqb (lower ".csv") ".csv") with true. cbn iota.
  rewrite split_no_char; [reflexivity |].
  rewrite has_char_app, Hs. reflexivity.
Qed.

Lemma load_zip_reference files previous (s : string) :
  has_char ":" s = false ->
  load_waveforms files previous (zip_reference s)
  = (t <- read_table files (zip_reference s) ;; Ok (Some t)).
Proof.
  intros Hs. unfold load_waveforms. rewrite zip_reference_eq.
  assert (Hsuffix : suffix 4 ((s ++ ".csv.zip") ++ String ":" (s ++ ".csv")) = ".csv").
  { change (String ":" (s ++ ".csv")) with ((String ":" s) ++ ".csv")%string.
    rewrite <- append_assoc. exact (suffix_append _ ".csv"). }
  rewrite Hsuffix. change (String.eqb (lower ".csv") ".csv") with true. cbn iota.
  rewrite split_app_sep by (rewrite has_char_app, Hs; reflexivity).
  rewrite split_no_char by (rewrite has_char_app, Hs; reflexivity).
  change (s ++ ".csv.zip")%string with (s ++ (".csv" ++ ".zip"))%string.
  rewrite <- (append_assoc s ".csv" ".zip").
  assert (H4 : suffix 4 ((s ++ ".csv") ++ ".zip") = ".zip")
    by exact (suffix_append (s ++ ".csv") ".zip").
  rewrite H4. change (String.eqb (lower ".zip") ".zip") with true. cbn iota.
  reflexivity.
Qed.


Lemma load_csv_reference_colon files previous (a b : string) :
  has_char ":" a = false ->
  String.eqb (lower (suffix 4 a)) ".zip" = false ->
  load_waveforms files previous (csv_reference (a ++ String ":" b)) = Ok previous.
Proof.
  intros Ha Hzip. unfold load_waveforms. rewrite csv_reference_eq.
  assert (H4 : suffix 4 ((a ++ String ":" b) ++ ".csv") = ".csv")
    by exact (suffix_append _ ".csv").
  rewrite H4. change (String.eqb (lower ".csv") ".csv") with true. cbn iota.
  rewrite append_assoc. change (String ":" b ++ ".csv")%string
    with (String ":" (b ++ ".csv")).
  rewrite (split_app_sep ":" a _ Ha).
  pose proof (split_not_nil ":" (b ++ ".csv")) as Hne.
  destruct (split ":" (b ++ ".csv")) as [| member rest]; [congruence |].
  now rewrite Hzip.
Qed.

(** X8: how [from_xlsx] reads the references that [to_xlsx] writes.  For a
    sheet name without colon, the reference of the format csv is read as
    a file of delimited text, and the reference of the format zip as the
    member [name.csv] of the archive [name.csv.zip].  A sheet name with a
    colon makes the reference of the format csv one that the importer
    does not load: it keeps the table of the previous file. *)
Theorem exported_references_read files previous :
  (forall s, has_char ":" s = false ->
     load_waveforms files previous (csv_reference s)
     = (t <- read_table files (s ++ ".csv") ;; Ok (Some t))) /\
  (forall s, has_char ":" s = false ->
     load_waveforms files previous (zip_reference s)
     = (t <- read_table files ((s ++ ".csv.zip") ++ ":" ++ (s ++ ".csv")) ;;
        Ok (Some t))) /\
  (forall a b, has_char ":" a = false ->
     String.eqb (lower (suffix 4 a)) ".zip" = false ->
     load_waveforms files previous (csv_reference (a ++ ":" ++ b)) = Ok previous).
Proof.
  split; [| split].
  - intros s Hs. now rewrite load_csv_reference.
  - intros s Hs. rewrite load_zip_reference by exact Hs.
    now rewrite zip_reference_eq.
  - intros a b. apply load_csv_reference_colon.
Qed.

Lemma exported_references_read_witness :
  load_waveforms [("A01.csv", [])] None (csv_reference "A01") = Ok (Some []) /\
  load_waveforms [("A01.csv.zip:A01.csv", [])] None (zip_reference "A01")
    = Ok (Some []) /\
  load_waveforms [("A:1.csv", [])] None (csv_reference "A:1") = Ok None.
Proof.
  destruct (exported_references_read [("A01.csv", [])] None) as (Hcsv & _ & _).
  destruct (exported_references_read [("A01.csv.zip:A01.csv", [])] None)
    as (_ & Hzip & _).
  destruct (exported_references_read [("A:1.csv", [])] None) as (_ & _ & Hcolon).
  split; [| split].
  - rewrite (Hcsv "A01" eq_refl). reflexivity.
  - rewrite (Hzip "A01" eq_refl). reflexivity.
  - exact (Hcolon "A" "1" eq_refl eq_refl).
Defined.




(** ** The intended voltage protocol *)



Lemma time_column_is_not_signal_column (u rest : string) :
  String.eqb ("t_" ++ u) ("trace_#" ++ rest) = false.
Proof. reflexivity. Qed.

Lemma keep_first_linspace (inc : Q) (ys : list Q) :
  ~ (inc == 0)%Q ->
  forall k seen,
    (forall p, In p seen ->
       exists i, (i < k)%nat /\ (fst p == inject_Z (Z.of_nat i) * inc)%Q) ->
    keep_first pair_eqb seen
      (combine (map (fun i => (inject_Z (Z.of_nat i) * inc)%Q)
                    (seq k (length ys))) ys)
    = combine (map (fun i => (inject_Z (Z.of_nat i) * inc)%Q)
                   (seq k (length ys))) ys.
Proof.
  intros Hinc. induction ys as [| y ys IH]; intros k seen Hseen; [reflexivity |].
  cbn [length seq map combine keep_first].
  assert (Hnew : existsb (pair_eqb (inject_Z (Z.of_nat k) * inc, y)%Q) seen = false).
  { destruct (existsb _ seen) eqn:Hex; [| reflexivity].
    apply existsb_exists in Hex as (p & Hp & Heq).
    destruct (Hseen p Hp) as (i & Hi & Hfst).
    unfold pair_eqb in Heq. apply andb_true_iff in Heq as [Heq _].
    apply Qeq_bool_iff in Heq. cbn [fst] in Heq. rewrite Hfst in Heq.
    exfalso. apply Hinc.
    assert (Hk : (inject_Z (Z.of_nat k - Z.of_nat i) * inc == 0)%Q).
    { unfold Zminus. rewrite inject_Z_plus, inject_Z_opp. lra. }
    apply Qmult_integral in Hk as [Hk | Hk]; [| exact Hk].
    exfalso. change 0%Q with (inject_Z 0) in Hk.
    apply (proj1 (inject_Z_injective _ _)) in Hk. lia. }
  rewrite Hnew. f_equal. apply IH.
  intros p [<- | Hp].
  - exists k. split; [lia | reflexivity].
  - destruct (Hseen p Hp) as (i & Hi & Hfst). exists i. split; [lia | exact Hfst].
Qed.

Lemma map_fst_combine {A B} (l : list A) (l' : list B) :
  length l = length l' -> map fst (combine l l') = l.
Proof.
  revert l'; induction l as [| a l IH]; intros [| b l']; simpl; try discriminate;
    [reflexivity |].
  intros H. f_equal. apply IH. lia.
Qed.

Lemma map_snd_combine {A B} (l : list A) (l' : list B) :
  length l = length l' -> map snd (combine l l') = l'.
Proof.
  revert l'; induction l as [| a l IH]; intros [| b l']; simpl; try discriminate;
    [reflexivity |].
  intros H. f_equal. apply IH. lia.
Qed.

Lemma drop_duplicate_rows_linspace (a b : string) (inc : Q) (ys : list Q) :
  ~ (inc == 0)%Q ->
  drop_duplicate_rows [(a, linspace inc (length ys)); (b, ys)]
  = [(a, linspace inc (length ys)); (b, ys)].
Proof.
  intros Hinc. unfold drop_duplicate_rows, linspace.
  rewrite (keep_first_linspace inc ys Hinc 0 []) by (intros p []).
  rewrite map_fst_combine, map_snd_combine; try reflexivity;
    now rewrite length_map, length_seq.
Qed.

Section VoltageProtocolRoundTrip.

Variable read_csv_column : string -> Z -> Z -> option (list Q).


End VoltageProtocolRoundTrip.




(** X11: a trial that [to_xlsx] exports but [from_xlsx] cannot read back.
    Without a voltage protocol the sheet of the intended voltage protocol
    is written empty, and with a voltage protocol of a single sample in
    memory it has a single row, the time 0 and the sample in physical
    units; the importer takes the names of the first two columns and the
    difference of the first two times, and raises [IndexError] on either
    sheet. *)
Theorem voltage_protocol_not_read_back read_csv_column trial :
  (first_voltage_protocol (Trial.protocols trial) = None ->
   voltage_command_dataframe read_csv_column trial = Ok [] /\
   voltage_command_protocol [] = Raise IndexError) /\
  (forall p d,
     first_voltage_protocol (Trial.protocols trial) = Some p ->
     Waveform.digits (VoltageProtocol.waveform p) = [d] ->
     let w := VoltageProtocol.waveform p in
     let sheet :=
       [(("t_" ++ snd (Waveform.increment w))%string,
         [(0 * fst (Waveform.increment w))%Q]);
        (signal_colname w,
         [(d * fst (Waveform.scale w) + fst (Waveform.origin w))%Q])] in
     voltage_command_dataframe read_csv_column trial = Ok sheet /\
     voltage_command_protocol sheet = Raise IndexError).
Proof.
  split.
  - intros Hp. unfold voltage_command_dataframe. rewrite Hp. split; reflexivity.
  - intros p d Hp Hd. cbn zeta. unfold voltage_command_dataframe. rewrite Hp.
    unfold timeseries_to_df, signal_colname. rewrite Hd. cbn [Py.bind].
    set (signam := if String.eqb _ "" then _ else _).
    rewrite time_column_is_not_signal_column. cbn [Py.bind].
    split; reflexivity.
Qed.

Lemma voltage_protocol_not_read_back_witness :
  (voltage_command_dataframe Samples.no_file Samples.bare_trial = Ok [] /\
   voltage_command_protocol [] = Raise IndexError) /\
  (voltage_command_dataframe Samples.no_file Samples.single_sample_trial
   = Ok [("t_ms"%string, [0%Q]); ("trace_#-1_voltage_mV"%string, [(-80)%Q])] /\
   voltage_command_protocol
     [("t_ms"%string, [0%Q]); ("trace_#-1_voltage_mV"%string, [(-80)%Q])]
   = Raise IndexError).
Proof.
  split.
  - apply (proj1 (voltage_protocol_not_read_back Samples.no_file Samples.bare_trial)).
    reflexivity.
  - exact (proj2 (voltage_protocol_not_read_back Samples.no_file
                    Samples.single_sample_trial)
                 Samples.single_sample_command (-80)%Q eq_refl eq_refl).
Defined.

(** ** The sheet of general information *)

Lemma general_information_value_mem gi key :
  if mem key (map fst gi)
  then exists v, general_information_value gi key = Ok v /\ In (key, v) gi
  else general_information_value gi key = Raise IndexError.
Proof.
  unfold general_information_value.
  destruct (mem key (map fst gi)) eqn:Hm.
  - apply mem_In in Hm. apply in_map_iff in Hm as [[k v] [Hk Hin]].
    simpl in Hk. subst k.
    assert (Hf : In (key, v) (filter (fun kv => String.eqb (fst kv) key) gi)).
    { apply filter_In. split; [exact Hin | apply String.eqb_refl]. }
    destruct (filter _ gi) as [| [k' v'] rest] eqn:Hfilter; [destruct Hf |].
    exists v'. split; [reflexivity |].
    assert (Hin' : In (k', v') (filter (fun kv => String.eqb (fst kv) key) gi))
      by (rewrite Hfilter; now left).
    apply filter_In in Hin' as [Hin' Hk']. apply String.eqb_eq in Hk'.
    simpl in Hk'. now subst k'.
  - destruct (filter _ gi) as [| [k' v'] rest] eqn:Hfilter; [reflexivity |].
    exfalso.
    assert (Hin' : In (k', v') (filter (fun kv => String.eqb (fst kv) key) gi))
      by (rewrite Hfilter; now left).
    apply filter_In in Hin' as [Hin' Hk']. apply String.eqb_eq in Hk'.
    simpl in Hk'. subst k'.
    assert (Ht : mem key (map fst gi) = true).
    { apply mem_In. apply in_map_iff. exists (key, v'). split; [reflexivity | exact Hin']. }
    congruence.
Qed.

Lemma study_and_device_labels gi :
  if forallb (fun key => mem key (map fst gi)) general_information_labels
  then exists sd, study_and_device gi = Ok sd
  else study_and_device gi = Raise IndexError.
Proof.
  unfold study_and_device, general_information_labels. cbn [forallb].
  repeat match goal with
         | |- context [mem ?k (map fst gi)] =>
             let H := fresh "H" in
             let v := fresh "v" in
             pose proof (general_information_value_mem gi k) as H;
             destruct (mem k (map fst gi));
             [destruct H as (v & -> & _); cbn [Py.bind andb]
             | rewrite H; cbn [Py.bind andb]; reflexivity]
         end.
  eexists. reflexivity.
Qed.

(** X12: [from_xlsx] reads the study and the device from the sheet of
    general information when the sheet has a row for each of the nine
    labels it looks up, whatever else the sheet holds, and raises
    [IndexError] when one of them is missing. *)
Theorem general_information_labels_needed gi :
  if forallb (fun key => mem key (map fst gi)) general_information_labels
  then exists sd, study_and_device gi = Ok sd
  else study_and_device gi = Raise IndexError.
Proof. exact (study_and_device_labels gi). Qed.



(** ** Liquid protocols written and read back *)

Lemma flag_read_back (b : bool) :
  String.eqb (upper (upper_flag (flag b))) "Y" = b.
Proof. destruct b; reflexivity. Qed.

(** X14: a liquid protocol whose concentration is a number, nominal or
    measured, survives export and import.  (A concentration that is not
    a number, the default of the constructor, is written as an empty
    cell and read back as the empty string.)  From a row of the liquid
    additions that shows an execution of the protocol, the importer
    constructs a liquid protocol with the same liquid name,
    concentration, unit and type of concentration, and the same control
    and selective-blocker flags; the identifier, the name and the
    duration of the protocol are not those of the original. *)
Theorem liquid_protocol_round_trip format_float liquids idx p lp e x :
  ProtocolExecution.protocol p = Liquid_ lp ->
  LiquidProtocol.conc lp <> NaN ->
  LiquidProtocol.conc_type lp = CIPA_PROTOCOL_LIQUID_CONCENTRATION_NOMINAL \/
  LiquidProtocol.conc_type lp = CIPA_PROTOCOL_LIQUID_CONCENTRATION_MEASURED ->
  liquid_execution p = Some e ->
  addition_of e x ->
  (exists l, In l liquids /\ Liquid.name l = TED_LiquidAddition.LIQUID x) ->
  exists lp',
    liquid_protocol_of format_float liquids (idx, upper_flags x) = Ok lp' /\
    same_liquid_protocol lp lp'.
Proof.
  intros Hp _ Hct He (Hl & Hc & Hcu & Hcty & Hctl & Hsb) (l & Hin & Hname).
  unfold liquid_execution in He. rewrite Hp in He.
  apply (f_equal (fun o => match o with Some e' => e' | None => e end)) in He.
  subst e.
  cbn [LiquidExecution.LIQUID LiquidExecution.CONC LiquidExecution.CONCU
       LiquidExecution.CONCT LiquidExecution.CTLFL LiquidExecution.SBFL]
    in Hl, Hc, Hcu, Hcty, Hctl, Hsb.
  unfold liquid_protocol_of.
  cbn [upper_flags TED_LiquidAddition.with_liquid TED_LiquidAddition.LIQUID
       TED_LiquidAddition.CONC TED_LiquidAddition.CONCU TED_LiquidAddition.CONCT
       TED_LiquidAddition.CTLFL TED_LiquidAddition.SBFL].
  assert (Hfound : In l (filter (fun l0 => String.eqb (Liquid.name l0)
                                             (TED_LiquidAddition.LIQUID x)) liquids)).
  { apply filter_In. split; [exact Hin | now apply String.eqb_eq]. }
  destruct (filter _ liquids) as [| l0 rest] eqn:Hf; [destruct Hfound |].
  assert (Hl0 : Liquid.name l0 = TED_LiquidAddition.LIQUID x).
  { assert (Hin0 : In l0 (filter (fun l0 => String.eqb (Liquid.name l0)
                                               (TED_LiquidAddition.LIQUID x)) liquids))
      by (rewrite Hf; now left).
    apply filter_In in Hin0 as [_ H0]. now apply String.eqb_eq. }
  cbn [first Py.bind].
  assert (Hconct : subscript conctypes (upper (TED_LiquidAddition.CONCT x))
                   = Ok (LiquidProtocol.conc_type lp)).
  { rewrite Hcty. destruct Hct as [-> | ->]; reflexivity. }
  rewrite Hconct. cbn [Py.bind].
  eexists. split; [reflexivity |].
  unfold same_liquid_protocol.
  cbn [LiquidProtocol.liquid LiquidProtocol.conc LiquidProtocol.conc_u
       LiquidProtocol.conc_type LiquidProtocol.isControl
       LiquidProtocol.isSelectiveBlocker].
  rewrite Hl0, Hl, Hc, Hcu, Hctl, Hsb, !flag_read_back.
  repeat split.
Qed.

Lemma liquid_protocol_round_trip_witness :
  exists lp',
    liquid_protocol_of (fun _ => ""%string) [Samples.liquid "drug"]
      (0, upper_flags
            (with_execution
               {| LiquidExecution.LIQUID := "drug";
                  LiquidExecution.CONC := Fin 1;
                  LiquidExecution.CONCU := "uM";
                  LiquidExecution.CONCT := "NOMINAL";
                  LiquidExecution.TIME := 5;
                  LiquidExecution.TIMEU := "s";
                  LiquidExecution.CTLFL := "";
                  LiquidExecution.SBFL := "" |} 1 TED_LiquidAddition.init))
      = Ok lp' /\
    same_liquid_protocol
      (Samples.liquid_protocol "drug" 1 CIPA_PROTOCOL_LIQUID_CONCENTRATION_NOMINAL)
      lp'.
Proof.
  apply (liquid_protocol_round_trip (fun _ => ""%string) [Samples.liquid "drug"] 0
           (Samples.addition "drug" 1 CIPA_PROTOCOL_LIQUID_CONCENTRATION_NOMINAL 5)
           (Samples.liquid_protocol "drug" 1 CIPA_PROTOCOL_LIQUID_CONCENTRATION_NOMINAL)
           {| LiquidExecution.LIQUID := "drug";
              LiquidExecution.CONC := Fin 1;
              LiquidExecution.CONCU := "uM";
              LiquidExecution.CONCT := "NOMINAL";
              LiquidExecution.TIME := 5;
              LiquidExecution.TIMEU := "s";
              LiquidExecution.CTLFL := "";
              LiquidExecution.SBFL := "" |}).
  - reflexivity.
  - discriminate.
  - now left.
  - reflexivity.
  - repeat split.
  - exists (Samples.liquid "drug"). split; [now left | reflexivity].
Defined.

(** ** The waveform file of consecutive traces *)

(** X15: the start time of a waveform file is given to the first trace read
    from it only.  When the block that reads the waveform file returns for
    a reference other than the empty string, the dictionary names that
    file, and the block run again for the same reference, as it is for the
    next trace of the file, leaves the dictionary as it is and gives the
    start time 0 and the unit ms, whatever the start time of the file. *)
Theorem waveform_file_read_once files w srcxfn w' time_units time_head :
  srcxfn <> ""%string ->
  waveform_read_from_file files w srcxfn = Ok (w', time_units, time_head) ->
  filename w' = srcxfn /\
  waveform_read_from_file files w' srcxfn = Ok (w', "ms"%string, 0%Q).
Proof.
  intros Hne H.
  assert (Hname : filename w' = srcxfn).
  { unfold waveform_read_from_file in H.
    destruct (String.eqb_spec (filename w) "") as [He | He];
      [| destruct (String.eqb_spec (filename w) srcxfn) as [Hs | Hs]];
      cbn [orb negb] in H.
    2:{ apply Ok_inj in H. congruence. }
    all: apply bind_ok in H as (loaded & _ & H);
      apply bind_ok in H as (table & _ & H);
      apply bind_ok in H as (c0 & _ & H);
      apply bind_ok in H as (h & _ & H);
      apply bind_ok in H as (x1 & _ & H);
      apply bind_ok in H as (x0 & _ & H);
      destruct (normalize_time _ _ _) as [[u h'] st];
      apply Ok_inj in H;
      assert (Hw : w' = {| filename := srcxfn; data := Some table;
                            t_increase_ms := st |}) by congruence;
      now rewrite Hw. }
  split; [exact Hname |].
  unfold waveform_read_from_file. rewrite Hname, String.eqb_refl.
  destruct (String.eqb_spec srcxfn "") as [-> | _]; [congruence |].
  reflexivity.
Qed.

Lemma waveform_file_read_once_witness :
  exists w',
    waveform_read_from_file
      [("A01.csv", [("Time_s", [2%Q; (5 # 2)%Q]); ("Trace_#1_CURRENT_pA", [1%Q; 2%Q])])]
      no_waveformdata "A01.csv"
    = Ok (w', "s"%string, 2000%Q) /\
    waveform_read_from_file
      [("A01.csv", [("Time_s", [2%Q; (5 # 2)%Q]); ("Trace_#1_CURRENT_pA", [1%Q; 2%Q])])]
      w' "A01.csv"
    = Ok (w', "ms"%string, 0%Q).
Proof.
  assert (H : exists w',
             waveform_read_from_file
               [("A01.csv", [("Time_s", [2%Q; (5 # 2)%Q]);
                             ("Trace_#1_CURRENT_pA", [1%Q; 2%Q])])]
               no_waveformdata "A01.csv"
             = Ok (w', "s"%string, 2000%Q)).
  { eexists. vm_compute. reflexivity. }
  destruct H as [w' H]. exists w'. split; [exact H |].
  apply (waveform_file_read_once _ _ _ _ _ _) in H as [_ H]; [exact H | discriminate].
Defined.

(** ** The trial read before the experiments *)

Lemma keep_first_eq_NoDup {A} (eqb : A -> A -> bool) :
  (forall a b, eqb a b = true <-> a = b) ->
  forall l seen,
    NoDup (keep_first eqb seen l) /\
    forall x, In x (keep_first eqb seen l) <-> In x l /\ ~ In x seen.
Proof.
  intros Hspec. induction l as [| m l IH]; intros seen; simpl.
  - split; [constructor | tauto].
  - destruct (existsb (eqb m) seen) eqn:Hm.
    + destruct (IH seen) as [Hnd Hin]. split; [exact Hnd |].
      intros n. rewrite Hin.
      apply existsb_exists in Hm as [k [Hk Hmk]]. apply Hspec in Hmk. subst k.
      split; [tauto |]. intros [[<- | Hn] Hs]; tauto.
    + destruct (IH (m :: seen)) as [Hnd Hin]. split.
      * constructor; [| exact Hnd]. rewrite Hin. simpl. tauto.
      * intros n. simpl. rewrite Hin. simpl.
        assert (Hms : ~ In m seen).
        { intros Hs.
          assert (Ht : existsb (eqb m) seen = true)
            by (apply existsb_exists; exists m; split; [exact Hs | now apply Hspec]).
          congruence. }
        destruct (eqb m n) eqn:Hmn.
        -- apply Hspec in Hmn. subst n. tauto.
        -- assert (m <> n) by (intros ->; rewrite (proj2 (Hspec n n) eq_refl) in Hmn;
                               discriminate).
           tauto.
Qed.

Lemma map_snd_enumerate {A} (l : list A) : map snd (enumerate l) = l.
Proof.
  unfold enumerate. apply map_snd_combine. now rewrite length_map, length_seq.
Qed.

Lemma map_fst_enumerate {A} (l : list A) :
  map fst (enumerate l) = map Z.of_nat (seq 0 (length l)).
Proof.
  unfold enumerate. apply map_fst_combine. now rewrite length_map, length_seq.
Qed.

Lemma str_inj_nonneg (n m : Z) : 0 <= n -> 0 <= m -> str n = str m -> n = m.
Proof.
  intros Hn Hm Heq.
  pose proof (parse_int_str n Hn) as H1. pose proof (parse_int_str m Hm) as H2.
  rewrite Heq in H1. congruence.
Qed.

Lemma liquids_of_names (la : list TED_LiquidAddition.t) :
  map Liquid.name (liquids_of la)
  = keep_first String.eqb [] (map TED_LiquidAddition.LIQUID la).
Proof.
  unfold liquids_of. rewrite map_map. cbn [Liquid.name].
  rewrite <- (map_map snd (fun n => n)), map_id. apply map_snd_enumerate.
Qed.

Lemma liquids_of_ids (la : list TED_LiquidAddition.t) :
  map Liquid.id (liquids_of la)
  = map (fun i => {| Id.root := ("L-" ++ str (Z.of_nat i))%string;
                     Id.extension := "" |})
        (seq 0 (length (liquids_of la))).
Proof.
  unfold liquids_of. rewrite length_map.
  rewrite map_map. cbn [Liquid.id].
  rewrite <- (map_map fst (fun i => {| Id.root := ("L-" ++ str i)%string;
                                       Id.extension := "" |})).
  rewrite map_fst_enumerate, map_map.
  unfold enumerate. rewrite length_combine, length_map, length_seq, Nat.min_id.
  reflexivity.
Qed.

Lemma in_split_first {A} (dec : forall a b : A, {a = b} + {a <> b})
  (b : A) (l : list A) :
  In b l -> exists pre post, l = pre ++ b :: post /\ ~ In b pre.
Proof.
  induction l as [| x l IH]; [intros [] |].
  destruct (dec x b) as [-> | Hne].
  - intros _. exists [], l. split; [reflexivity | intros []].
  - intros [Hx | Hin]; [contradiction |].
    destruct (IH Hin) as (pre & post & -> & Hpre).
    exists (x :: pre), post. split; [reflexivity |].
    intros [Hx | Hb]; [contradiction | now apply Hpre].
Qed.

(** The elements that [keep_first] keeps are in the order of their first
    places in the list. *)
Lemma keep_first_order (l : list string) :
  forall seen i j a b,
    (i < j)%nat ->
    nth_error (keep_first String.eqb seen l) i = Some a ->
    nth_error (keep_first String.eqb seen l) j = Some b ->
    exists pre post, l = pre ++ b :: post /\ ~ In b pre /\ In a pre.
Proof.
  induction l as [| x l IH]; intros seen i j a b Hij Ha Hb.
  - destruct i; discriminate Ha.
  - cbn [keep_first] in Ha, Hb.
    destruct (existsb (String.eqb x) seen) eqn:Hx.
    + destruct (IH seen i j a b Hij Ha Hb) as (pre & post & -> & Hpre & Hin).
      exists (x :: pre), post. split; [reflexivity |].
      split; [| now right].
      intros [<- | Hb']; [| now apply Hpre].
      apply nth_error_In in Hb.
      apply (keep_first_eq_NoDup String.eqb String.eqb_eq) in Hb as [_ Hb].
      apply Hb. apply existsb_exists in Hx as (k & Hk & Hxk).
      apply String.eqb_eq in Hxk. now subst k.
    + destruct j as [| j]; [lia |]. cbn [nth_error] in Hb.
      assert (Hbl : In b l /\ ~ In b (x :: seen)).
      { apply nth_error_In in Hb.
        now apply (keep_first_eq_NoDup String.eqb String.eqb_eq) in Hb. }
      destruct Hbl as [Hbl Hbx].
      assert (Hne : x <> b) by (intros ->; apply Hbx; now left).
      destruct i as [| i].
      * cbn [nth_error] in Ha.
        assert (a = x) by congruence. subst a.
        destruct (in_split_first string_dec b l Hbl) as (pre & post & -> & Hpre).
        exists (x :: pre), post. split; [reflexivity |]. split; [| now left].
        intros [Hxb | Hb']; [contradiction | now apply Hpre].
      * cbn [nth_error] in Ha.
        destruct (IH (x :: seen) i j a b ltac:(lia) Ha Hb)
          as (pre & post & -> & Hpre & Hin).
        exists (x :: pre), post. split; [reflexivity |].
        split; [| now right].
        intros [Hxb | Hb']; [contradiction | now apply Hpre].
Qed.

(** X16: the liquids that [from_xlsx] constructs are the distinct liquid
    names of the sheet of liquid additions in the order of their first
    row, each once: of two liquids, the one that comes first is named in
    a row before the first row that names the other.  The liquid at
    position [i] has the identifier [L-i]; no two liquids share a name
    or an identifier. *)
Theorem liquids_read (la : list TED_LiquidAddition.t) :
  NoDup (map Liquid.name (liquids_of la)) /\
  (forall name, In name (map Liquid.name (liquids_of la))
                <-> exists x, In x la /\ TED_LiquidAddition.LIQUID x = name) /\
  (forall i j l l',
     (i < j)%nat ->
     nth_error (liquids_of la) i = Some l ->
     nth_error (liquids_of la) j = Some l' ->
     exists pre post,
       map TED_LiquidAddition.LIQUID la = pre ++ Liquid.name l' :: post /\
       ~ In (Liquid.name l') pre /\ In (Liquid.name l) pre) /\
  (forall i l, nth_error (liquids_of la) i = Some l ->
     Liquid.id l = {| Id.root := ("L-" ++ str (Z.of_nat i))%string;
                      Id.extension := "" |}) /\
  NoDup (map Liquid.id (liquids_of la)).
Proof.
  destruct (keep_first_eq_NoDup String.eqb String.eqb_eq
              (map TED_LiquidAddition.LIQUID la) []) as [Hnd Hin].
  split; [| split; [| split; [| split]]];
    [| | intros i j l l' Hij Hl Hl';
         apply (keep_first_order (map TED_LiquidAddition.LIQUID la) [] i j);
         [exact Hij
         | rewrite <- liquids_of_names, nth_error_map, Hl; reflexivity
         | rewrite <- liquids_of_names, nth_error_map, Hl'; reflexivity]
     | | ].
  - rewrite liquids_of_names. exact Hnd.
  - intros name. rewrite liquids_of_names, Hin, in_map_iff. split.
    + intros [[x [Hx Hinx]] _]. eauto.
    + intros [x [Hx Hname]]. split; [eauto | tauto].
  - intros i l Hl.
    assert (Hid : nth_error (map Liquid.id (liquids_of la)) i = Some (Liquid.id l))
      by (rewrite nth_error_map, Hl; reflexivity).
    rewrite liquids_of_ids, nth_error_map in Hid.
    assert (Hi : (i < length (liquids_of la))%nat)
      by (apply nth_error_Some; congruence).
    rewrite nth_error_seq in Hid.
    destruct (Nat.ltb_spec i (length (liquids_of la))) as [_ | Hge]; [| lia].
    cbn [option_map Nat.add] in Hid. apply (f_equal (fun o => match o with Some x => x | None => Liquid.id l end)) in Hid.
    now symmetry.
  - rewrite liquids_of_ids. apply Finite.Injective_map_NoDup_in; [| apply seq_NoDup].
    intros i j Hi Hj Heq.
    assert (Hstr : str (Z.of_nat i) = str (Z.of_nat j)).
    { apply (f_equal Id.root) in Heq. cbn [Id.root] in Heq.
      now injection Heq. }
    apply str_inj_nonneg in Hstr; lia.
Qed.



Section ImportedProtocols.

Variable format_float : float -> string.
Variable ted : TED_dataset.

Let la := liquid_additions_read ted.





End ImportedProtocols.



(** ** Waveforms as tables *)

Section WaveformTables.

Variable read_csv_column : string -> Z -> Z -> option (list Q).

Lemma timeseries_to_df_in_memory w :
  Waveform.digits w <> [] ->
  timeseries_to_df read_csv_column w true = Ok [time_column w; signal_column w] /\
  timeseries_to_df read_csv_column w false = Ok [signal_column w].
Proof.
  intros Hds. unfold timeseries_to_df.
  destruct (Waveform.digits w) as [| d ds] eqn:Hd; [congruence |].
  cbn [Py.bind]. rewrite time_column_is_not_signal_column.
  unfold time_column, signal_column, signal_colname, physical_values.
  rewrite Hd. split; reflexivity.
Qed.

Lemma waveforms_to_df_in_memory w ws :
  Forall (fun w' => Waveform.digits w' <> []) (w :: ws) ->
  waveforms_to_df read_csv_column (w :: ws)
  = Ok (time_column w :: map signal_column (w :: ws)).
Proof.
  intros Hall. inversion Hall as [| ? ? Hw Hws]; subst.
  unfold waveforms_to_df.
  rewrite (proj1 (timeseries_to_df_in_memory w Hw)). cbn [Py.bind].
  rewrite (map_outcome_ok _ (fun w' => [signal_column w'])).
  - cbn [Py.bind map app]. do 3 f_equal.
    clear. induction ws as [| w' ws IH]; [reflexivity |].
    simpl. now rewrite IH.
  - intros w' Hw'. rewrite Forall_forall in Hws.
    exact (proj2 (timeseries_to_df_in_memory w' (Hws w' Hw'))).
Qed.

Lemma timeseries_to_df_columns w includetime table :
  timeseries_to_df read_csv_column w includetime = Ok table ->
  length table = if includetime then 2%nat else 1%nat.
Proof.
  unfold timeseries_to_df. intros H.
  apply bind_ok in H as (digits & _ & H).
  destruct includetime.
  - destruct (String.eqb _ _); [discriminate |].
    apply Ok_inj in H. now subst table.
  - apply Ok_inj in H. now subst table.
Qed.

Lemma waveforms_to_df_columns ws table :
  waveforms_to_df read_csv_column ws = Ok table ->
  length table = S (length ws).
Proof.
  unfold waveforms_to_df. destruct ws as [| w ws]; [discriminate |].
  intros H. apply bind_ok in H as (wf_df & Hw & H).
  apply bind_ok in H as (others & Hothers & H).
  apply Ok_inj in H. subst table.
  rewrite length_app, (timeseries_to_df_columns _ _ _ Hw).
  apply map_outcome_Forall2 in Hothers.
  assert (Hlen : length (concat others) = length ws).
  { clear Hw. induction Hothers as [| w' t' ws' others' Ht _ IH]; [reflexivity |].
    simpl. rewrite length_app, IH, (timeseries_to_df_columns _ _ _ Ht). reflexivity. }
  rewrite Hlen. reflexivity.
Qed.

End WaveformTables.

(** X18: the table that [waveforms_to_df] makes of waveforms whose samples
    are in memory: the column of times of the first waveform, named
    [t_unit] and counting the sampling increment from 0, and then for
    every waveform in turn the column of its samples in physical units,
    digit times scale plus origin.  Without a waveform it raises
    [IndexError]. *)
Theorem waveforms_table read_csv_column :
  waveforms_to_df read_csv_column [] = Raise IndexError /\
  forall w ws,
    Forall (fun w' => Waveform.digits w' <> []) (w :: ws) ->
    waveforms_to_df read_csv_column (w :: ws)
    = Ok (time_column w :: map signal_column (w :: ws)).
Proof.
  split; [reflexivity |]. apply waveforms_to_df_in_memory.
Qed.

Lemma waveforms_table_witness :
  waveforms_to_df Samples.no_file [Samples.waveform 1; Samples.waveform 2]
  = Ok (time_column (Samples.waveform 1)
          :: map signal_column [Samples.waveform 1; Samples.waveform 2]).
Proof.
  apply (proj2 (waveforms_table Samples.no_file)).
  repeat constructor; discriminate.
Defined.

(** X19: [EDCsvFile.save_waveforms] leaves the object with one header row
    and with both counters, [recordcount] and [recordsize], at the number
    of waveforms plus one, the number of columns of the file; the file is
    written to the path of the dataset joined with the file name. *)
Theorem save_waveforms_counters read_csv_column self waveforms self' file :
  save_waveforms read_csv_column self waveforms = Ok (self', file) ->
  EDCsvFile.header_size self' = 1 /\
  EDCsvFile.recordcount self' = Z.of_nat (length waveforms) + 1 /\
  EDCsvFile.recordsize self' = Z.of_nat (length waveforms) + 1 /\
  Z.of_nat (length (snd file)) = EDCsvFile.recordcount self' /\
  fst file = path_join (EDCsvFile.ted_dataset_path self) (EDCsvFile.edfilename self) /\
  EDCsvFile.edfilename self' = EDCsvFile.edfilename self.
Proof.
  unfold save_waveforms. intros H.
  apply bind_ok in H as (wf_df & Hdf & H).
  apply Ok_inj in H.
  apply waveforms_to_df_columns in Hdf.
  assert (Hself : self' = fst (self', file)) by reflexivity.
  assert (Hfile : file = snd (self', file)) by reflexivity.
  rewrite <- H in Hself, Hfile. cbn [fst snd] in Hself, Hfile. subst self' file.
  cbn [EDCsvFile.header_size EDCsvFile.recordcount EDCsvFile.recordsize
       EDCsvFile.edfilename EDCsvFile.ted_dataset_path fst snd].
  rewrite Hdf. repeat split; lia.
Qed.

Lemma save_waveforms_counters_witness :
  exists self' file,
    save_waveforms Samples.no_file (EDCsvFile.init "A01.csv" "ted")
                   [Samples.waveform 1; Samples.waveform 2] = Ok (self', file) /\
    EDCsvFile.recordcount self' = 3 /\
    EDCsvFile.recordsize self' = 3 /\
    fst file = "ted/A01.csv"%string.
Proof.
  assert (H : exists r,
             save_waveforms Samples.no_file (EDCsvFile.init "A01.csv" "ted")
                            [Samples.waveform 1; Samples.waveform 2] = Ok r).
  { eexists. vm_compute. reflexivity. }
  destruct H as [[self' file] H]. exists self', file. split; [exact H |].
  destruct (save_waveforms_counters _ _ _ _ _ H) as (_ & Hc & Hs & _ & Hf & _).
  repeat split; assumption.
Defined.

(** X20: a waveform without samples in memory.  When its file is not
    delimited text, no file is read and the waveform makes a column
    without samples.  When its file is delimited text, the samples are
    the column [itemcol] of the file, or its first [numrows] rows when
    [numrows] is positive; but the file is read only when [headersize] is
    positive: with the [headersize] 0 of the constructor the call raises
    [AttributeError]. *)
Theorem waveform_samples_from_file read_csv_column w :
  Waveform.digits w = [] ->
  (lower (splitext_extension (Waveform.edfilename w)) <> ".csv"%string ->
   timeseries_to_df read_csv_column w false = Ok [(signal_colname w, [])]) /\
  (kept_in_csv w -> Waveform.headersize w <= 0 ->
   forall includetime,
     timeseries_to_df read_csv_column w includetime
     = Raise (AttributeError "iloc")) /\
  (kept_in_csv w -> 0 < Waveform.headersize w ->
   forall col,
     read_csv_column (Waveform.edfilename w) (Waveform.headersize w)
                     (Waveform.itemcol w) = Some col ->
     timeseries_to_df read_csv_column w false
     = Ok [(signal_colname w,
            map (fun d => (d * fst (Waveform.scale w)
                           + fst (Waveform.origin w))%Q)
                (if 0 <? Waveform.numrows w
                 then firstn (Z.to_nat (Waveform.numrows w)) col
                 else col))]).
Proof.
  intros Hd. unfold timeseries_to_df, digits_from_file, signal_colname.
  rewrite Hd. split; [| split].
  - intros Hext. apply String.eqb_neq in Hext. rewrite Hext. reflexivity.
  - intros [_ Hext] Hh includetime. rewrite Hext. cbn [String.eqb].
    change (String.eqb ".csv" ".csv") with true. cbn iota.
    destruct (Z.ltb_spec 0 (Waveform.headersize w)); [lia | reflexivity].
  - intros [_ Hext] Hh col Hcol. rewrite Hext.
    change (String.eqb ".csv" ".csv") with true. cbn iota.
    destruct (Z.ltb_spec 0 (Waveform.headersize w)); [| lia].
    rewrite Hcol. destruct (0 <? Waveform.numrows w); reflexivity.
Qed.

Lemma waveform_samples_from_file_witness :
  timeseries_to_df Samples.no_file
    {| Waveform.head := (0%Q, "ms"); Waveform.increment := (1%Q, "ms");
       Waveform.origin := (0%Q, "pA"); Waveform.scale := (1%Q, "pA");
       Waveform.digits := []; Waveform.cipaType := "CIPA_RESULT_TYPE_CURRENT";
       Waveform.sequenceType := ""; Waveform.displayName := "";
       Waveform.tracenum := 1; Waveform.signalnam := "";
       Waveform.edfilename := "A01.CSV";
       Waveform.numrows := -1; Waveform.itemcol := 0;
       Waveform.headersize := 0 |} true
  = Raise (AttributeError "iloc").
Proof.
  apply waveform_samples_from_file.
  - reflexivity.
  - split; reflexivity.
  - simpl. lia.
Defined.

(** X21: the sheet of the intended voltage protocol keeps every sample of
    the first voltage protocol when the sampling increment is not zero.
    With the increment 0 of the constructor all times are 0 and rows
    with the same voltage are duplicates: the sheet keeps one row for
    each distinct voltage. *)
Theorem voltage_command_sheet read_csv_column trial p :
  first_voltage_protocol (Trial.protocols trial) = Some p ->
  Waveform.digits (VoltageProtocol.waveform p) <> [] ->
  (~ (fst (Waveform.increment (VoltageProtocol.waveform p)) == 0)%Q ->
   voltage_command_dataframe read_csv_column trial
   = Ok [time_column (VoltageProtocol.waveform p);
         signal_column (VoltageProtocol.waveform p)]) /\
  ((fst (Waveform.increment (VoltageProtocol.waveform p)) == 0)%Q ->
   exists times voltages,
     voltage_command_dataframe read_csv_column trial
     = Ok [(fst (time_column (VoltageProtocol.waveform p)), times);
           (signal_colname (VoltageProtocol.waveform p), voltages)] /\
     Forall (fun t => (t == 0)%Q) times /\
     length times = length voltages /\
     (forall v, In v voltages -> In v (physical_values (VoltageProtocol.waveform p))) /\
     (forall v, In v (physical_values (VoltageProtocol.waveform p)) ->
        exists v', In v' voltages /\ (v == v')%Q) /\
     ForallOrdPairs (fun v v' => ~ (v == v')%Q) voltages).
Proof.
  intros Hp Hds. unfold voltage_command_dataframe. rewrite Hp.
  set (w := VoltageProtocol.waveform p) in *.
  rewrite (proj1 (timeseries_to_df_in_memory read_csv_column w Hds)).
  cbn [Py.bind]. split.
  - intros Hinc. unfold time_column, signal_column.
    assert (Hlen : length (Waveform.digits w) = length (physical_values w))
      by (unfold physical_values; now rewrite length_map).
    rewrite Hlen, drop_duplicate_rows_linspace by exact Hinc. reflexivity.
  - intros Hinc. unfold time_column, signal_column, drop_duplicate_rows.
    set (ts := linspace _ _). set (vs := physical_values w).
    assert (Hlen : length ts = length vs).
    { unfold ts, vs, linspace, physical_values.
      now rewrite !length_map, length_seq. }
    assert (Hts : Forall (fun t => (t == 0)%Q) ts).
    { unfold ts, linspace. apply Forall_forall. intros t Ht.
      apply in_map_iff in Ht as (i & <- & _). rewrite Hinc. lra. }
    set (kept := keep_first pair_eqb [] (combine ts vs)).
    exists (map fst kept), (map snd kept).
    split; [reflexivity |].
    assert (Hkept : forall q, In q kept -> In q (combine ts vs))
      by (intros q; apply keep_first_In).
    split; [| split; [| split; [| split]]].
    + apply Forall_forall. intros t Ht. apply in_map_iff in Ht as ([t' v] & <- & Hq).
      apply Hkept, in_combine_l in Hq. rewrite Forall_forall in Hts. now apply Hts.
    + now rewrite !length_map.
    + intros v Hv. apply in_map_iff in Hv as ([t v'] & <- & Hq).
      apply Hkept, in_combine_r in Hq. exact Hq.
    + intros v Hv.
      destruct (In_combine_r_exists ts vs v Hlen Hv) as [t Htv].
      destruct (keep_first_represents pair_eqb (combine ts vs) [] (t, v))
        as [[t' v'] [[[] | Hy] Heq]].
      * intros [a b]. unfold pair_eqb. cbn [fst snd].
        now rewrite !(proj2 (Qeq_bool_iff _ _) (Qeq_refl _)).
      * exact Htv.
      * exists v'. split; [apply in_map_iff; exists (t', v'); auto |].
        unfold pair_eqb in Heq. cbn [fst snd] in Heq.
        apply andb_true_iff in Heq as [_ Heq]. now apply Qeq_bool_iff.
    + assert (Hpairs : forall l seen,
                 (forall q, In q l -> (fst q == 0)%Q) ->
                 ForallOrdPairs (fun v v' => ~ (v == v')%Q)
                                (map snd (keep_first pair_eqb seen l)) /\
                 forall v, In v (map snd (keep_first pair_eqb seen l)) ->
                           forall s, In s seen -> (fst s == 0)%Q -> ~ (v == snd s)%Q).
      { induction l as [| [t v] l IH]; intros seen Hzero; cbn [keep_first].
        - split; [constructor | intros v []].
        - assert (Hl : forall q, In q l -> (fst q == 0)%Q)
            by (intros q Hq; apply Hzero; now right).
          assert (Ht : (t == 0)%Q) by (apply (Hzero (t, v)); now left).
          destruct (existsb (pair_eqb (t, v)) seen) eqn:Hex; [now apply IH |].
          destruct (IH ((t, v) :: seen) Hl) as [IH1 IH2].
          cbn [map snd]. split.
          + constructor; [| exact IH1].
            apply Forall_forall. intros v' Hv' Heq.
            apply (IH2 v' Hv' (t, v)); [now left | exact Ht |].
            cbn [snd]. now symmetry.
          + intros v' [<- | Hv'] s Hs Hs0.
            * intros Heq.
              assert (Hc : existsb (pair_eqb (t, v)) seen = true).
              { apply existsb_exists. exists s. split; [exact Hs |].
                unfold pair_eqb. cbn [fst snd]. apply andb_true_iff.
                split; apply Qeq_bool_iff; [rewrite Ht, Hs0; reflexivity | exact Heq]. }
              congruence.
            * apply (IH2 v' Hv'); [now right | exact Hs0]. }
      apply (Hpairs (combine ts vs) []).
      intros [t v] Hq. apply in_combine_l in Hq. rewrite Forall_forall in Hts.
      now apply Hts.
Qed.

Lemma voltage_command_sheet_witness :
  voltage_command_dataframe Samples.no_file (Samples.trial [])
  = Ok [time_column (VoltageProtocol.waveform Samples.voltage_command);
        signal_column (VoltageProtocol.waveform Samples.voltage_command)].
Proof.
  apply (voltage_command_sheet Samples.no_file (Samples.trial [])
           Samples.voltage_command).
  - reflexivity.
  - discriminate.
  - simpl. discriminate.
Defined.

(** ** The liquid written to the wide rows *)









(** ** Sampled values *)

Lemma round_near x :
  (inject_Z (io.round x) - (1 # 2) <= x <= inject_Z (io.round x) + (1 # 2))%Q.
Proof.
  unfold io.round.
  pose proof (Qfloor_le x) as Hlo. pose proof (Qlt_floor x) as Hhi.
  rewrite inject_Z_plus in Hhi. change (inject_Z 1) with 1%Q in Hhi.
  destruct (x - inject_Z (Qfloor x) ?= 1 # 2)%Q eqn:Hc.
  - apply Qeq_alt in Hc.
    destruct (Z.even (Qfloor x)).
    + split; lra.
    + rewrite inject_Z_plus. change (inject_Z 1) with 1%Q. split; lra.
  - apply Qlt_alt in Hc. split; lra.
  - apply Qgt_alt in Hc. rewrite inject_Z_plus. change (inject_Z 1) with 1%Q.
    split; lra.
Qed.

Lemma max_bounds vs : forall v,
  (v <= io.max_ v vs)%Q /\
  (forall x, In x vs -> x <= io.max_ v vs)%Q /\
  (io.max_ v vs = v \/ In (io.max_ v vs) vs).
Proof.
  unfold io.max_. induction vs as [| y ys IH]; intros v; cbn [fold_left].
  - split; [lra |]. split; [intros x [] | now left].
  - destruct (Qle_bool y v) eqn:Hyv.
    + apply Qle_bool_iff in Hyv.
      destruct (IH v) as (H1 & H2 & H3).
      split; [exact H1 |]. split.
      * intros x [<- | Hx]; [lra | now apply H2].
      * destruct H3 as [H3 | H3]; [now left | right; now right].
    + assert (Hlt : (v < y)%Q).
      { apply Qnot_le_lt. intros H. apply Qle_bool_iff in H. congruence. }
      destruct (IH y) as (H1 & H2 & H3).
      split; [lra |]. split.
      * intros x [<- | Hx]; [exact H1 | now apply H2].
      * right. destruct H3 as [-> | H3]; [now left | now right].
Qed.

Lemma min_bounds vs : forall v,
  (io.min_ v vs <= v)%Q /\
  (forall x, In x vs -> io.min_ v vs <= x)%Q /\
  (io.min_ v vs = v \/ In (io.min_ v vs) vs).
Proof.
  unfold io.min_. induction vs as [| y ys IH]; intros v; cbn [fold_left].
  - split; [lra |]. split; [intros x [] | now left].
  - destruct (Qle_bool v y) eqn:Hvy.
    + apply Qle_bool_iff in Hvy.
      destruct (IH v) as (H1 & H2 & H3).
      split; [exact H1 |]. split.
      * intros x [<- | Hx]; [lra | now apply H2].
      * destruct H3 as [H3 | H3]; [now left | right; now right].
    + assert (Hlt : (y < v)%Q).
      { apply Qnot_le_lt. intros H. apply Qle_bool_iff in H. congruence. }
      destruct (IH y) as (H1 & H2 & H3).
      split; [lra |]. split.
      * intros x [<- | Hx]; [exact H1 | now apply H2].
      * right. destruct H3 as [-> | H3]; [now left | now right].
Qed.

(** What [physical_to_int16] returns on a list with a first element. *)
Lemma physical_to_int16_cases v vs :
  let lo := io.min_ v vs in
  let hi := io.max_ v vs in
  ((hi - lo == 0)%Q /\ io.physical_to_int16 (v :: vs) = inl io.ZeroDivisionError) \/
  (exists s,
      (0 < hi - lo)%Q /\ (0 < s)%Q /\
      (hi - lo <= 1 -> s * (hi - lo) == 13)%Q /\
      (1 < hi - lo -> s * 13 == hi - lo)%Q /\
      io.physical_to_int16 (v :: vs)
      = inr {| io.sampled_values :=
                 map (fun n => io.value_to_int n s lo) (v :: vs);
               io.origin := lo; io.scale := s |}).
Proof.
  cbn zeta.
  destruct (max_bounds vs v) as (Hmax & _ & _).
  destruct (min_bounds vs v) as (Hmin & _ & _).
  unfold io.physical_to_int16.
  set (lo := io.min_ v vs) in *. set (hi := io.max_ v vs) in *.
  change (Z.lxor 2 (16 - 1)) with 13%Z. change (inject_Z 13) with 13%Q.
  destruct (Qle_bool (hi - lo) 1) eqn:Hamp; cbn [negb]; unfold io.divide.
  - apply Qle_bool_iff in Hamp.
    destruct (Qeq_bool (hi - lo) 0) eqn:Hz.
    + left. apply Qeq_bool_iff in Hz. split; [exact Hz | reflexivity].
    + right. exists (13 / (hi - lo))%Q.
      assert (Hne : ~ (hi - lo == 0)%Q).
      { intros H. apply Qeq_bool_iff in H. congruence. }
      assert (Hpos : (0 < hi - lo)%Q) by lra.
      split; [exact Hpos |]. split.
      * apply Qlt_shift_div_l; [exact Hpos | lra].
      * split; [| split; [intros; lra | reflexivity]].
        intros _. field. exact Hne.
  - assert (Hgt : (1 < hi - lo)%Q).
    { apply Qnot_le_lt. intros H. apply Qle_bool_iff in H. congruence. }
    change (Qeq_bool 13 0) with false. cbn iota.
    right. exists ((hi - lo) / 13)%Q.
    split; [lra |]. split.
    + apply Qlt_shift_div_l; lra.
    + split; [intros; lra |]. split; [| reflexivity].
      intros _. field.
Qed.

Lemma sampled_to_physical_ok origin s (codes : list Z) :
  ~ (s == 0)%Q ->
  io.sampled_to_physical codes origin s
  = inr (map (fun n => ((inject_Z n - origin) / s)%Q) codes).
Proof.
  intros Hs. induction codes as [| n rest IH]; [reflexivity |].
  cbn [io.sampled_to_physical map]. unfold io.divide.
  destruct (Qeq_bool s 0) eqn:Hz; [apply Qeq_bool_iff in Hz; contradiction |].
  now rewrite IH.
Qed.

(** X23: the errors of [physical_to_int16].  Without values it raises
    [ValueError]; when all the values are equal, the amplitude is zero
    and it raises [ZeroDivisionError]; otherwise it returns one sampled
    value for each value, the smallest value as the origin and a
    positive scale. *)
Theorem physical_to_int16_returns vals :
  match io.physical_to_int16 vals with
  | inl io.ValueError => vals = []
  | inl io.ZeroDivisionError =>
      vals <> [] /\ forall v w, In v vals -> In w vals -> (v == w)%Q
  | inr r =>
      (exists v w, In v vals /\ In w vals /\ (v < w)%Q) /\
      length (io.sampled_values r) = length vals /\
      In (io.origin r) vals /\
      (forall v, In v vals -> io.origin r <= v)%Q /\
      (0 < io.scale r)%Q
  end.
Proof.
  destruct vals as [| v vs]; [reflexivity |].
  destruct (max_bounds vs v) as (Hmax & Hmaxs & Hmaxin).
  destruct (min_bounds vs v) as (Hmin & Hmins & Hminin).
  destruct (physical_to_int16_cases v vs) as [[Hz ->] | (s & Hpos & Hs & _ & _ & ->)].
  - split; [discriminate |].
    assert (Hall : forall x, In x (v :: vs) ->
                             (io.min_ v vs <= x <= io.max_ v vs)%Q).
    { intros x [<- | Hx]; [split; assumption |].
      split; [now apply Hmins | now apply Hmaxs]. }
    intros a b Ha Hb. apply Hall in Ha, Hb. lra.
  - cbn [io.sampled_values io.origin io.scale].
    split; [| split; [| split; [| split]]].
    + exists (io.min_ v vs), (io.max_ v vs).
      split; [destruct Hminin as [-> | H]; [now left | now right] |].
      split; [destruct Hmaxin as [-> | H]; [now left | now right] |]. lra.
    + now rewrite length_map.
    + destruct Hminin as [-> | H]; [now left | now right].
    + intros x [<- | Hx]; [exact Hmin | now apply Hmins].
    + exact Hs.
Qed.

(** X24: sampled values back to physical values.  With the origin and the
    scale that [physical_to_int16] returns, [sampled_to_physical]
    returns, for every value, a value that differs from it by at most
    half the inverse of the scale. *)
Theorem sampled_values_round_trip vals r :
  io.physical_to_int16 vals = inr r ->
  exists ps,
    io.sampled_to_physical (io.sampled_values r) (io.origin r) (io.scale r)
    = inr ps /\
    Forall2 (fun v p => - (1 / (2 * io.scale r)) <= p - v <= 1 / (2 * io.scale r))%Q
            vals ps.
Proof.
  destruct vals as [| v vs]; [discriminate |].
  destruct (physical_to_int16_cases v vs) as [[_ ->] | (s & _ & Hs & _ & _ & ->)];
    [discriminate |].
  intros H. assert (Hr : r = {| io.sampled_values :=
                                  map (fun n => io.value_to_int n s (io.min_ v vs))
                                      (v :: vs);
                                io.origin := io.min_ v vs; io.scale := s |})
    by congruence.
  subst r. cbn [io.sampled_values io.origin io.scale]. clear H.
  rewrite sampled_to_physical_ok by lra.
  eexists. split; [reflexivity |].
  rewrite map_map.
  generalize (v :: vs). intros l. induction l as [| x l IH]; constructor; [| exact IH].
  unfold io.value_to_int.
  pose proof (round_near (x * s + io.min_ v vs)) as Hnear.
  set (c := inject_Z (io.round (x * s + io.min_ v vs))) in *.
  set (o := io.min_ v vs) in *.
  assert (Hdiff : ((c - o) / s - x == (c - (x * s + o)) / s)%Q)
    by (field; lra).
  assert (Hhalf : (1 / (2 * s) == (1 # 2) / s)%Q) by (field; lra).
  rewrite Hdiff, Hhalf.
  assert (Hinv : (0 < / s)%Q) by now apply Qinv_lt_0_compat.
  unfold Qdiv. split.
  - setoid_replace (- ((1 # 2) * / s))%Q with ((- (1 # 2)) * / s)%Q by ring.
    apply Qmult_le_compat_r; lra.
  - apply Qmult_le_compat_r; lra.
Qed.

Lemma sampled_values_round_trip_witness :
  exists r ps,
    io.physical_to_int16 [0%Q; (1 # 4)%Q; 1%Q] = inr r /\
    io.sampled_to_physical (io.sampled_values r) (io.origin r) (io.scale r)
    = inr ps /\
    Forall2 (fun v p => - (1 / (2 * io.scale r)) <= p - v <= 1 / (2 * io.scale r))%Q
            [0%Q; (1 # 4)%Q; 1%Q] ps.
Proof.
  assert (H : exists r, io.physical_to_int16 [0%Q; (1 # 4)%Q; 1%Q] = inr r).
  { eexists. vm_compute. reflexivity. }
  destruct H as [r H]. exists r.
  destruct (sampled_values_round_trip _ r H) as (ps & Hps & Hall).
  exists ps. split; [exact H |]. split; assumption.
Defined.

(** X25: the sampled values of a signal of small amplitude.  When no two
    values differ by more than 1, no two sampled values that
    [physical_to_int16] returns differ by more than 14. *)
Theorem sampled_values_of_small_amplitude vals r :
  io.physical_to_int16 vals = inr r ->
  (forall v w, In v vals -> In w vals -> w - v <= 1)%Q ->
  forall c c', In c (io.sampled_values r) -> In c' (io.sampled_values r) ->
               Z.abs (c - c') <= 14.
Proof.
  destruct vals as [| v vs]; [discriminate |].
  destruct (max_bounds vs v) as (Hmax & Hmaxs & Hmaxin).
  destruct (min_bounds vs v) as (Hmin & Hmins & Hminin).
  destruct (physical_to_int16_cases v vs) as [[_ ->] | (s & Hpos & Hs & Hsmall & _ & ->)];
    [discriminate |].
  intros H Hamp.
  assert (Hr : r = {| io.sampled_values :=
                        map (fun n => io.value_to_int n s (io.min_ v vs)) (v :: vs);
                      io.origin := io.min_ v vs; io.scale := s |})
    by congruence.
  subst r. cbn [io.sampled_values]. clear H.
  assert (Hle : (io.max_ v vs - io.min_ v vs <= 1)%Q).
  { apply Hamp.
    - destruct Hminin as [-> | Hin]; [now left | now right].
    - destruct Hmaxin as [-> | Hin]; [now left | now right]. }
  specialize (Hsmall Hle).
  assert (Hall : forall x, In x (v :: vs) ->
                           (io.min_ v vs <= x <= io.max_ v vs)%Q).
  { intros x [<- | Hx]; [split; assumption |].
    split; [now apply Hmins | now apply Hmaxs]. }
  set (lo := io.min_ v vs) in *. set (hi := io.max_ v vs) in *.
  assert (Hcode : forall c, In c (map (fun n => io.value_to_int n s lo) (v :: vs)) ->
                            (lo * s + lo - (1 # 2) <= inject_Z c
                             <= lo * s + lo + 13 + (1 # 2))%Q).
  { intros c Hc. apply in_map_iff in Hc as (x & <- & Hx).
    apply Hall in Hx. unfold io.value_to_int.
    pose proof (round_near (x * s + lo)) as Hnear.
    assert (H1 : (lo * s <= x * s)%Q) by (apply Qmult_le_compat_r; lra).
    assert (H2 : (x * s <= hi * s)%Q) by (apply Qmult_le_compat_r; lra).
    assert (H3 : (hi * s == lo * s + 13)%Q).
    { setoid_replace (hi * s)%Q with (lo * s + s * (hi - lo))%Q by ring.
      now rewrite Hsmall. }
    split; lra. }
  intros c c' Hc Hc'. apply Hcode in Hc, Hc'.
  assert (Hd : (inject_Z (c - c') <= 14 /\ inject_Z (c' - c) <= 14)%Q).
  { unfold Zminus. rewrite !inject_Z_plus, !inject_Z_opp. split; lra. }
  destruct Hd as [Hd1 Hd2].
  change 14%Q with (inject_Z 14) in Hd1, Hd2.
  rewrite <- Zle_Qle in Hd1, Hd2. lia.
Qed.

Lemma sampled_values_of_small_amplitude_witness :
  exists r,
    io.physical_to_int16 [0%Q; (1 # 4)%Q; 1%Q] = inr r /\
    forall c c', In c (io.sampled_values r) -> In c' (io.sampled_values r) ->
                 Z.abs (c - c') <= 14.
Proof.
  assert (H : exists r, io.physical_to_int16 [0%Q; (1 # 4)%Q; 1%Q] = inr r).
  { eexists. vm_compute. reflexivity. }
  destruct H as [r H]. exists r. split; [exact H |].
  apply (sampled_values_of_small_amplitude _ r H).
  intros v w [<- | [<- | [<- | []]]] [<- | [<- | [<- | []]]]; vm_compute;
    discriminate.
Defined.

(** ** The ranges in the table of liquid additions *)

Lemma experiment_rows_in_table trial d exp :
  cells_cursors_liquids_results_dataframes trial = Ok d ->
  In exp (Trial.experiments trial) ->
  exists t,
    experiment_tables trial exp = Ok t /\
    forall x, In x (liquid_adds t) -> In x (rows (LiquidAdditions d)).
Proof.
  intros Hd Hexp.
  destruct (dataframes_eq trial d Hd) as (ts & Hts & _ & _ & Hla).
  destruct (Forall2_In_l _ _ _ _ Hts Hexp) as (t & Hin & Ht).
  exists t. split; [exact Ht |].
  intros x Hx. rewrite Hla. cbn [rows]. apply stable_sort_In.
  apply in_concat. exists (liquid_adds t). split; [now apply in_map | exact Hx].
Qed.

Lemma liquid_additions_of_experiment trial exp t :
  experiment_tables trial exp = Ok t ->
  Forall2 (liquid_addition_of trial exp) (additions_in_time_order exp)
          (liquid_adds t).
Proof.
  intros Ht.
  destruct (experiment_tables_eq trial exp t Ht)
    as (rs & others & ljp & Hrs & Hljp & _ & _ & Hla & _).
  rewrite Hla. exact (liquid_addition_rows_of trial exp rs others ljp Hrs Hljp).
Qed.

Lemma first_results_set exp rs rs' others :
  hd_error (Experiment.resultsSet exp) = Some rs ->
  Experiment.resultsSet exp = rs' :: others ->
  rs' = rs.
Proof. intros H H'. rewrite H' in H. cbn in H. congruence. Qed.

Lemma eleven_traces_increasing :
  traces_increasing (Samples.ten_traces ++ [Samples.voltage_trace 11 10]).
Proof.
  assert (Htime : Forall (fun r => Result.elapsedTime r
                                   = inject_Z (Result.traceNumber r - 1))
                         (Samples.ten_traces ++ [Samples.voltage_trace 11 10]))
    by (repeat constructor).
  rewrite Forall_forall in Htime.
  intros r1 r2 H1 H2. rewrite (Htime r1 H1), (Htime r2 H2).
  rewrite <- Zlt_Qlt. lia.
Qed.

(** C2, as stated, fails: the ranges are those of the current traces,
    not of all the recorded results.  With a voltage trace, number 11,
    recorded after the ten current traces of the scenario, the additions
    are in time order and all eleven results are numbered increasingly
    with elapsed time, the latest recorded result has the number 11, and
    the last row of the liquid additions ends at 10. *)
Lemma ranges_end_at_last_current_trace :
  sorted_by_time (exec_ps (Experiment.protocols Samples.voltage_recorded_last)) /\
  traces_increasing (Samples.ten_traces ++ [Samples.voltage_trace 11 10]) /\
  latest (Samples.ten_traces ++ [Samples.voltage_trace 11 10])
         (Samples.voltage_trace 11 10) /\
  Result.traceNumber (Samples.voltage_trace 11 10) = 11 /\
  exists d,
    cells_cursors_liquids_results_dataframes
      (Samples.trial [Samples.voltage_recorded_last]) = Ok d /\
    map range_of (rows (LiquidAdditions d)) = [(1, 5); (6, 10)].
Proof.
  split; [repeat constructor; vm_compute; discriminate |].
  split; [exact eleven_traces_increasing |].
  split.
  - split; [apply in_or_app; right; now left |].
    intros r Hr. apply in_app_or in Hr as [Hr | [<- | []]].
    + unfold Samples.ten_traces in Hr. cbn [map In] in Hr.
      repeat (destruct Hr as [<- | Hr]; [vm_compute; discriminate |]).
      destruct Hr.
    + apply Qle_refl.
  - split; [reflexivity |].
    eexists. split; [vm_compute; reflexivity | reflexivity].
Qed.

Lemma two_additions_at_different_times :
  at_different_times (exec_ps (Experiment.protocols Samples.two_additions)).
Proof.
  intros a b Ha Hb Ht.
  vm_compute in Ha, Hb.
  destruct Ha as [<- | [<- | []]]; destruct Hb as [<- | [<- | []]];
    solve [reflexivity | vm_compute in Ht; discriminate Ht].
Qed.

(** C2, amended: take a trial in which no cursor evaluated on a current
    trace of a first results set is named like an attribute of the wide
    row or like CTLFL or SBFL.  When the trial has at least one
    experiment and each experiment has a first results set with an
    identifier of its cell, a liquid junction potential of its own or of
    the trial, a type for each of its cursors and, for each of its
    current traces, a waveform, a list of cursors and a result for each
    cursor of the list, at least one liquid addition, a current trace at
    or after every addition and a current trace before every addition
    but the earliest, the builder returns its tables.  Whenever the
    builder returns, take an experiment of the trial whose liquid
    additions are executed in time order, no two different additions at
    the same time, and whose current traces are numbered increasingly
    with elapsed time: the table of liquid
    additions has for each distinct addition of the experiment, in their
    order, a row with the identifiers of the experiment and the liquid of
    the addition, with, as FIRST, the trace number of the earliest
    current trace at or after the addition; as LAST, the trace number of
    the latest current trace before the next addition, and for the final
    addition the trace number of the latest current trace; these traces
    exist.  With additions at 0 s and 5 s and ten current traces at 0 s
    to 9 s the ranges of the table are 1 to 5 and 6 to 10. *)
Theorem liquid_addition_ranges :
  (forall trial,
      cursor_names_apart trial ->
      Trial.experiments trial <> [] ->
      (forall exp, In exp (Trial.experiments trial) -> recorded trial exp) ->
      exists d, cells_cursors_liquids_results_dataframes trial = Ok d) /\
  (forall trial d exp rs,
      cursor_names_apart trial ->
      cells_cursors_liquids_results_dataframes trial = Ok d ->
      In exp (Trial.experiments trial) ->
      hd_error (Experiment.resultsSet exp) = Some rs ->
      sorted_by_time (exec_ps (Experiment.protocols exp)) ->
      at_different_times (exec_ps (Experiment.protocols exp)) ->
      traces_increasing (current_results rs) ->
      exists xs,
        Forall2 (liquid_addition_of trial exp) (distinct_additions exp) xs /\
        (forall x, In x xs -> In x (rows (LiquidAdditions d))) /\
        forall i e x,
          nth_error (distinct_additions exp) i = Some e ->
          nth_error xs i = Some x ->
          (exists r, earliest_from (LiquidExecution.TIME e) (current_results rs) r) /\
          (forall r, earliest_from (LiquidExecution.TIME e) (current_results rs) r ->
                     TED_LiquidAddition.FIRST x = Result.traceNumber r) /\
          match nth_error (distinct_additions exp) (S i) with
          | Some e' =>
              (exists r, latest_before (LiquidExecution.TIME e')
                                       (current_results rs) r) /\
              (forall r, latest_before (LiquidExecution.TIME e')
                                       (current_results rs) r ->
                         TED_LiquidAddition.LAST x = Result.traceNumber r)
          | None =>
              (exists r, latest (current_results rs) r) /\
              (forall r, latest (current_results rs) r ->
                         TED_LiquidAddition.LAST x = Result.traceNumber r)
          end) /\
  (exists d,
      cells_cursors_liquids_results_dataframes
        (Samples.trial [Samples.two_additions]) = Ok d /\
      map range_of (rows (LiquidAdditions d)) = [(1, 5); (6, 10)]).
Proof.
  split; [intros trial _; exact (dataframes_ok trial) |].
  split; [| eexists; split; [vm_compute; reflexivity | reflexivity]].
  intros trial d exp rs _ Hd Hexp Hrs Hsorted _ Hinc.
  destruct (experiment_rows_in_table trial d exp Hd Hexp) as (t & Ht & Hin).
  destruct (experiment_tables_recorded trial exp t Ht)
    as (rs' & others & Hrs' & Hexportable & Hne & Hfrom & Hbefore).
  assert (rs' = rs) by exact (first_results_set exp rs rs' others Hrs Hrs').
  subst rs'.
  pose proof (liquid_additions_of_experiment trial exp t Ht) as Hrows.
  rewrite (additions_sorted_by_time exp Hsorted) in Hne, Hfrom, Hbefore, Hrows.
  destruct (experiment_ranges trial exp rs others Hrs' Hexportable Hsorted Hinc
              Hne Hfrom Hbefore) as (t' & Ht' & _ & Hnth).
  assert (t' = t) by (rewrite Ht in Ht'; symmetry; exact (Ok_inj _ _ Ht')).
  subst t'.
  exists (liquid_adds t). split; [exact Hrows |]. split; [exact Hin | exact Hnth].
Qed.

Lemma liquid_addition_ranges_witness :
  exists d xs,
    cells_cursors_liquids_results_dataframes
      (Samples.trial [Samples.two_additions]) = Ok d /\
    Forall2 (liquid_addition_of (Samples.trial [Samples.two_additions])
                                Samples.two_additions)
            (distinct_additions Samples.two_additions) xs /\
    (forall x, In x xs -> In x (rows (LiquidAdditions d))) /\
    forall i e x,
      nth_error (distinct_additions Samples.two_additions) i = Some e ->
      nth_error xs i = Some x ->
      (exists r, earliest_from (LiquidExecution.TIME e) Samples.ten_traces r) /\
      (forall r, earliest_from (LiquidExecution.TIME e) Samples.ten_traces r ->
                 TED_LiquidAddition.FIRST x = Result.traceNumber r) /\
      match nth_error (distinct_additions Samples.two_additions) (S i) with
      | Some e' =>
          (exists r, latest_before (LiquidExecution.TIME e') Samples.ten_traces r) /\
          (forall r, latest_before (LiquidExecution.TIME e') Samples.ten_traces r ->
                     TED_LiquidAddition.LAST x = Result.traceNumber r)
      | None =>
          (exists r, latest Samples.ten_traces r) /\
          (forall r, latest Samples.ten_traces r ->
                     TED_LiquidAddition.LAST x = Result.traceNumber r)
      end.
Proof.
  destruct (proj1 liquid_addition_ranges (Samples.trial [Samples.two_additions]))
    as [d Hd].
  - exact two_additions_cursor_names.
  - discriminate.
  - intros exp [<- | []]. exact two_additions_recorded.
  - destruct (proj1 (proj2 liquid_addition_ranges)
                (Samples.trial [Samples.two_additions]) d Samples.two_additions
                (Samples.results_of Samples.ten_traces))
      as (xs & Hrows & Hin & Hnth).
    + exact two_additions_cursor_names.
    + exact Hd.
    + now left.
    + reflexivity.
    + repeat constructor. vm_compute. discriminate.
    + exact two_additions_at_different_times.
    + exact ten_traces_increasing.
    + exists d, xs. split; [exact Hd |]. split; [exact Hrows |].
      split; [exact Hin | exact Hnth].
Defined.

(** C3, amended: take a trial in which no cursor evaluated on a current
    trace of a first results set is named like an attribute of the wide
    row or like CTLFL or SBFL.  When the trial has at least one
    experiment and each experiment has a first results set with an
    identifier of its cell, a liquid junction potential of its own or of
    the trial, a type for each of its cursors and, for each of its
    current traces, a waveform, a list of cursors and a result for each
    cursor of the list, at least one liquid addition, a current trace at
    or after every addition and a current trace before every addition
    but the earliest, the builder returns its tables.  Whenever the
    builder returns, take an experiment of the trial no two different
    liquid additions of which are executed at the same time, whose
    current traces are numbered increasingly with
    elapsed time and whose earliest liquid addition is not later than any
    current trace: the table of liquid additions has for each distinct
    addition of the experiment, in time order, a row with the identifiers
    of the experiment and the liquid of the addition; the ranges FIRST to
    LAST of these rows follow each other, no trace number lies in two of
    them, and the trace number of every current trace lies in one. *)
Theorem liquid_addition_ranges_partition :
  (forall trial,
      cursor_names_apart trial ->
      Trial.experiments trial <> [] ->
      (forall exp, In exp (Trial.experiments trial) -> recorded trial exp) ->
      exists d, cells_cursors_liquids_results_dataframes trial = Ok d) /\
  (forall trial d exp rs,
      cursor_names_apart trial ->
      cells_cursors_liquids_results_dataframes trial = Ok d ->
      In exp (Trial.experiments trial) ->
      hd_error (Experiment.resultsSet exp) = Some rs ->
      at_different_times (exec_ps (Experiment.protocols exp)) ->
      traces_increasing (current_results rs) ->
      (forall e r, hd_error (additions_in_time_order exp) = Some e ->
                   In r (current_results rs) ->
                   (LiquidExecution.TIME e <= Result.elapsedTime r)%Q) ->
      exists xs,
        Forall2 (liquid_addition_of trial exp) (additions_in_time_order exp) xs /\
        (forall x, In x xs -> In x (rows (LiquidAdditions d))) /\
        consecutive xs /\
        partition_of xs (current_results rs)).
Proof.
  split; [intros trial _; exact (dataframes_ok trial) |].
  intros trial d exp rs _ Hd Hexp Hrs _ Hinc Hhd.
  destruct (experiment_rows_in_table trial d exp Hd Hexp) as (t & Ht & Hin).
  destruct (experiment_tables_recorded trial exp t Ht)
    as (rs' & others & Hrs' & Hexportable & Hne & Hfrom & Hbefore).
  assert (rs' = rs) by exact (first_results_set exp rs rs' others Hrs Hrs').
  subst rs'.
  destruct (experiment_ranges_partition trial exp rs others Hrs' Hexportable Hinc
              Hne Hhd Hfrom Hbefore) as (t' & Ht' & _ & Hcons & Hpart).
  assert (t' = t) by (rewrite Ht in Ht'; symmetry; exact (Ok_inj _ _ Ht')).
  subst t'.
  exists (liquid_adds t).
  split; [exact (liquid_additions_of_experiment trial exp t Ht) |].
  split; [exact Hin |]. split; [exact Hcons | exact Hpart].
Qed.

Lemma liquid_addition_ranges_partition_witness :
  exists d xs,
    cells_cursors_liquids_results_dataframes
      (Samples.trial [Samples.two_additions]) = Ok d /\
    Forall2 (liquid_addition_of (Samples.trial [Samples.two_additions])
                                Samples.two_additions)
            (additions_in_time_order Samples.two_additions) xs /\
    (forall x, In x xs -> In x (rows (LiquidAdditions d))) /\
    consecutive xs /\
    partition_of xs Samples.ten_traces.
Proof.
  destruct (proj1 liquid_addition_ranges_partition
              (Samples.trial [Samples.two_additions])) as [d Hd].
  - exact two_additions_cursor_names.
  - discriminate.
  - intros exp [<- | []]. exact two_additions_recorded.
  - destruct (proj2 liquid_addition_ranges_partition
                (Samples.trial [Samples.two_additions]) d Samples.two_additions
                (Samples.results_of Samples.ten_traces))
      as (xs & Hrows & Hin & Hcons & Hpart).
    + exact two_additions_cursor_names.
    + exact Hd.
    + now left.
    + reflexivity.
    + exact two_additions_at_different_times.
    + exact ten_traces_increasing.
    + intros e r He Hr. vm_compute in He.
      apply (f_equal (fun o => match o with Some x => x | None => e end)) in He.
      subst e.
      change (current_results (Samples.results_of Samples.ten_traces))
        with Samples.ten_traces in Hr.
      unfold Samples.ten_traces in Hr. cbn [map In] in Hr.
      repeat (destruct Hr as [<- | Hr]; [vm_compute; discriminate |]).
      destruct Hr.
    + exists d, xs. split; [exact Hd |]. split; [exact Hrows |].
      split; [exact Hin |]. split; [exact Hcons | exact Hpart].
Defined.
